(** * The lottery engine of [shift.ts] (plugin [lottery])

    A shallow embedding of the SQLite-backed lottery code: the four tables
    are lists of rows in insertion (rowid) order, every SQL statement is a
    function on those lists, [Date.now()] is an explicit argument, the
    Telegram client is an explicit environment and [Math.random] an explicit
    oracle.  The module-level handle [db] is always open here, so the
    [if (!db) return ...] guards are not modelled.  One top-level call
    reads the clock once: the successive [Date.now()] of a single call are
    taken to return the same value. *)

From Stdlib Require Import ZArith String List Bool Lia Permutation PeanoNat.
Import ListNotations.

Local Open Scope string_scope.
Local Open Scope Z_scope.

(** ** Enumerations *)

(** [enum PrizeStatus]. *)
Inductive PrizeStatus : Type := SENT | PENDING | EXPIRED.

(** [enum LotteryMode]. *)
Inductive LotteryMode : Type := MANUAL | AUTO.

(** [enum DistributionMode]. *)
Inductive DistributionMode : Type := CLAIM | AUTO_SEND.

(** Column [lottery_config.status]: ['active'] (the default) or
    ['completed'], the only two values the code ever writes. *)
Inductive LotteryStatus : Type := active | completed.

Definition PrizeStatus_eqb (a b : PrizeStatus) : bool :=
  match a, b with
  | SENT, SENT | PENDING, PENDING | EXPIRED, EXPIRED => true
  | _, _ => false
  end.

Definition LotteryStatus_eqb (a b : LotteryStatus) : bool :=
  match a, b with
  | active, active | completed, completed => true
  | _, _ => false
  end.

Definition DistributionMode_eqb (a b : DistributionMode) : bool :=
  match a, b with
  | CLAIM, CLAIM | AUTO_SEND, AUTO_SEND => true
  | _, _ => false
  end.

(** ** Tables *)

(** A row of [prize_warehouse]. *)
Record prize_row : Type := mk_prize {
  pw_id : Z;
  warehouse_name : string;
  pw_prize_text : string;
  stock_count : Z;
  order_index : Z;
  pw_created_at : Z
}.

(** A row of [lottery_config]. *)
Record lottery_row : Type := mk_lottery {
  lc_id : Z;
  chat_id : string;
  title : string;
  keyword : string;
  max_participants : Z;
  winner_count : Z;
  mode : LotteryMode;
  distribution_mode : DistributionMode;
  claim_timeout : Z;
  delete_delay : Z;
  require_avatar : bool;
  require_username : bool;
  required_channel : option string;
  lc_prize_warehouse : string;
  allow_bots : bool;
  member_filter : option string;
  auto_draw_time : option Z;
  created_at : Z;
  lc_status : LotteryStatus;
  creator_id : string;
  unique_id : string
}.

(** A row of [lottery_participants]. *)
Record participant_row : Type := mk_participant {
  lp_id : Z;
  lp_lottery_id : Z;
  lp_user_id : string;
  lp_username : option string;
  lp_first_name : option string;
  lp_last_name : option string;
  joined_at : Z
}.

(** A row of [lottery_winners]. *)
Record winner_row : Type := mk_winner {
  lw_id : Z;
  lw_lottery_id : Z;
  lw_user_id : string;
  lw_username : option string;
  lw_first_name : option string;
  lw_last_name : option string;
  prize_id : option Z;
  lw_prize_text : string;
  lw_status : PrizeStatus;
  assigned_at : Z;
  claimed_at : option Z;
  expires_at : option Z
}.

(** The database: the four tables and the AUTOINCREMENT counters. *)
Record DB : Type := mk_db {
  lottery_config : list lottery_row;
  lottery_participants : list participant_row;
  lottery_winners : list winner_row;
  prize_warehouse : list prize_row;
  seq_config : Z;
  seq_participants : Z;
  seq_winners : Z;
  seq_prizes : Z
}.

Definition empty_db : DB := mk_db [] [] [] [] 0 0 0 0.

Definition set_lottery_config (db : DB) (t : list lottery_row) : DB :=
  mk_db t (lottery_participants db) (lottery_winners db) (prize_warehouse db)
        (seq_config db) (seq_participants db) (seq_winners db) (seq_prizes db).

Definition set_lottery_winners (db : DB) (t : list winner_row) : DB :=
  mk_db (lottery_config db) (lottery_participants db) t (prize_warehouse db)
        (seq_config db) (seq_participants db) (seq_winners db) (seq_prizes db).

Definition set_prize_warehouse (db : DB) (t : list prize_row) : DB :=
  mk_db (lottery_config db) (lottery_participants db) (lottery_winners db) t
        (seq_config db) (seq_participants db) (seq_winners db) (seq_prizes db).

(** ** Prize inventory *)

Definition set_stock (p : prize_row) (s : Z) : prize_row :=
  mk_prize (pw_id p) (warehouse_name p) (pw_prize_text p) s
           (order_index p) (pw_created_at p).

(** [WHERE warehouse_name = ? AND stock_count > 0]. *)
Definition in_stock (warehouseName : string) (p : prize_row) : bool :=
  String.eqb (warehouse_name p) warehouseName && (0 <? stock_count p).

(** [ORDER BY order_index LIMIT 1] over rows scanned in rowid order: the
    first row among those of least [order_index]. *)
Fixpoint first_by_order (l : list prize_row) : option prize_row :=
  match l with
  | [] => None
  | p :: t =>
      match first_by_order t with
      | None => Some p
      | Some q => if order_index q <? order_index p then Some q else Some p
      end
  end.

(** [ORDER BY order_index], rows of equal [order_index] kept in rowid
    order. *)
Fixpoint insert_by_order_index (p : prize_row) (l : list prize_row) : list prize_row :=
  match l with
  | [] => [p]
  | q :: t => if order_index p <=? order_index q then p :: q :: t
              else q :: insert_by_order_index p t
  end.

(** [getWarehousePrizes]. *)
Definition getWarehousePrizes (warehouseName : string) (db : DB) : list prize_row :=
  fold_right insert_by_order_index []
             (filter (in_stock warehouseName) (prize_warehouse db)).

(** [getNextAvailablePrize]. *)
Definition getNextAvailablePrize (warehouseName : string) (db : DB) : option prize_row :=
  first_by_order (filter (in_stock warehouseName) (prize_warehouse db)).

(** [WHERE id = ? AND stock_count > 0] of [consumePrize]. *)
Definition consumable (prizeId : Z) (p : prize_row) : bool :=
  (pw_id p =? prizeId) && (0 <? stock_count p).

Definition consume_row (prizeId : Z) (p : prize_row) : prize_row :=
  if consumable prizeId p then set_stock p (stock_count p - 1) else p.

(** [consumePrize]: one UPDATE statement; the result is [changes > 0]. *)
Definition consumePrize (prizeId : Z) (db : DB) : bool * DB :=
  let changes := length (filter (consumable prizeId) (prize_warehouse db)) in
  ((0 <? changes)%nat,
   set_prize_warehouse db (map (consume_row prizeId) (prize_warehouse db))).




(** ** Lottery registry *)

Definition set_lottery_status (l : lottery_row) (s : LotteryStatus) : lottery_row :=
  mk_lottery (lc_id l) (chat_id l) (title l) (keyword l) (max_participants l)
             (winner_count l) (mode l) (distribution_mode l) (claim_timeout l)
             (delete_delay l) (require_avatar l) (require_username l)
             (required_channel l) (lc_prize_warehouse l) (allow_bots l)
             (member_filter l) (auto_draw_time l) (created_at l) s
             (creator_id l) (unique_id l).

(** [ORDER BY created_at DESC LIMIT 1]: the first row among those of
    greatest [created_at]. *)
Fixpoint latest_created (l : list lottery_row) : option lottery_row :=
  match l with
  | [] => None
  | a :: t =>
      match latest_created t with
      | None => Some a
      | Some b => if created_at a <? created_at b then Some b else Some a
      end
  end.

(** [getActiveLottery]. *)
Definition getActiveLottery (chatId : string) (db : DB) : option lottery_row :=
  latest_created
    (filter (fun l => String.eqb (chat_id l) chatId
                      && LotteryStatus_eqb (lc_status l) active)
            (lottery_config db)).

(** [UPDATE lottery_config SET status = 'completed' WHERE id = ?]. *)
Definition mark_completed (lotteryId : Z) (db : DB) : DB :=
  set_lottery_config db
    (map (fun l => if lc_id l =? lotteryId then set_lottery_status l completed else l)
         (lottery_config db)).

(** [x || null] on a nullable string: the empty string is falsy. *)
Definition or_null (x : option string) : option string :=
  match x with
  | Some s => if String.eqb s "" then None else Some s
  | None => None
  end.

(** [x || null] on a nullable number: zero is falsy. *)
Definition or_nullZ (x : option Z) : option Z :=
  match x with
  | Some n => if n =? 0 then None else Some n
  | None => None
  end.

(** The [config] object handed to [createLotteryConfig]. *)
Record config_obj : Type := mk_config {
  c_chat_id : string;
  c_title : string;
  c_keyword : string;
  c_max_participants : Z;
  c_winner_count : Z;
  c_mode : LotteryMode;
  c_distribution_mode : DistributionMode;
  c_claim_timeout : Z;
  c_delete_delay : Z;
  c_require_avatar : bool;
  c_require_username : bool;
  c_required_channel : option string;
  c_allow_bots : bool;
  c_member_filter : option string;
  c_auto_draw_time : option Z;
  c_creator_id : string;
  c_unique_id : string;
  c_prize_warehouse : string
}.

(** [createLotteryConfig]: the INSERT; [status] takes its column default
    ['active']; the result is [lastInsertRowid]. *)
Definition createLotteryConfig (config : config_obj) (now : Z) (db : DB) : Z * DB :=
  let rowid := seq_config db + 1 in
  let row :=
    mk_lottery rowid (c_chat_id config) (c_title config) (c_keyword config)
      (c_max_participants config) (c_winner_count config) (c_mode config)
      (c_distribution_mode config) (c_claim_timeout config)
      (c_delete_delay config)
      (if c_require_avatar config then true else false)
      (if c_require_username config then true else false)
      (or_null (c_required_channel config))
      (if String.eqb (c_prize_warehouse config) "" then "default"
       else c_prize_warehouse config)
      (if c_allow_bots config then true else false)
      (or_null (c_member_filter config))
      (or_nullZ (c_auto_draw_time config))
      now active (c_creator_id config) (c_unique_id config) in
  (rowid,
   mk_db (lottery_config db ++ [row]) (lottery_participants db)
         (lottery_winners db) (prize_warehouse db)
         rowid (seq_participants db) (seq_winners db) (seq_prizes db)).

(** ** Participant ledger *)

(** The [userInfo] object handed to [addParticipantToLottery]. *)
Record participant : Type := mk_user {
  user_id : string;
  username : option string;
  first_name : option string;
  last_name : option string
}.

(** The two errors thrown inside the admission transaction:
    ["Lottery full or not found"] and ["User already participated"]. *)
Inductive AdmissionError : Type :=
| LotteryFullOrNotFound
| UserAlreadyParticipated.

Definition count_participants (lotteryId : Z) (db : DB) : Z :=
  Z.of_nat (length (filter (fun p => lp_lottery_id p =? lotteryId)
                           (lottery_participants db))).

Definition find_lottery (lotteryId : Z) (db : DB) : option lottery_row :=
  find (fun l => lc_id l =? lotteryId) (lottery_config db).

Definition is_participant (lotteryId : Z) (userId : string) (db : DB) : bool :=
  existsb (fun p => (lp_lottery_id p =? lotteryId) && String.eqb (lp_user_id p) userId)
          (lottery_participants db).

Definition insert_participant (lotteryId : Z) (u : participant) (now : Z) (db : DB) : DB :=
  let rowid := seq_participants db + 1 in
  mk_db (lottery_config db)
        (lottery_participants db ++
           [mk_participant rowid lotteryId (user_id u) (or_null (username u))
              (or_null (first_name u)) (or_null (last_name u)) now])
        (lottery_winners db) (prize_warehouse db)
        (seq_config db) rowid (seq_winners db) (seq_prizes db).

(** The body of the transaction of [addParticipantToLottery]: a thrown
    error rolls the transaction back, so the database is returned only on
    success. *)
Definition admission_transaction (lotteryId : Z) (u : participant) (now : Z) (db : DB)
  : AdmissionError + DB :=
  let currentCount := count_participants lotteryId db in
  match find_lottery lotteryId db with
  | None => inl LotteryFullOrNotFound
  | Some lottery =>
      if max_participants lottery <=? currentCount then inl LotteryFullOrNotFound
      else if is_participant lotteryId (user_id u) db then inl UserAlreadyParticipated
      else inr (insert_participant lotteryId u now db)
  end.

(** [addParticipantToLottery]: the [catch] logs the error and returns
    [false]. *)
Definition addParticipantToLottery (lotteryId : Z) (u : participant) (now : Z) (db : DB)
  : bool * DB :=
  match admission_transaction lotteryId u now db with
  | inl _ => (false, db)
  | inr db' => (true, db')
  end.

(** A sequence of admission calls [(lotteryId, userInfo, Date.now())]. *)
Fixpoint join_all (calls : list (Z * participant * Z)) (db : DB) : DB :=
  match calls with
  | [] => db
  | (lid, u, now) :: rest => join_all rest (snd (addParticipantToLottery lid u now db))
  end.

(** [ORDER BY joined_at], rows of equal [joined_at] kept in rowid order. *)
Fixpoint insert_by_joined_at (p : participant_row) (l : list participant_row)
  : list participant_row :=
  match l with
  | [] => [p]
  | q :: t => if joined_at p <=? joined_at q then p :: q :: t
              else q :: insert_by_joined_at p t
  end.

Definition order_by_joined_at (l : list participant_row) : list participant_row :=
  fold_right insert_by_joined_at [] l.

(** [getLotteryParticipants]. *)
Definition getLotteryParticipants (lotteryId : Z) (db : DB) : list participant_row :=
  order_by_joined_at
    (filter (fun p => lp_lottery_id p =? lotteryId) (lottery_participants db)).

(** The user ids enrolled in a lottery, in rowid order. *)
Definition participant_ids (lotteryId : Z) (db : DB) : list string :=
  map lp_user_id (filter (fun p => lp_lottery_id p =? lotteryId) (lottery_participants db)).

(** ** Winner records *)

Definition set_winner_status (w : winner_row) (s : PrizeStatus) : winner_row :=
  mk_winner (lw_id w) (lw_lottery_id w) (lw_user_id w) (lw_username w)
            (lw_first_name w) (lw_last_name w) (prize_id w) (lw_prize_text w)
            s (assigned_at w) (claimed_at w) (expires_at w).

Definition set_winner_status_claimed (w : winner_row) (s : PrizeStatus) (c : option Z)
  : winner_row :=
  mk_winner (lw_id w) (lw_lottery_id w) (lw_user_id w) (lw_username w)
            (lw_first_name w) (lw_last_name w) (prize_id w) (lw_prize_text w)
            s (assigned_at w) c (expires_at w).

(** [WHERE lottery_id = ? AND user_id = ?]. *)
Definition winner_of (lotteryId : Z) (userId : string) (w : winner_row) : bool :=
  (lw_lottery_id w =? lotteryId) && String.eqb (lw_user_id w) userId.

(** [updateWinnerStatusByUser]: [claimedAt || Date.now()] is stored, and the
    result is [changes > 0]. *)
Definition updateWinnerStatusByUser (lotteryId : Z) (userId : string)
    (status : PrizeStatus) (claimedAt : option Z) (now : Z) (db : DB) : bool * DB :=
  let stamp := match or_nullZ claimedAt with Some c => c | None => now end in
  let changes := length (filter (winner_of lotteryId userId) (lottery_winners db)) in
  ((0 <? changes)%nat,
   set_lottery_winners db
     (map (fun w => if winner_of lotteryId userId w
                    then set_winner_status_claimed w status (Some stamp) else w)
          (lottery_winners db))).

(** [WHERE status = 'pending' AND expires_at < ?]; a NULL [expires_at]
    never compares below anything. *)
Definition claim_expired (now : Z) (w : winner_row) : bool :=
  PrizeStatus_eqb (lw_status w) PENDING
  && match expires_at w with Some e => e <? now | None => false end.

(** [expireOldClaims]. *)
Definition expireOldClaims (now : Z) (db : DB) : DB :=
  set_lottery_winners db
    (map (fun w => if claim_expired now w then set_winner_status w EXPIRED else w)
         (lottery_winners db)).

(** [LEFT JOIN lottery_participants p ON w.user_id = p.user_id AND
    w.lottery_id = p.lottery_id]: the selected [p.username], [p.first_name]
    and [p.last_name] take the place of the winner row's own, and are NULL
    when no participant matches. *)
Definition with_participant_names (db : DB) (w : winner_row) : winner_row :=
  let matching :=
    find (fun p => String.eqb (lw_user_id w) (lp_user_id p)
                   && (lw_lottery_id w =? lp_lottery_id p))
         (lottery_participants db) in
  mk_winner (lw_id w) (lw_lottery_id w) (lw_user_id w)
            (match matching with Some p => lp_username p | None => None end)
            (match matching with Some p => lp_first_name p | None => None end)
            (match matching with Some p => lp_last_name p | None => None end)
            (prize_id w) (lw_prize_text w) (lw_status w) (assigned_at w)
            (claimed_at w) (expires_at w).

(** [ORDER BY w.assigned_at], rows of equal [assigned_at] kept in rowid
    order. *)
Fixpoint insert_by_assigned_at (w : winner_row) (l : list winner_row) : list winner_row :=
  match l with
  | [] => [w]
  | v :: t => if assigned_at w <=? assigned_at v then w :: v :: t
              else v :: insert_by_assigned_at w t
  end.

(** [getLotteryWinners]. *)
Definition getLotteryWinners (lotteryId : Z) (db : DB) : list winner_row :=
  fold_right insert_by_assigned_at []
    (map (with_participant_names db)
         (filter (fun w => lw_lottery_id w =? lotteryId) (lottery_winners db))).

(** ** The Telegram client

    The only thing the database depends on is whether a [client.sendMessage]
    resolves or throws; a destination is taken to answer the same way
    throughout one call.  The [msg.edit] progress replies of the command
    handler are taken to go through. *)
Record Client : Type := mk_client {
  direct_message_ok : string -> bool;   (* sendMessage(winner.user_id, ...) *)
  chat_message_ok : string -> bool      (* sendMessage(lottery.chat_id, ...) *)
}.

(** [sendPrizeToWinner]: a failed [sendMessage] is caught and leaves the
    record as it is. *)
Definition sendPrizeToWinner (client : Client) (lottery : lottery_row)
    (winner : participant_row) (now : Z) (db : DB) : bool * DB :=
  if direct_message_ok client (lp_user_id winner) then
    (true,
     set_lottery_winners db
       (map (fun w => if winner_of (lc_id lottery) (lp_user_id winner) w
                      then set_winner_status_claimed w SENT (Some now) else w)
            (lottery_winners db)))
  else (false, db).

(** ** Distribution *)

(** The placeholder prize text of [distributePrizes]. *)
Definition fallback_prize_text : string := "恭喜中奖！".

(** [lottery.prize_warehouse || "default"]. *)
Definition warehouse_of (lottery : lottery_row) : string :=
  if String.eqb (lc_prize_warehouse lottery) "" then "default"
  else lc_prize_warehouse lottery.

Definition insert_winner (lottery : lottery_row) (winner : participant_row)
    (prizeText : string) (now expiresAt : Z) (db : DB) : DB :=
  let rowid := seq_winners db + 1 in
  mk_db (lottery_config db) (lottery_participants db)
        (lottery_winners db ++
           [mk_winner rowid (lc_id lottery) (lp_user_id winner)
              (or_null (lp_username winner)) (or_null (lp_first_name winner))
              (or_null (lp_last_name winner)) None prizeText PENDING now None
              (Some expiresAt)])
        (prize_warehouse db)
        (seq_config db) (seq_participants db) rowid (seq_prizes db).

(** One iteration of the loop inside the transaction of [distributePrizes].
    The table [lottery_winners] has the column [assigned_at] (the start-up
    code and [lottery init] both see to it), so the first INSERT form is the
    one taken and nothing throws. *)
Definition assign_prize (lottery : lottery_row) (now : Z) (db : DB)
    (winner : participant_row) : DB :=
  let prize := getNextAvailablePrize (warehouse_of lottery) db in
  let prizeText :=
    match prize with Some p => pw_prize_text p | None => fallback_prize_text end in
  let expiresAt := now + claim_timeout lottery * 1000 in
  let db1 := insert_winner lottery winner prizeText now expiresAt db in
  match prize with
  | Some p => snd (consumePrize (pw_id p) db1)
  | None => db1
  end.

(** The transaction of [distributePrizes]. *)
Definition distribute_transaction (lottery : lottery_row) (now : Z)
    (winners : list participant_row) (db : DB) : DB :=
  fold_left (assign_prize lottery now) winners db.

(** The loop after the transaction, in auto-send mode. *)
Definition send_one (client : Client) (lottery : lottery_row) (now : Z) (db : DB)
    (winner : participant_row) : DB :=
  if existsb (fun w => String.eqb (lw_user_id w) (lp_user_id winner))
             (getLotteryWinners (lc_id lottery) db)
  then snd (sendPrizeToWinner client lottery winner now db)
  else db.

(** [distributePrizes]. *)
Definition distributePrizes (client : Client) (lottery : lottery_row) (now : Z)
    (winners : list participant_row) (db : DB) : DB :=
  let db1 := distribute_transaction lottery now winners db in
  if DistributionMode_eqb (distribution_mode lottery) AUTO_SEND
  then fold_left (send_one client lottery now) winners db1
  else db1.

(** ** Draw *)

Section Shuffle.
Context {A : Type}.

(** [a[i] = x]; an index past the end is never written by the shuffle. *)
Fixpoint update (l : list A) (i : nat) (x : A) : list A :=
  match l, i with
  | [], _ => []
  | _ :: t, O => x :: t
  | a :: t, S i' => a :: update t i' x
  end.

(** [[a[i], a[j]] = [a[j], a[i]]]. *)
Definition swap (l : list A) (i j : nat) : list A :=
  match nth_error l i, nth_error l j with
  | Some x, Some y => update (update l i y) j x
  | _, _ => l
  end.

(** The loop [for (let i = n - 1; i > 0; i--)]; [random i] stands for the
    value of [Math.random() * (i + 1)] rounded down at that iteration,
    which lies in [0..i]. *)
Fixpoint shuffle_from (random : nat -> nat) (i : nat) (l : list A) : list A :=
  match i with
  | O => l
  | S i' => shuffle_from random i' (swap l i (random i mod (i + 1)))
  end.

Definition fisher_yates (random : nat -> nat) (l : list A) : list A :=
  shuffle_from random (length l - 1) l.

(** [a.slice(0, k)]: a negative [k] counts from the end. *)
Definition slice0 (l : list A) (k : Z) : list A :=
  if k <? 0 then firstn (Z.to_nat (Z.max (Z.of_nat (length l) + k) 0)) l
  else firstn (Z.to_nat k) l.
End Shuffle.

(** What [performLotteryDraw] announced in the chat. *)
Inductive DrawOutcome : Type :=
| NoParticipants      (* the "nobody took part" result message *)
| WinnersAnnounced    (* the result message with the winner list *)
| DrawFailed.         (* the [catch] branch *)

(** [performLotteryDraw].  [lottery] is the row the caller read earlier; the
    body never reads the lottery's status.  A [sendMessage] to the chat that
    throws lands in the [catch], past which the status is not updated; a
    failing [pinMessage] is caught on the spot. *)
Definition performLotteryDraw (client : Client) (random : nat -> nat) (now : Z)
    (lottery : lottery_row) (db : DB) : DrawOutcome * DB :=
  let participants := getLotteryParticipants (lc_id lottery) db in
  if (length participants =? 0)%nat then
    if chat_message_ok client (chat_id lottery)
    then (NoParticipants, mark_completed (lc_id lottery) db)
    else (DrawFailed, db)
  else
    let winnerCount := Z.min (winner_count lottery) (Z.of_nat (length participants)) in
    let shuffled := fisher_yates random participants in
    let winners := slice0 shuffled winnerCount in
    let db1 := distributePrizes client lottery now winners db in
    if chat_message_ok client (chat_id lottery)
    then (WinnersAnnounced, mark_completed (lc_id lottery) db1)
    else (DrawFailed, db1).

(** What the [draw] subcommand did. *)
Inductive DrawCommandResult : Type :=
| NoActiveLottery
| Drew (outcome : DrawOutcome).

(** The [draw] subcommand of [lottery]. *)
Definition lottery_draw (client : Client) (random : nat -> nat) (now : Z)
    (chatId : string) (db : DB) : DrawCommandResult * DB :=
  match getActiveLottery chatId db with
  | None => (NoActiveLottery, db)
  | Some activeLottery =>
      let (outcome, db') := performLotteryDraw client random now activeLottery db in
      (Drew outcome, db')
  end.

(** ** The [create] subcommand *)

(** [SELECT DISTINCT warehouse_name ... ORDER BY warehouse_name]. *)
Fixpoint insert_name (s : string) (l : list string) : list string :=
  match l with
  | [] => [s]
  | t :: r => if String.eqb s t then t :: r
              else if String.ltb s t then s :: t :: r
              else t :: insert_name s r
  end.

(** [getPrizeWarehouses]. *)
Definition getPrizeWarehouses (db : DB) : list string :=
  fold_right insert_name [] (map warehouse_name (prize_warehouse db)).

Section CreateCommand.
(** JavaScript built-ins the command relies on: [parseInt] ([None] is
    [NaN]), [String.prototype.toLowerCase] and [String] on a number. *)
Variable parseInt : string -> option Z.
Variable toLowerCase : string -> string.
Variable String_of : Z -> string.

(** [getWarehouseByNameOrIndex]. *)
Definition getWarehouseByNameOrIndex (identifier : string) (warehouses : list string)
  : option string :=
  let by_name :=
    if existsb (String.eqb identifier) warehouses then Some identifier else None in
  match parseInt identifier with
  | Some index =>
      if (1 <=? index) && (index <=? Z.of_nat (length warehouses))
      then nth_error warehouses (Z.to_nat (index - 1))
      else by_name
  | None => by_name
  end.

(** The replies of the [create] subcommand. *)
Inductive CreateResult : Type :=
| NotInSavedMessages
| Usage
| WarehouseList
| BadNumbers
| UnknownWarehouse
| EmptyWarehouse
| AlreadyActive
| Created (lotteryId : Z).

(** [args[i]], with [""] for a missing argument where the code writes
    [args[i] || ...] or has checked the length. *)
Definition arg (args : list string) (i : nat) : string := nth i args "".

(** The [create] branch of [lottery]; [args] starts with the subcommand
    itself and [senderId] is [String(msg.senderId)]. *)
Definition lottery_create (args : list string) (chatId senderId : string) (now : Z)
    (db : DB) : CreateResult * DB :=
  let isListCommand :=
    (length args =? 1)%nat
    || ((length args =? 2)%nat && String.eqb (toLowerCase (arg args 1)) "list") in
  let isSavedMessages := String.eqb chatId senderId in
  if isSavedMessages && negb isListCommand then (NotInSavedMessages, db)
  else if (length args <? 2)%nat then (Usage, db)
  else if isListCommand then (WarehouseList, db)
  else if (length args <? 5)%nat then (Usage, db)
  else
    let warehouseIdentifier :=
      if String.eqb (arg args 5) "" then "default" else arg args 5 in
    match parseInt (arg args 3), parseInt (arg args 4) with
    | Some maxParticipants, Some winnerCount =>
        if maxParticipants <? winnerCount then (BadNumbers, db)
        else
          match getWarehouseByNameOrIndex warehouseIdentifier (getPrizeWarehouses db) with
          | None => (UnknownWarehouse, db)
          | Some selectedWarehouse =>
              if (length (getWarehousePrizes selectedWarehouse db) =? 0)%nat
              then (EmptyWarehouse, db)
              else
                match getActiveLottery chatId db with
                | Some _ => (AlreadyActive, db)
                | None =>
                    let config :=
                      mk_config chatId (arg args 1) (arg args 2) maxParticipants
                        winnerCount MANUAL AUTO_SEND 86400 5 false false None
                        false None None senderId
                        (chatId ++ "_" ++ String_of now) selectedWarehouse in
                    let (lotteryId, db') := createLotteryConfig config now db in
                    (Created lotteryId, db')
                end
          end
    | _, _ => (BadNumbers, db)
    end.
End CreateCommand.

(** ** Operations on winner records, as a transition system *)

(** The three operations that write [lottery_winners.status] after a draw:
    the automatic send of [distributePrizes], the [claim] subcommand
    ([updateWinnerStatusByUser ... PrizeStatus.SENT]) and the expiry sweep. *)
Inductive WinnerOp : Type :=
| AutomaticSend (client : Client) (lottery : lottery_row) (winner : participant_row) (now : Z)
| MarkClaimed (lotteryId : Z) (userId : string) (now : Z)
| ExpirySweep (now : Z).

Definition run_op (op : WinnerOp) (db : DB) : DB :=
  match op with
  | AutomaticSend client lottery winner now =>
      snd (sendPrizeToWinner client lottery winner now db)
  | MarkClaimed lotteryId userId now =>
      snd (updateWinnerStatusByUser lotteryId userId SENT None now db)
  | ExpirySweep now => expireOldClaims now db
  end.

Definition run_ops (ops : list WinnerOp) (db : DB) : DB :=
  fold_left (fun d op => run_op op d) ops db.

(** The status of the [n]-th row of [lottery_winners]. *)
Definition status_at (n : nat) (db : DB) : option PrizeStatus :=
  option_map lw_status (nth_error (lottery_winners db) n).

(** ** Predicates used in the statements *)

(** The units in stock over the whole table. *)
Definition total_stock (db : DB) : Z :=
  fold_right Z.add 0 (map stock_count (prize_warehouse db)).

(** The status of a lottery, looked up by id. *)
Definition lottery_status (lotteryId : Z) (db : DB) : option LotteryStatus :=
  option_map lc_status (find_lottery lotteryId db).

(** A record the sweep at time [now] must touch. *)
Definition overdue (now : Z) (w : winner_row) : Prop :=
  lw_status w = PENDING /\ exists e, expires_at w = Some e /\ e < now.

(** [w'] agrees with [w] on every column other than [status]. *)
Definition same_but_status (w w' : winner_row) : Prop :=
  lw_id w' = lw_id w
  /\ lw_lottery_id w' = lw_lottery_id w
  /\ lw_user_id w' = lw_user_id w
  /\ lw_username w' = lw_username w
  /\ lw_first_name w' = lw_first_name w
  /\ lw_last_name w' = lw_last_name w
  /\ prize_id w' = prize_id w
  /\ lw_prize_text w' = lw_prize_text w
  /\ assigned_at w' = assigned_at w
  /\ claimed_at w' = claimed_at w
  /\ expires_at w' = expires_at w.

(** What the sweep at time [now] does to one record: an overdue record
    gets status expired and keeps every other column, any other record is
    kept as it is. *)
Definition swept (now : Z) (w w' : winner_row) : Prop :=
  (overdue now w /\ lw_status w' = EXPIRED /\ same_but_status w w')
  \/ (~ overdue now w /\ w' = w).

(** [q'] agrees with [q] on every column other than [stock_count]. *)
Definition same_but_stock (q q' : prize_row) : Prop :=
  pw_id q' = pw_id q
  /\ warehouse_name q' = warehouse_name q
  /\ pw_prize_text q' = pw_prize_text q
  /\ order_index q' = order_index q
  /\ pw_created_at q' = pw_created_at q.

(** What taking one unit of the prize [prizeId] does to one row. *)
Definition one_unit_taken (prizeId : Z) (q q' : prize_row) : Prop :=
  same_but_stock q q'
  /\ ((pw_id q = prizeId /\ 0 < stock_count q /\ stock_count q' = stock_count q - 1)
      \/ (~ (pw_id q = prizeId /\ 0 < stock_count q) /\ stock_count q' = stock_count q)).

(** [p] is an item of the warehouse that is in stock and has the least
    [order_index] among those. *)
Definition next_in_order (warehouseName : string) (table : list prize_row)
    (p : prize_row) : Prop :=
  In p table /\ warehouse_name p = warehouseName /\ 0 < stock_count p
  /\ forall q, In q table -> warehouse_name q = warehouseName -> 0 < stock_count q ->
               order_index p <= order_index q.

(** No item of the warehouse is in stock. *)
Definition out_of_stock (warehouseName : string) (table : list prize_row) : Prop :=
  forall q, In q table -> warehouse_name q = warehouseName -> stock_count q <= 0.

(** The record a distribution pass at time [now] leaves for [winner]: a
    record of this lottery and this user, stamped [now], expiring after the
    claim timeout, sent when the mode is auto-send and the direct message
    went through, pending otherwise. *)
Definition record_of_pass (client : Client) (lottery : lottery_row) (now : Z)
    (winner : participant_row) (r : winner_row) : Prop :=
  lw_lottery_id r = lc_id lottery
  /\ lw_user_id r = lp_user_id winner
  /\ assigned_at r = now
  /\ expires_at r = Some (now + claim_timeout lottery * 1000)
  /\ ((distribution_mode lottery = AUTO_SEND
       /\ direct_message_ok client (lp_user_id winner) = true
       /\ lw_status r = SENT /\ claimed_at r = Some now)
      \/ ((distribution_mode lottery = CLAIM
           \/ direct_message_ok client (lp_user_id winner) = false)
          /\ lw_status r = PENDING /\ claimed_at r = None)).

(** What one turn of the send loop does to one record. *)
Definition sent_row (client : Client) (lottery : lottery_row) (now : Z)
    (winner : participant_row) (r : winner_row) : winner_row :=
  if winner_of (lc_id lottery) (lp_user_id winner) r
     && direct_message_ok client (lp_user_id winner)
  then set_winner_status_claimed r SENT (Some now) else r.

(** What the whole send loop does to one record. *)
Definition sent_rows (client : Client) (lottery : lottery_row) (now : Z)
    (winners : list participant_row) (r : winner_row) : winner_row :=
  fold_left (fun r' winner => sent_row client lottery now winner r') winners r.

(** The status changes the three operations can make to a record. *)
Definition status_step (s s' : PrizeStatus) : Prop :=
  s' = s
  \/ (s = PENDING /\ (s' = SENT \/ s' = EXPIRED))
  \/ (s = EXPIRED /\ s' = SENT).

(** The chat has no active lottery other than [lotteryId]. *)
Definition only_active (chatId : string) (lotteryId : Z) (db : DB) : Prop :=
  forall l, In l (lottery_config db) -> chat_id l = chatId ->
            lc_status l = active -> lc_id l = lotteryId.

(** The rows a call appended to [lottery_winners]. *)
Definition new_winners (before after : DB) : list winner_row :=
  skipn (length (lottery_winners before)) (lottery_winners after).

(** [parseInt] on plain digit strings, [NaN] on everything else; enough to
    run the commands on examples. *)
Fixpoint digits_value (acc : Z) (s : string) : option Z :=
  match s with
  | EmptyString => Some acc
  | String c r =>
      let n := Z.of_nat (Ascii.nat_of_ascii c) in
      if (48 <=? n) && (n <=? 57) then digits_value (10 * acc + (n - 48)) r else None
  end.

Definition parseInt_digits (s : string) : option Z :=
  match s with
  | EmptyString => None
  | _ => digits_value 0 s
  end.

(** ** Example data *)

Definition alice : participant := mk_user "1001" (Some "alice") None None.
Definition bob : participant := mk_user "1002" None (Some "Bob") None.
Definition carol : participant := mk_user "1003" (Some "carol") None None.

Definition example_lottery (maxParticipants winnerCount : Z) (m : DistributionMode)
  : lottery_row :=
  mk_lottery 1 "-100" "T" "join" maxParticipants winnerCount MANUAL m 3600 5
             false false None "w1" false None None 0 active "42" "-100_0".

Definition example_item (stock : Z) : prize_row := mk_prize 1 "w1" "gift card" stock 1 0.

Definition example_db (maxParticipants winnerCount : Z) (m : DistributionMode) (stock : Z)
  : DB :=
  mk_db [example_lottery maxParticipants winnerCount m] [] [] [example_item stock]
        1 0 0 1.

Definition reliable_client : Client := mk_client (fun _ => true) (fun _ => true).

(** ** Text escaping *)

From Stdlib Require Import Ascii.

(** [text.replace(/c/g, r)] for a one-character pattern.  The five patterns
    of [htmlEscape] are ASCII, so matching them byte by byte in the UTF-8
    text finds the same places as matching them in the UTF-16 text. *)
Fixpoint replace_char (c : Ascii.ascii) (r : string) (s : string) : string :=
  match s with
  | EmptyString => EmptyString
  | String a t => if Ascii.eqb a c then (r ++ replace_char c r t)%string
                  else String a (replace_char c r t)
  end.

(** The double quote character. *)
Definition dquote : Ascii.ascii := Ascii.ascii_of_nat 34.

(** [htmlEscape]. *)
Definition htmlEscape (text : string) : string :=
  replace_char "'"%char "&#x27;"
    (replace_char dquote "&quot;"
       (replace_char ">"%char "&gt;"
          (replace_char "<"%char "&lt;"
             (replace_char "&"%char "&amp;" text)))).

(** What [htmlEscape] makes of one character. *)
Definition escape_char (c : Ascii.ascii) : string :=
  if Ascii.eqb c "&"%char then "&amp;"
  else if Ascii.eqb c "<"%char then "&lt;"
  else if Ascii.eqb c ">"%char then "&gt;"
  else if Ascii.eqb c dquote then "&quot;"
  else if Ascii.eqb c "'"%char then "&#x27;"
  else String c EmptyString.

(** The characters [htmlEscape] replaces. *)
Definition markup_char (c : Ascii.ascii) : bool :=
  Ascii.eqb c "&"%char || Ascii.eqb c "<"%char || Ascii.eqb c ">"%char
  || Ascii.eqb c dquote || Ascii.eqb c "'"%char.

(** ** Prize warehouses: management *)

Definition insert_prize (name text : string) (stock order now : Z) (db : DB) : DB :=
  let rowid := seq_prizes db + 1 in
  mk_db (lottery_config db) (lottery_participants db) (lottery_winners db)
        (prize_warehouse db ++ [mk_prize rowid name text stock order now])
        (seq_config db) (seq_participants db) (seq_winners db) rowid.


(** [SELECT COALESCE(MAX(order_index), 0) + 1 ... WHERE warehouse_name = ?]
    followed by [|| 1]. *)
Definition max_order_index (name : string) (db : DB) : option Z :=
  fold_right
    (fun p acc =>
       if String.eqb (warehouse_name p) name
       then match acc with
            | Some m => Some (Z.max (order_index p) m)
            | None => Some (order_index p)
            end
       else acc)
    None (prize_warehouse db).

Definition next_order_index (name : string) (db : DB) : Z :=
  let next_order := match max_order_index name db with Some m => m | None => 0 end + 1 in
  if next_order =? 0 then 1 else next_order.

(** [addPrizeToWarehouse]: the stock is added to the first row of the
    warehouse that already carries the text, or a row is appended after all
    rows of the warehouse. *)
Definition addPrizeToWarehouse (warehouseName prizeText : string) (stock now : Z)
    (db : DB) : DB :=
  match find (fun p => String.eqb (warehouse_name p) warehouseName
                       && String.eqb (pw_prize_text p) prizeText)
             (prize_warehouse db) with
  | Some existingPrize =>
      set_prize_warehouse db
        (map (fun p => if pw_id p =? pw_id existingPrize
                       then set_stock p (stock_count p + stock) else p)
             (prize_warehouse db))
  | None =>
      insert_prize warehouseName prizeText stock (next_order_index warehouseName db) now db
  end.

(** A row of [getAllWarehousesWithPrizes]. *)
Record warehouse_summary : Type := mk_summary {
  ws_warehouse_name : string;
  prize_count : Z;
  total_stock_of : Z
}.

(** [getAllWarehousesWithPrizes]: [GROUP BY warehouse_name] over the rows
    with [stock_count > 0], [ORDER BY warehouse_name]. *)
Definition getAllWarehousesWithPrizes (db : DB) : list warehouse_summary :=
  let stocked := filter (fun p => 0 <? stock_count p) (prize_warehouse db) in
  map (fun name =>
         let rows := filter (fun p => String.eqb (warehouse_name p) name) stocked in
         mk_summary name (Z.of_nat (length rows))
                    (fold_right Z.add 0 (map stock_count rows)))
      (fold_right insert_name [] (map warehouse_name stocked)).

(** [clearWarehouse]: the result is the number of deleted rows. *)
Definition clearWarehouse (warehouseName : string) (db : DB) : Z * DB :=
  (Z.of_nat (length (filter (fun p => String.eqb (warehouse_name p) warehouseName)
                            (prize_warehouse db))),
   set_prize_warehouse db
     (filter (fun p => negb (String.eqb (warehouse_name p) warehouseName))
             (prize_warehouse db))).

(** [clearAllWarehouses]. *)
Definition clearAllWarehouses (db : DB) : Z * DB :=
  (Z.of_nat (length (prize_warehouse db)), set_prize_warehouse db []).

(** [deleteLotteryActivity]: the three DELETE statements of the
    transaction; nothing in it throws, so the result is [true]. *)
Definition deleteLotteryActivity (lotteryId : Z) (db : DB) : bool * DB :=
  (true,
   mk_db (filter (fun l => negb (lc_id l =? lotteryId)) (lottery_config db))
         (filter (fun p => negb (lp_lottery_id p =? lotteryId)) (lottery_participants db))
         (filter (fun w => negb (lw_lottery_id w =? lotteryId)) (lottery_winners db))
         (prize_warehouse db)
         (seq_config db) (seq_participants db) (seq_winners db) (seq_prizes db)).

(** [updateWinnerStatus]: by row id, [claimedAt || null]. *)
Definition updateWinnerStatus (winnerId : Z) (status : PrizeStatus) (claimedAt : option Z)
    (db : DB) : DB :=
  set_lottery_winners db
    (map (fun w => if lw_id w =? winnerId
                   then set_winner_status_claimed w status (or_nullZ claimedAt) else w)
         (lottery_winners db)).

(** ** Eligibility *)

(** The sender of a message, as far as the lottery reads it. *)
Record Sender : Type := mk_sender {
  sender_id : string;
  sender_bot : bool;
  sender_username : option string;
  sender_firstName : option string;
  sender_lastName : option string
}.

(** What [getEntityWithHash] gives for the avatar test: it throws, or the
    entity has a [photo] field that is empty, or anything else. *)
Inductive AvatarLookup : Type := AvatarLookupThrows | AvatarMissing | AvatarPresent.

(** The entity resolver: [channel_member channel uid] is [true] when
    [getEntity] and [channels.GetParticipant] both resolve to something, and
    [false] when either throws or the participant is empty. *)
Record Resolver : Type := mk_resolver {
  avatar_of : string -> AvatarLookup;
  channel_member : string -> string -> bool
}.

(** The [reason] strings of [validateUserConditions]. *)
Inductive Ineligible : Type :=
| BotsNotAllowed
| AvatarRequired
| UsernameRequired
| ChannelRequired.

(** [validateUserConditions]: [None] is [{ valid: true }].  The channel test
    has its own [try]; an avatar lookup that throws is caught by the outer
    one, which answers valid. *)
Definition validateUserConditions (resolver : Resolver) (user : Sender)
    (lottery : lottery_row) : option Ineligible :=
  if negb (allow_bots lottery) && sender_bot user then Some BotsNotAllowed
  else
    let avatar :=
      if require_avatar lottery then avatar_of resolver (sender_id user)
      else AvatarPresent in
    match avatar with
    | AvatarLookupThrows => None
    | AvatarMissing => Some AvatarRequired
    | AvatarPresent =>
        if require_username lottery
           && match or_null (sender_username user) with Some _ => false | None => true end
        then Some UsernameRequired
        else
          match or_null (required_channel lottery) with
          | Some channel =>
              if channel_member resolver channel (sender_id user) then None
              else Some ChannelRequired
          | None => None
          end
    end.

(** ** The join listener *)

(** What [handleEnhancedLotteryJoin] sees of a message: [msg.message], the
    presence of [msg.senderId] and [msg.client], the chat id the handler
    computes from [msg.chat.id], [msg.peerId] or [msg.chatId] ([None] when
    all three are missing), and what [msg.getSender()] resolves to. *)
Record JoinMessage : Type := mk_join {
  jm_message : string;
  jm_has_sender_id : bool;
  jm_has_client : bool;
  jm_chat_id : option string;
  jm_sender : option Sender
}.

(** What the listener did with the message. *)
Inductive JoinOutcome : Type :=
| NotForLottery                    (* one of the silent early returns *)
| AlreadyJoined                    (* the "already taking part" reply *)
| NotEligible                      (* the message is deleted without a reply *)
| NotAdded                         (* [addParticipantToLottery] gave [false] *)
| Joined (currentCount : Z) (draw : option DrawOutcome).

Section JoinListener.
(** [String.prototype.trim]. *)
Variable trim : string -> string.

(** [handleEnhancedLotteryJoin].  The replies and deletions are wrapped in
    [try/catch] and do not touch the database. *)
Definition handleEnhancedLotteryJoin (client : Client) (resolver : Resolver)
    (random : nat -> nat) (now : Z) (msg : JoinMessage) (db : DB) : JoinOutcome * DB :=
  if String.eqb (jm_message msg) "" || negb (jm_has_sender_id msg)
     || negb (jm_has_client msg)
  then (NotForLottery, db)
  else
    match jm_chat_id msg with
    | None => (NotForLottery, db)
    | Some chatId =>
        match getActiveLottery chatId db with
        | None => (NotForLottery, db)
        | Some activeLottery =>
            if negb (String.eqb (trim (jm_message msg)) (keyword activeLottery))
            then (NotForLottery, db)
            else
              match jm_sender msg with
              | None => (NotForLottery, db)
              | Some sender =>
                  if sender_bot sender then (NotForLottery, db)
                  else if existsb (fun p => String.eqb (lp_user_id p) (sender_id sender))
                                  (getLotteryParticipants (lc_id activeLottery) db)
                  then (AlreadyJoined, db)
                  else
                    match validateUserConditions resolver sender activeLottery with
                    | Some _ => (NotEligible, db)
                    | None =>
                        let userInfo :=
                          mk_user (sender_id sender) (or_null (sender_username sender))
                                  (or_null (sender_firstName sender))
                                  (or_null (sender_lastName sender)) in
                        let (added, db1) :=
                          addParticipantToLottery (lc_id activeLottery) userInfo now db in
                        if negb added then (NotAdded, db1)
                        else
                          let currentCount :=
                            Z.of_nat (length (getLotteryParticipants
                                                (lc_id activeLottery) db1)) in
                          if max_participants activeLottery <=? currentCount
                          then
                            let (outcome, db2) :=
                              performLotteryDraw client random now activeLottery db1 in
                            (Joined currentCount (Some outcome), db2)
                          else (Joined currentCount None, db1)
                    end
              end
        end
    end.

(** A run of the listener over a stream of messages, each with its clock
    reading and its random choices. *)
Fixpoint handle_joins (client : Client) (resolver : Resolver)
    (msgs : list (JoinMessage * Z * (nat -> nat))) (db : DB) : DB :=
  match msgs with
  | [] => db
  | (msg, now, random) :: rest =>
      handle_joins client resolver rest
        (snd (handleEnhancedLotteryJoin client resolver random now msg db))
  end.
End JoinListener.

(** ** The other subcommands of [lottery] *)

(** The replies of the [delete] / [cancel] subcommand. *)
Inductive DeleteResult : Type :=
| DeleteNoActiveLottery
| DeleteNotCreator
| Deleted
| DeleteFailed.

(** The [delete] branch of [lottery]; [senderId] is [String(msg.senderId)]. *)
Definition lottery_delete (chatId senderId : string) (db : DB) : DeleteResult * DB :=
  match getActiveLottery chatId db with
  | None => (DeleteNoActiveLottery, db)
  | Some activeLottery =>
      if negb (String.eqb senderId (creator_id activeLottery))
      then (DeleteNotCreator, db)
      else
        let (success, db') := deleteLotteryActivity (lc_id activeLottery) db in
        if success then (Deleted, db') else (DeleteFailed, db')
  end.

(** The replies of the [claim] subcommand. *)
Inductive ClaimResult : Type :=
| ClaimUsage
| ClaimNoActiveLottery
| ClaimUnknownUsername
| ClaimMarked
| ClaimNotFound.

(** [s.startsWith("@")] and [s.substring(1)]. *)
Definition starts_with_at (s : string) : bool :=
  match s with
  | String c _ => Ascii.eqb c "@"%char
  | EmptyString => false
  end.

Definition substring1 (s : string) : string :=
  match s with
  | String _ r => r
  | EmptyString => EmptyString
  end.

(** The [claim] branch of [lottery]: [args] starts with the subcommand. *)
Definition lottery_claim (args : list string) (chatId : string) (now : Z) (db : DB)
  : ClaimResult * DB :=
  if (length args <? 2)%nat then (ClaimUsage, db)
  else
    match getActiveLottery chatId db with
    | None => (ClaimNoActiveLottery, db)
    | Some activeLottery =>
        let mark targetUserId :=
          let (success, db') :=
            updateWinnerStatusByUser (lc_id activeLottery) targetUserId SENT None now db in
          if success then (ClaimMarked, db') else (ClaimNotFound, db') in
        if starts_with_at (nth 1 args "")
        then
          let name := substring1 (nth 1 args "") in
          match find (fun w => match lw_username w with
                               | Some u => String.eqb u name
                               | None => false
                               end)
                     (getLotteryWinners (lc_id activeLottery) db) with
          | None => (ClaimUnknownUsername, db)
          | Some winner => mark (lw_user_id winner)
          end
        else mark (nth 1 args "")
    end.

(** The [expire] branch of [lottery]: the sweep runs only when the chat has
    an active lottery, and then over the whole table. *)
Definition lottery_expire (chatId : string) (now : Z) (db : DB) : bool * DB :=
  match getActiveLottery chatId db with
  | None => (false, db)
  | Some _ => (true, expireOldClaims now db)
  end.

(** The [winners] branch of [lottery]: the list shown is the one read before
    the sweep. *)
Definition lottery_winners_command (chatId : string) (now : Z) (db : DB)
  : option (list winner_row) * DB :=
  match getActiveLottery chatId db with
  | None => (None, db)
  | Some activeLottery =>
      let winners := getLotteryWinners (lc_id activeLottery) db in
      if (length winners =? 0)%nat then (Some [], db)
      else (Some winners, expireOldClaims now db)
  end.

(** The [init] branch of [lottery]: [DROP TABLE IF EXISTS lottery_winners]
    and a fresh [CREATE TABLE], which also forgets the AUTOINCREMENT
    counter. *)
Definition lottery_init (db : DB) : DB :=
  mk_db (lottery_config db) (lottery_participants db) [] (prize_warehouse db)
        (seq_config db) (seq_participants db) 0 (seq_prizes db).

(** ** Example data for the listener *)

(** A lottery that asks for an avatar, a user name and a channel, and lets
    bots in. *)
Definition strict_lottery : lottery_row :=
  mk_lottery 1 "-100" "T" "join" 2 1 MANUAL CLAIM 3600 5
             true true (Some "@news") "w1" true None None 0 active "42" "-100_0".

Definition strict_db : DB := mk_db [strict_lottery] [] [] [example_item 5] 1 0 0 1.

(** A resolver every lookup of which throws. *)
Definition unreachable_resolver : Resolver :=
  mk_resolver (fun _ => AvatarLookupThrows) (fun _ _ => false).

(** A resolver that finds an avatar and a membership for everybody. *)
Definition obliging_resolver : Resolver :=
  mk_resolver (fun _ => AvatarPresent) (fun _ _ => true).

Definition anonymous : Sender := mk_sender "1009" false None None None.
Definition dave : Sender := mk_sender "1004" false (Some "dave") None None.
Definition erin : Sender := mk_sender "1005" false (Some "erin") None None.
Definition robot : Sender := mk_sender "1010" true (Some "robot") None None.

Definition join_from (s : Sender) (text : string) : JoinMessage :=
  mk_join text true true (Some "-100") (Some s).

(** A [trim] for texts without surrounding white space. *)
Definition no_trim (s : string) : string := s.

(** ** Predicates used in the statements about the subcommands *)

(** No chat has two active lotteries. *)
Definition one_active_per_chat (db : DB) : Prop :=
  forall l1 l2, In l1 (lottery_config db) -> In l2 (lottery_config db) ->
                lc_status l1 = active -> lc_status l2 = active ->
                chat_id l1 = chat_id l2 -> l1 = l2.

(** What marking the records of [(lotteryId, userId)] as sent at [now] does
    to one row: a record of that pair gets status sent and [claimed_at]
    [now] and keeps its other columns; any other row is kept as it is. *)
Definition marked_sent (lotteryId : Z) (userId : string) (now : Z) (w w' : winner_row)
  : Prop :=
  (lw_lottery_id w = lotteryId /\ lw_user_id w = userId
   /\ lw_status w' = SENT /\ claimed_at w' = Some now
   /\ lw_id w' = lw_id w /\ lw_lottery_id w' = lw_lottery_id w
   /\ lw_user_id w' = lw_user_id w /\ lw_username w' = lw_username w
   /\ lw_first_name w' = lw_first_name w /\ lw_last_name w' = lw_last_name w
   /\ prize_id w' = prize_id w /\ lw_prize_text w' = lw_prize_text w
   /\ assigned_at w' = assigned_at w /\ expires_at w' = expires_at w)
  \/ (~ (lw_lottery_id w = lotteryId /\ lw_user_id w = userId) /\ w' = w).

(** ** The forwarding plugin: rules and their cache *)

(** A forwarding rule.  The table stores [options] and [filters] as JSON
    and [paused] as 0 or 1; reading a row gives back what was written. *)
Record ShiftRule : Type := mk_rule {
  target_id : Z;
  options : list string;
  target_type : string;
  paused : bool;
  rule_created_at : string;
  filters : list string
}.

(** The table [shift_rules], keyed by its primary key [source_id], and the
    map [ruleCache] from a source id to a rule (or [null]) and the time it
    was cached. *)
Record ShiftState : Type := mk_shift {
  shift_rules : Z -> option ShiftRule;
  ruleCache : Z -> option (option ShiftRule * Z)
}.

Definition RULE_CACHE_TTL : Z := 5 * 60 * 1000.

Definition set_key {V : Type} (m : Z -> option V) (k : Z) (v : option V) : Z -> option V :=
  fun k' => if k' =? k then v else m k'.

(** [getShiftRule]: a cache entry younger than the TTL is returned;
    otherwise the table is read and the result cached. *)
Definition getShiftRule (now : Z) (sourceId : Z) (st : ShiftState)
  : option ShiftRule * ShiftState :=
  let read :=
    let row := shift_rules st sourceId in
    (row, mk_shift (shift_rules st) (set_key (ruleCache st) sourceId (Some (row, now)))) in
  match ruleCache st sourceId with
  | Some (rule, timestamp) =>
      if now - timestamp <? RULE_CACHE_TTL then (rule, st) else read
  | None => read
  end.

(** [saveShiftRule]: [INSERT OR REPLACE], then the cache entry is set. *)
Definition saveShiftRule (now : Z) (sourceId : Z) (rule : ShiftRule) (st : ShiftState)
  : bool * ShiftState :=
  (true, mk_shift (set_key (shift_rules st) sourceId (Some rule))
                  (set_key (ruleCache st) sourceId (Some (Some rule, now)))).

(** [deleteShiftRule]: [DELETE], then the cache entry is dropped. *)
Definition deleteShiftRule (sourceId : Z) (st : ShiftState) : bool * ShiftState :=
  (true, mk_shift (set_key (shift_rules st) sourceId None)
                  (set_key (ruleCache st) sourceId None)).

(** Every cache entry agrees with the table. *)
Definition cache_coherent (st : ShiftState) : Prop :=
  forall id rule timestamp,
    ruleCache st id = Some (rule, timestamp) -> rule = shift_rules st id.

(** The operations of the plugin on the rules. *)
Inductive RuleOp : Type :=
| GetRule (now : Z) (sourceId : Z)
| SaveRule (now : Z) (sourceId : Z) (rule : ShiftRule)
| DeleteRule (sourceId : Z).

Definition run_rule_op (op : RuleOp) (st : ShiftState) : ShiftState :=
  match op with
  | GetRule now sourceId => snd (getShiftRule now sourceId st)
  | SaveRule now sourceId rule => snd (saveShiftRule now sourceId rule st)
  | DeleteRule sourceId => snd (deleteShiftRule sourceId st)
  end.

Definition run_rule_ops (ops : list RuleOp) (st : ShiftState) : ShiftState :=
  fold_left (fun s op => run_rule_op op s) ops st.

(** The state of a fresh process: the cache is empty. *)
Definition fresh_process (rules : Z -> option ShiftRule) : ShiftState :=
  mk_shift rules (fun _ => None).

(** ** The forwarding plugin: loops *)

(** The answers of [isCircularForward]; the two circular ones carry what
    the message names. *)
Inductive CircularCheck : Type :=
| NotCircular
| SelfForward
| IndirectCycle (currentId : Z).

(** The [for] loop of [isCircularForward], [remaining] iterations from the
    [i]-th on; [clock i] is the time of the [i]-th [getShiftRule]. *)
Fixpoint circular_loop (clock : nat -> Z) (remaining i : nat) (visited : list Z)
    (currentId : Z) (st : ShiftState) : CircularCheck * ShiftState :=
  match remaining with
  | O => (NotCircular, st)
  | S k =>
      if existsb (Z.eqb currentId) visited then (IndirectCycle currentId, st)
      else
        let (rule, st') := getShiftRule (clock i) currentId st in
        match rule with
        | None => (NotCircular, st')
        | Some r =>
            let nextId := target_id r in
            if nextId =? -1 then (NotCircular, st')
            else circular_loop clock k (S i) (currentId :: visited) nextId st'
        end
  end.

(** [isCircularForward]. *)
Definition isCircularForward (clock : nat -> Z) (sourceId targetId : Z) (st : ShiftState)
  : CircularCheck * ShiftState :=
  if sourceId =? targetId then (SelfForward, st)
  else circular_loop clock 20 0 [sourceId] targetId st.

(** One hop along the rules, as [isCircularForward] follows them. *)
Definition hop (rules : Z -> option ShiftRule) (id : Z) : option Z :=
  match rules id with
  | Some r => if target_id r =? -1 then None else Some (target_id r)
  | None => None
  end.

(** The chat reached from [id] after [n] hops. *)
Fixpoint follow (rules : Z -> option ShiftRule) (n : nat) (id : Z) : option Z :=
  match n with
  | O => Some id
  | S n' => match follow rules n' id with
            | Some c => hop rules c
            | None => None
            end
  end.

(** What [shiftForwardMessage] did: the forwards that went through, in
    order, and whether it ended by throwing. *)
Record Forwarding : Type := mk_forwarding {
  forwards : list (Z * Z);
  threw : bool
}.

(** [shiftForwardMessage]: [forward_ok from to] tells whether
    [safeForwardMessage] resolves; an error is rethrown through every
    level.  [depth] grows by one per level and the body returns at once
    past 5, so [fuel] levels are enough as soon as [fuel + depth > 5]. *)
Fixpoint forward_levels (fuel : nat) (clock : Z -> Z) (forward_ok : Z -> Z -> bool)
    (fromChatId toChatId : Z) (depth : Z) (st : ShiftState) : Forwarding * ShiftState :=
  match fuel with
  | O => (mk_forwarding [] false, st)
  | S fuel' =>
      if 5 <? depth then (mk_forwarding [] false, st)
      else if negb (forward_ok fromChatId toChatId) then (mk_forwarding [] true, st)
      else
        let (nextRule, st') := getShiftRule (clock depth) toChatId st in
        let stop := (mk_forwarding [(fromChatId, toChatId)] false, st') in
        match nextRule with
        | Some r =>
            if negb (paused r) && negb (target_id r =? 0)
            then
              let (rest, st'') :=
                forward_levels fuel' clock forward_ok toChatId (target_id r) (depth + 1) st' in
              (mk_forwarding ((fromChatId, toChatId) :: forwards rest) (threw rest), st'')
            else stop
        | None => stop
        end
  end.

Definition shiftForwardMessage (clock : Z -> Z) (forward_ok : Z -> Z -> bool)
    (fromChatId toChatId : Z) (depth : Z) (st : ShiftState) : Forwarding * ShiftState :=
  forward_levels (Z.to_nat (6 - depth)) clock forward_ok fromChatId toChatId depth st.

(** Consecutive forwards are chained by rules that are not paused. *)
Fixpoint chained (rules : Z -> option ShiftRule) (l : list (Z * Z)) : Prop :=
  match l with
  | (a, b) :: (((b', c) :: _) as rest) =>
      b' = b
      /\ (exists r, rules b = Some r /\ paused r = false /\ target_id r = c)
      /\ chained rules rest
  | _ => True
  end.

(** Example rules: two chats forwarding to each other. *)
Definition ping_pong : Z -> option ShiftRule :=
  fun id => if id =? 1 then Some (mk_rule 2 [] "chat" false "" [])
            else if id =? 2 then Some (mk_rule 1 [] "chat" false "" [])
            else None.
(** * Prize inventory: [consumePrize] *)

Lemma consumable_iff (prizeId : Z) (p : prize_row) :
  consumable prizeId p = true <-> pw_id p = prizeId /\ 0 < stock_count p.
Proof.
  unfold consumable. rewrite andb_true_iff, Z.eqb_eq, Z.ltb_lt. tauto.
Qed.



Lemma consume_none_id (prizeId : Z) (t : list prize_row) :
  filter (consumable prizeId) t = [] -> map (consume_row prizeId) t = t.
Proof.
  induction t as [|p t IH]; simpl; [reflexivity|].
  unfold consume_row at 1.
  destruct (consumable prizeId p); [discriminate|].
  intro H. f_equal. auto.
Qed.






Lemma Forall2_map_r {A B : Type} (R : A -> B -> Prop) (f : A -> B) (l : list A) :
  (forall a, R a (f a)) -> Forall2 R l (map f l).
Proof. intro H. induction l; simpl; constructor; auto. Qed.



(** * Participant ledger: [addParticipantToLottery] *)

Lemma admission_result (lotteryId : Z) (u : participant) (now : Z) (db : DB) :
  (exists e, admission_transaction lotteryId u now db = inl e
             /\ addParticipantToLottery lotteryId u now db = (false, db))
  \/ (admission_transaction lotteryId u now db = inr (insert_participant lotteryId u now db)
      /\ addParticipantToLottery lotteryId u now db
         = (true, insert_participant lotteryId u now db)
      /\ is_participant lotteryId (user_id u) db = false
      /\ exists l, find_lottery lotteryId db = Some l
                   /\ count_participants lotteryId db < max_participants l).
Proof.
  unfold addParticipantToLottery, admission_transaction.
  destruct (find_lottery lotteryId db) as [l|]; [|left; eauto].
  destruct (max_participants l <=? count_participants lotteryId db) eqn:E1;
    [left; eauto|].
  destruct (is_participant lotteryId (user_id u) db) eqn:E2; [left; eauto|].
  right. apply Z.leb_gt in E1. eauto 6.
Qed.

Lemma count_insert (lotteryId lid : Z) (u : participant) (now : Z) (db : DB) :
  count_participants lid (insert_participant lotteryId u now db)
  = count_participants lid db + (if lotteryId =? lid then 1 else 0).
Proof.
  unfold count_participants, insert_participant. simpl.
  rewrite filter_app, length_app. simpl.
  destruct (lotteryId =? lid); simpl; lia.
Qed.

Lemma addParticipant_config (lotteryId : Z) (u : participant) (now : Z) (db : DB) :
  lottery_config (snd (addParticipantToLottery lotteryId u now db)) = lottery_config db.
Proof.
  destruct (admission_result lotteryId u now db) as [(e & _ & H)|(_ & H & _)];
    rewrite H; reflexivity.
Qed.

Lemma addParticipant_capacity (lotteryId lid : Z) (u : participant) (now : Z) (db : DB)
    (l : lottery_row) :
  find_lottery lid db = Some l ->
  count_participants lid db <= max_participants l ->
  count_participants lid (snd (addParticipantToLottery lotteryId u now db))
  <= max_participants l.
Proof.
  intros Hl Hc.
  destruct (admission_result lotteryId u now db)
    as [(e & _ & H)|(_ & H & _ & l' & Hl' & Hlt)]; rewrite H; simpl; [assumption|].
  rewrite count_insert. destruct (lotteryId =? lid) eqn:E; [|lia].
  apply Z.eqb_eq in E. subst lid. rewrite Hl in Hl'. injection Hl' as ->. lia.
Qed.

Lemma join_all_capacity (calls : list (Z * participant * Z)) :
  forall (db : DB) (lid : Z) (l : lottery_row),
    find_lottery lid db = Some l ->
    count_participants lid db <= max_participants l ->
    find_lottery lid (join_all calls db) = Some l
    /\ count_participants lid (join_all calls db) <= max_participants l.
Proof.
  induction calls as [|[[lotteryId u] now] calls IH]; intros db lid l Hl Hc; simpl;
    [split; assumption|].
  apply IH.
  - unfold find_lottery. rewrite addParticipant_config. exact Hl.
  - apply addParticipant_capacity; assumption.
Qed.

(** C3.  An admission that finds the lottery at or over its capacity throws
    the "full" error, returns [false] and leaves the database as it was; so
    a lottery that is within its capacity stays within it through every
    sequence of admission calls. *)
Theorem admission_capacity_invariant (calls : list (Z * participant * Z))
    (db : DB) (lid : Z) (l : lottery_row) (u : participant) (now : Z) :
  find_lottery lid db = Some l ->
  (max_participants l <= count_participants lid db ->
     admission_transaction lid u now db = inl LotteryFullOrNotFound
     /\ addParticipantToLottery lid u now db = (false, db))
  /\ (count_participants lid db <= max_participants l ->
      count_participants lid (join_all calls db) <= max_participants l).
Proof.
  intro Hl. split.
  - intro Hfull. unfold addParticipantToLottery, admission_transaction.
    rewrite Hl. apply Z.leb_le in Hfull. rewrite Hfull. split; reflexivity.
  - intro Hc. apply (join_all_capacity calls db lid l Hl Hc).
Qed.

Lemma admission_capacity_invariant_witness :
  let db := join_all [(1, alice, 10); (1, bob, 11)] (example_db 2 1 CLAIM 1) in
  count_participants 1 db = 2
  /\ addParticipantToLottery 1 carol 12 db = (false, db)
  /\ count_participants 1 (join_all [(1, carol, 12); (1, alice, 13)] db) <= 2.
Proof.
  set (db := join_all [(1, alice, 10); (1, bob, 11)] (example_db 2 1 CLAIM 1)).
  assert (Hl : find_lottery 1 db = Some (example_lottery 2 1 CLAIM)) by reflexivity.
  assert (Hc : count_participants 1 db = 2) by reflexivity.
  pose proof (admission_capacity_invariant
                [(1, carol, 12); (1, alice, 13)] db 1 _ carol 12 Hl) as [Hfull Hinv].
  split; [exact Hc|]. split.
  - apply Hfull. rewrite Hc. simpl. lia.
  - apply Hinv. rewrite Hc. simpl. lia.
Defined.

Lemma is_participant_iff (lid : Z) (uid : string) (db : DB) :
  is_participant lid uid db = true <-> In uid (participant_ids lid db).
Proof.
  unfold is_participant, participant_ids. rewrite existsb_exists, in_map_iff.
  split.
  - intros (p & Hin & H). apply andb_true_iff in H. destruct H as [H1 H2].
    apply String.eqb_eq in H2. exists p. split; [assumption|].
    apply filter_In. split; assumption.
  - intros (p & Heq & Hin). apply filter_In in Hin. destruct Hin as [Hin H1].
    exists p. split; [assumption|]. rewrite H1. simpl. apply String.eqb_eq. assumption.
Qed.

Lemma participant_ids_insert (lotteryId lid : Z) (u : participant) (now : Z) (db : DB) :
  participant_ids lid (insert_participant lotteryId u now db)
  = (participant_ids lid db ++ (if lotteryId =? lid then [user_id u] else []))%list.
Proof.
  unfold participant_ids, insert_participant. simpl.
  rewrite filter_app, map_app. simpl.
  destruct (lotteryId =? lid); reflexivity.
Qed.

Lemma NoDup_snoc {A : Type} (l : list A) (x : A) :
  NoDup l -> ~ In x l -> NoDup (l ++ [x])%list.
Proof.
  induction l as [|a l IH]; intros Hnd Hx; simpl.
  - constructor; [intros []|constructor].
  - inversion Hnd as [|? ? Ha Hl]; subst. constructor.
    + rewrite in_app_iff. simpl. intros [H|[H|[]]]; [tauto|].
      subst. apply Hx. left. reflexivity.
    + apply IH; [assumption|]. intro H. apply Hx. right. assumption.
Qed.

Lemma addParticipant_keeps (lotteryId lid : Z) (u : participant) (uid : string)
    (now : Z) (db : DB) :
  is_participant lid uid db = true ->
  is_participant lid uid (snd (addParticipantToLottery lotteryId u now db)) = true.
Proof.
  intro H.
  destruct (admission_result lotteryId u now db) as [(e & _ & R)|(_ & R & _)];
    rewrite R; simpl; [assumption|].
  apply is_participant_iff. rewrite participant_ids_insert.
  apply in_or_app. left. apply is_participant_iff. assumption.
Qed.

Lemma join_all_keeps (calls : list (Z * participant * Z)) :
  forall (db : DB) (lid : Z) (uid : string),
    is_participant lid uid db = true ->
    is_participant lid uid (join_all calls db) = true.
Proof.
  induction calls as [|[[lotteryId u] now] calls IH]; intros db lid uid H; simpl;
    [assumption|].
  apply IH, addParticipant_keeps, H.
Qed.

Lemma addParticipant_joins (lid : Z) (u : participant) (now : Z) (db : DB) :
  fst (addParticipantToLottery lid u now db) = true ->
  is_participant lid (user_id u) (snd (addParticipantToLottery lid u now db)) = true.
Proof.
  destruct (admission_result lid u now db) as [(e & _ & R)|(_ & R & _)];
    rewrite R; simpl; [discriminate|].
  intros _. apply is_participant_iff. rewrite participant_ids_insert.
  rewrite Z.eqb_refl. apply in_or_app. right. left. reflexivity.
Qed.

Lemma addParticipant_unique (lotteryId lid : Z) (u : participant) (now : Z) (db : DB) :
  NoDup (participant_ids lid db) ->
  NoDup (participant_ids lid (snd (addParticipantToLottery lotteryId u now db))).
Proof.
  intro H.
  destruct (admission_result lotteryId u now db) as [(e & _ & R)|(_ & R & Hnew & _)];
    rewrite R; simpl; [assumption|].
  rewrite participant_ids_insert.
  destruct (lotteryId =? lid) eqn:E; [|rewrite app_nil_r; assumption].
  apply Z.eqb_eq in E. subst lid. apply NoDup_snoc; [assumption|].
  intro Hin. apply is_participant_iff in Hin. congruence.
Qed.

Lemma join_all_unique (calls : list (Z * participant * Z)) :
  forall (db : DB) (lid : Z),
    NoDup (participant_ids lid db) -> NoDup (participant_ids lid (join_all calls db)).
Proof.
  induction calls as [|[[lotteryId u] now] calls IH]; intros db lid H; simpl;
    [assumption|].
  apply IH, addParticipant_unique, H.
Qed.

Lemma rejected_when_present (lid : Z) (u : participant) (now : Z) (db : DB) :
  is_participant lid (user_id u) db = true ->
  addParticipantToLottery lid u now db = (false, db)
  /\ (admission_transaction lid u now db = inl UserAlreadyParticipated
      \/ admission_transaction lid u now db = inl LotteryFullOrNotFound)
  /\ (admission_transaction lid u now db = inl UserAlreadyParticipated <->
      exists l, find_lottery lid db = Some l
                /\ count_participants lid db < max_participants l).
Proof.
  intro H. unfold addParticipantToLottery, admission_transaction.
  destruct (find_lottery lid db) as [l|].
  - destruct (max_participants l <=? count_participants lid db) eqn:E.
    + apply Z.leb_le in E. repeat split; auto.
      * discriminate.
      * intros (l' & Hl & Hlt). injection Hl as <-. lia.
    + apply Z.leb_gt in E. rewrite H. repeat split; auto. eauto.
  - repeat split; auto; [discriminate|]. intros (l' & Hl & _). discriminate.
Qed.

(** C5, as the code has it.  Once a user has joined a lottery, every
    later admission of that user to that lottery returns [false] and leaves
    the database as it was; the error thrown is "already participated"
    exactly when the lottery is still below its capacity, and "full"
    otherwise, the capacity test coming first.  No sequence of admissions
    makes two rows of a lottery share a [user_id]. *)
Theorem repeated_admission_rejected (lid : Z) (u : participant) (now now' : Z)
    (between calls : list (Z * participant * Z)) (db : DB) :
  (fst (addParticipantToLottery lid u now db) = true ->
     let db1 := join_all between (snd (addParticipantToLottery lid u now db)) in
     addParticipantToLottery lid u now' db1 = (false, db1)
     /\ (admission_transaction lid u now' db1 = inl UserAlreadyParticipated
         \/ admission_transaction lid u now' db1 = inl LotteryFullOrNotFound)
     /\ (admission_transaction lid u now' db1 = inl UserAlreadyParticipated <->
         exists l, find_lottery lid db1 = Some l
                   /\ count_participants lid db1 < max_participants l))
  /\ (NoDup (participant_ids lid db) -> NoDup (participant_ids lid (join_all calls db))).
Proof.
  split.
  - intros Hok db1. apply rejected_when_present.
    apply join_all_keeps, addParticipant_joins, Hok.
  - apply join_all_unique.
Qed.

Lemma repeated_admission_rejected_witness :
  let db := example_db 3 1 CLAIM 1 in
  let db1 := join_all [(1, bob, 11)] (snd (addParticipantToLottery 1 alice 10 db)) in
  fst (addParticipantToLottery 1 alice 10 db) = true
  /\ addParticipantToLottery 1 alice 12 db1 = (false, db1)
  /\ admission_transaction 1 alice 12 db1 = inl UserAlreadyParticipated
  /\ NoDup (participant_ids 1 db)
  /\ NoDup (participant_ids 1 (join_all [(1, alice, 10); (1, bob, 11); (1, alice, 12)] db)).
Proof.
  intros db db1.
  assert (Hok : fst (addParticipantToLottery 1 alice 10 db) = true) by reflexivity.
  assert (Hnd : NoDup (participant_ids 1 db)) by constructor.
  pose proof (repeated_admission_rejected 1 alice 10 12 [(1, bob, 11)]
                [(1, alice, 10); (1, bob, 11); (1, alice, 12)] db) as [H1 H2].
  destruct (H1 Hok) as (Ha & _ & _).
  split; [exact Hok|]. split; [exact Ha|]. split; [reflexivity|].
  split; [exact Hnd|]. exact (H2 Hnd).
Defined.

(** C5 as stated fails when the first admission filled the lottery: the
    second admission of the same user is then rejected by the capacity test,
    with the "full" error and not the "already participated" one. *)
Lemma repeated_admission_full_not_duplicate :
  let db := example_db 1 1 CLAIM 1 in
  let db1 := snd (addParticipantToLottery 1 alice 10 db) in
  fst (addParticipantToLottery 1 alice 10 db) = true
  /\ is_participant 1 (user_id alice) db1 = true
  /\ admission_transaction 1 alice 11 db1 = inl LotteryFullOrNotFound
  /\ admission_transaction 1 alice 11 db1 <> inl UserAlreadyParticipated.
Proof.
  repeat split; try reflexivity. discriminate.
Qed.

(** C9, as the code has it.  Whatever error the transaction throws,
    [addParticipantToLottery] returns the bare [false] and leaves the
    database as it was: the reason is logged and not returned. *)
Theorem rejection_returns_false (lid : Z) (u : participant) (now : Z) (db : DB)
    (e : AdmissionError) :
  admission_transaction lid u now db = inl e ->
  addParticipantToLottery lid u now db = (false, db).
Proof.
  intro H. unfold addParticipantToLottery. rewrite H. reflexivity.
Qed.

Lemma rejection_returns_false_witness :
  let db := snd (addParticipantToLottery 1 alice 10 (example_db 2 1 CLAIM 1)) in
  admission_transaction 1 alice 11 db = inl UserAlreadyParticipated
  /\ addParticipantToLottery 1 alice 11 db = (false, db).
Proof.
  intro db.
  assert (H : admission_transaction 1 alice 11 db = inl UserAlreadyParticipated)
    by reflexivity.
  split; [exact H|].
  exact (rejection_returns_false 1 alice 11 db UserAlreadyParticipated H).
Defined.

(** C9 as stated fails: a full lottery and a repeated join are rejected for
    different reasons with the same result, and no two rejected admissions
    ever return different results. *)
Lemma rejections_indistinguishable :
  (let full := snd (addParticipantToLottery 1 alice 10 (example_db 1 1 CLAIM 1)) in
   let joined := snd (addParticipantToLottery 1 alice 10 (example_db 2 1 CLAIM 1)) in
   admission_transaction 1 bob 11 full = inl LotteryFullOrNotFound
   /\ admission_transaction 1 alice 11 joined = inl UserAlreadyParticipated
   /\ fst (addParticipantToLottery 1 bob 11 full)
      = fst (addParticipantToLottery 1 alice 11 joined))
  /\ ~ (exists lid1 u1 now1 db1 e1 lid2 u2 now2 db2 e2,
          admission_transaction lid1 u1 now1 db1 = inl e1
          /\ admission_transaction lid2 u2 now2 db2 = inl e2
          /\ e1 <> e2
          /\ fst (addParticipantToLottery lid1 u1 now1 db1)
             <> fst (addParticipantToLottery lid2 u2 now2 db2)).
Proof.
  split; [repeat split; reflexivity|].
  intros (lid1 & u1 & now1 & db1 & e1 & lid2 & u2 & now2 & db2 & e2 & H1 & H2 & _ & Hd).
  apply Hd. unfold addParticipantToLottery. rewrite H1, H2. reflexivity.
Qed.

(** * Winner records: the expiry sweep and the status transitions *)

Lemma claim_expired_iff (now : Z) (w : winner_row) :
  claim_expired now w = true <-> overdue now w.
Proof.
  unfold claim_expired, overdue. rewrite andb_true_iff. split.
  - intros [Hs He]. split.
    + destruct (lw_status w); simpl in Hs; congruence.
    + destruct (expires_at w) as [e|]; [|discriminate].
      exists e. split; [reflexivity|]. apply Z.ltb_lt. assumption.
  - intros [Hs (e & He & Hlt)]. rewrite Hs, He. split; [reflexivity|].
    apply Z.ltb_lt. assumption.
Qed.

Lemma sweep_row (now : Z) (w : winner_row) :
  swept now w (if claim_expired now w then set_winner_status w EXPIRED else w).
Proof.
  unfold swept. destruct (claim_expired now w) eqn:E.
  - left. split; [apply claim_expired_iff; assumption|].
    split; [reflexivity|]. unfold same_but_status. simpl. tauto.
  - right. split; [|reflexivity]. intro H. apply claim_expired_iff in H. congruence.
Qed.

(** C8.  The sweep rewrites [lottery_winners] row by row and writes no other
    table: a row that is pending with [expires_at] strictly before [now]
    comes out with status expired and every other column as it was; every
    other row, in particular a sent row, an expired row and a pending row
    whose [expires_at] is not yet past or is NULL, comes out identical. *)
Theorem expireOldClaims_frame (now : Z) (db : DB) :
  Forall2 (swept now) (lottery_winners db) (lottery_winners (expireOldClaims now db))
  /\ (lottery_config (expireOldClaims now db) = lottery_config db
      /\ lottery_participants (expireOldClaims now db) = lottery_participants db
      /\ prize_warehouse (expireOldClaims now db) = prize_warehouse db)
  /\ (forall n w, nth_error (lottery_winners db) n = Some w ->
        (lw_status w = SENT \/ lw_status w = EXPIRED
         \/ (exists e, expires_at w = Some e /\ now <= e) \/ expires_at w = None) ->
        nth_error (lottery_winners (expireOldClaims now db)) n = Some w)
  /\ (forall n w, nth_error (lottery_winners db) n = Some w ->
        lw_status w = PENDING ->
        (exists e, expires_at w = Some e /\ e < now) ->
        exists w', nth_error (lottery_winners (expireOldClaims now db)) n = Some w'
                   /\ lw_status w' = EXPIRED
                   /\ same_but_status w w').
Proof.
  split; [apply Forall2_map_r, sweep_row|].
  split; [repeat split|].
  split.
  - intros n w Hn Hw. simpl. rewrite nth_error_map, Hn. simpl.
    destruct (claim_expired now w) eqn:E; [|reflexivity].
    apply claim_expired_iff in E. destruct E as [Hs (e & He & Hlt)].
    destruct Hw as [H|[H|[(e' & He' & Hle)|H]]]; try congruence.
    rewrite He in He'. injection He' as <-. lia.
  - intros n w Hn Hs He. simpl. rewrite nth_error_map, Hn. simpl.
    assert (Ho : overdue now w) by (split; assumption).
    destruct (sweep_row now w) as [(_ & Hst & Hsame)|(Hno & _)]; [|contradiction].
    eexists. split; [reflexivity|]. split; assumption.
Qed.

Lemma expireOldClaims_frame_witness :
  let pending_row := mk_winner 1 1 "1001" None None None None "gift card" PENDING
                               0 None (Some 3600000) in
  let sent_row := mk_winner 2 1 "1002" None None None None "gift card" SENT
                            0 (Some 5) (Some 3600000) in
  let db := set_lottery_winners (example_db 3 2 CLAIM 0) [pending_row; sent_row] in
  lottery_winners (expireOldClaims 3601000 db)
  = [mk_winner 1 1 "1001" None None None None "gift card" EXPIRED 0 None (Some 3600000);
     sent_row]
  /\ lottery_winners (expireOldClaims 3600000 db) = [pending_row; sent_row]
  /\ exists w', nth_error (lottery_winners (expireOldClaims 3601000 db)) 0 = Some w'
               /\ lw_status w' = EXPIRED
               /\ same_but_status pending_row w'.
Proof.
  intros pending_row sent_row db.
  split; [reflexivity|]. split; [reflexivity|].
  apply (proj2 (proj2 (proj2 (expireOldClaims_frame 3601000 db))) 0%nat pending_row).
  - reflexivity.
  - reflexivity.
  - exists 3600000. split; [reflexivity|lia].
Defined.

Lemma status_at_map (f : winner_row -> winner_row) (n : nat) (db : DB) :
  status_at n (set_lottery_winners db (map f (lottery_winners db)))
  = option_map (fun w => lw_status (f w)) (nth_error (lottery_winners db) n).
Proof.
  unfold status_at. simpl. rewrite nth_error_map.
  destruct (nth_error (lottery_winners db) n); reflexivity.
Qed.

Lemma run_op_status (op : WinnerOp) (n : nat) (db : DB) (s : PrizeStatus) :
  status_at n db = Some s ->
  exists s', status_at n (run_op op db) = Some s'
             /\ status_step s s'
             /\ (s = SENT -> s' = SENT)
             /\ (forall now, op = ExpirySweep now -> s = EXPIRED -> s' = EXPIRED).
Proof.
  unfold status_step. intro H.
  assert (Hw : exists w, nth_error (lottery_winners db) n = Some w /\ lw_status w = s).
  { unfold status_at in H. destruct (nth_error (lottery_winners db) n) as [w|];
      [|discriminate]. injection H as H. eauto. }
  destruct Hw as (w & Hn & Hs).
  destruct op as [client lottery winner now|lotteryId userId now|now]; simpl.
  - unfold sendPrizeToWinner.
    destruct (direct_message_ok client (lp_user_id winner)); simpl.
    + rewrite status_at_map, Hn. simpl.
      destruct (winner_of (lc_id lottery) (lp_user_id winner) w); simpl.
      * exists SENT. repeat split; try discriminate; auto. destruct s; tauto.
      * exists s. rewrite Hs. repeat split; try discriminate; auto.
    + exists s. repeat split; try discriminate; auto.
  - rewrite status_at_map, Hn. simpl.
    destruct (winner_of lotteryId userId w); simpl.
    + exists SENT. repeat split; try discriminate; auto. destruct s; tauto.
    + exists s. rewrite Hs. repeat split; try discriminate; auto.
  - unfold expireOldClaims. rewrite status_at_map, Hn. simpl.
    destruct (claim_expired now w) eqn:E; simpl.
    + apply claim_expired_iff in E. destruct E as [Hp _].
      exists EXPIRED. rewrite Hp in Hs. subst s.
      repeat split; try discriminate; auto.
    + exists s. rewrite Hs. repeat split; auto.
Qed.

Lemma run_ops_sent (ops : list WinnerOp) :
  forall (n : nat) (db : DB),
    status_at n db = Some SENT -> status_at n (run_ops ops db) = Some SENT.
Proof.
  induction ops as [|op ops IH]; intros n db H; simpl; [assumption|].
  apply IH. destruct (run_op_status op n db SENT H) as (s' & Hs' & _ & Hsent & _).
  rewrite Hs'. f_equal. auto.
Qed.

(** C2, as the code has it.  Under the automatic send, the manual
    mark-claimed and the expiry sweep, a record keeps its status or moves
    pending -> sent, pending -> expired or expired -> sent; a sent record
    keeps its status through every sequence of these operations; the sweep
    never changes an expired record. *)
Theorem winner_status_transitions (op : WinnerOp) (ops : list WinnerOp) (n : nat)
    (db : DB) (s : PrizeStatus) :
  status_at n db = Some s ->
  (exists s', status_at n (run_op op db) = Some s' /\ status_step s s')
  /\ (s = SENT -> status_at n (run_ops ops db) = Some SENT)
  /\ (forall now, s = EXPIRED -> status_at n (expireOldClaims now db) = Some EXPIRED).
Proof.
  intro H. split; [|split].
  - destruct (run_op_status op n db s H) as (s' & Hs' & Hstep & _). eauto.
  - intros ->. apply run_ops_sent, H.
  - intros now ->.
    destruct (run_op_status (ExpirySweep now) n db EXPIRED H) as (s' & Hs' & _ & _ & Hx).
    simpl in Hs'. rewrite Hs'. f_equal. eauto.
Qed.

Lemma winner_status_transitions_witness :
  let row := mk_winner 1 1 "1001" None None None None "gift card" PENDING
                       0 None (Some 3600000) in
  let db := set_lottery_winners (example_db 3 2 CLAIM 0) [row] in
  status_at 0 db = Some PENDING
  /\ status_at 0 (run_op (MarkClaimed 1 "1001" 20) db) = Some SENT
  /\ status_at 0 (run_ops [ExpirySweep 3600001; MarkClaimed 1 "1001" 3600002]
                          (run_op (MarkClaimed 1 "1001" 20) db)) = Some SENT.
Proof.
  intros row db.
  assert (H0 : status_at 0 db = Some PENDING) by reflexivity.
  assert (H1 : status_at 0 (run_op (MarkClaimed 1 "1001" 20) db) = Some SENT)
    by reflexivity.
  split; [exact H0|]. split; [exact H1|].
  exact (proj1 (proj2 (winner_status_transitions (ExpirySweep 0)
                         [ExpirySweep 3600001; MarkClaimed 1 "1001" 3600002] 0
                         (run_op (MarkClaimed 1 "1001" 20) db) SENT H1)) eq_refl).
Defined.

(** C2 as stated fails: a record the sweep has expired is set to sent by a
    later mark-claimed, whose UPDATE does not look at the current status. *)
Lemma expired_record_marked_sent :
  let row := mk_winner 1 1 "1001" None None None None "gift card" PENDING
                       0 None (Some 3600000) in
  let db := set_lottery_winners (example_db 3 2 CLAIM 0) [row] in
  status_at 0 (run_ops [ExpirySweep 3600001] db) = Some EXPIRED
  /\ status_at 0 (run_ops [ExpirySweep 3600001; MarkClaimed 1 "1001" 3600002] db)
     = Some SENT
  /\ fst (updateWinnerStatusByUser 1 "1001" SENT None 3600002
            (expireOldClaims 3600001 db)) = true.
Proof. repeat split; reflexivity. Qed.

(** * Distribution: [getNextAvailablePrize] and [distributePrizes] *)

Lemma first_by_order_least (l : list prize_row) (p : prize_row) :
  first_by_order l = Some p ->
  In p l /\ forall q, In q l -> order_index p <= order_index q.
Proof.
  revert p. induction l as [|a l IH]; intros p H; simpl in H; [discriminate|].
  destruct (first_by_order l) as [b|] eqn:E.
  - destruct (IH b eq_refl) as [Hin Hmin].
    destruct (order_index b <? order_index a) eqn:C; injection H as <-.
    + apply Z.ltb_lt in C. split; [right; assumption|].
      intros q [<-|Hq]; [lia|auto].
    + apply Z.ltb_ge in C. split; [left; reflexivity|].
      intros q [<-|Hq]; [lia|]. specialize (Hmin q Hq). lia.
  - injection H as <-. split; [left; reflexivity|].
    destruct l as [|c l]; [|simpl in E; destruct (first_by_order l) as [d|];
      [destruct (order_index d <? order_index c)|]; discriminate].
    intros q [<-|[]]. lia.
Qed.

Lemma first_by_order_none (l : list prize_row) :
  first_by_order l = None -> l = [].
Proof.
  destruct l as [|a l]; [reflexivity|]. simpl.
  destruct (first_by_order l) as [b|]; [|discriminate].
  destruct (order_index b <? order_index a); discriminate.
Qed.

Lemma in_stock_iff (w : string) (p : prize_row) :
  in_stock w p = true <-> warehouse_name p = w /\ 0 < stock_count p.
Proof.
  unfold in_stock. rewrite andb_true_iff, String.eqb_eq, Z.ltb_lt. tauto.
Qed.

Lemma getNextAvailablePrize_some (w : string) (db : DB) (p : prize_row) :
  getNextAvailablePrize w db = Some p ->
  In p (prize_warehouse db) /\ warehouse_name p = w /\ 0 < stock_count p
  /\ forall q, In q (prize_warehouse db) -> warehouse_name q = w -> 0 < stock_count q ->
               order_index p <= order_index q.
Proof.
  unfold getNextAvailablePrize. intro H.
  apply first_by_order_least in H. destruct H as [Hin Hmin].
  apply filter_In in Hin. destruct Hin as [Hin Hs]. apply in_stock_iff in Hs.
  repeat split; try tauto.
  intros q Hq Hw Hpos. apply Hmin, filter_In. split; [assumption|].
  apply in_stock_iff. tauto.
Qed.

Lemma getNextAvailablePrize_none (w : string) (db : DB) :
  getNextAvailablePrize w db = None ->
  forall q, In q (prize_warehouse db) -> warehouse_name q = w -> stock_count q <= 0.
Proof.
  unfold getNextAvailablePrize. intros H q Hq Hw.
  apply first_by_order_none in H.
  destruct (Z.leb_spec (stock_count q) 0) as [|Hpos]; [assumption|].
  assert (Hin : In q (filter (in_stock w) (prize_warehouse db))).
  { apply filter_In. split; [assumption|]. apply in_stock_iff. tauto. }
  rewrite H in Hin. contradiction.
Qed.

Lemma consume_absent (prizeId : Z) (t : list prize_row) :
  ~ In prizeId (map pw_id t) -> map (consume_row prizeId) t = t.
Proof.
  intro H. apply consume_none_id.
  destruct (filter (consumable prizeId) t) as [|p r] eqn:E; [reflexivity|].
  assert (Hin : In p (filter (consumable prizeId) t)) by (rewrite E; left; reflexivity).
  apply filter_In in Hin. destruct Hin as [Hin Hc]. apply consumable_iff in Hc.
  exfalso. apply H. apply in_map_iff. exists p. tauto.
Qed.

Lemma consume_takes_one (p : prize_row) (t : list prize_row) :
  NoDup (map pw_id t) -> In p t -> 0 < stock_count p ->
  fold_right Z.add 0 (map stock_count (map (consume_row (pw_id p)) t))
  = fold_right Z.add 0 (map stock_count t) - 1.
Proof.
  induction t as [|a t IH]; intros Hnd Hin Hpos; [contradiction|].
  simpl in Hnd. inversion Hnd as [|? ? Ha Ht]; subst. simpl.
  destruct Hin as [->|Hin].
  - rewrite consume_absent by assumption.
    unfold consume_row. replace (consumable (pw_id p) p) with true; [simpl; lia|].
    symmetry. apply consumable_iff. tauto.
  - rewrite IH by assumption.
    unfold consume_row at 1. destruct (consumable (pw_id p) a) eqn:E; [|lia].
    apply consumable_iff in E. exfalso. apply Ha.
    apply in_map_iff. exists p. intuition congruence.
Qed.

Lemma assign_prize_winners (lottery : lottery_row) (now : Z) (db : DB)
    (winner : participant_row) :
  lottery_winners (assign_prize lottery now db winner)
  = (lottery_winners db ++
     [mk_winner (seq_winners db + 1) (lc_id lottery) (lp_user_id winner)
        (or_null (lp_username winner)) (or_null (lp_first_name winner))
        (or_null (lp_last_name winner)) None
        (match getNextAvailablePrize (warehouse_of lottery) db with
         | Some p => pw_prize_text p
         | None => fallback_prize_text
         end)
        PENDING now None (Some (now + claim_timeout lottery * 1000))])%list.
Proof.
  unfold assign_prize, getNextAvailablePrize.
  destruct (first_by_order _); reflexivity.
Qed.

Lemma assign_prize_warehouse (lottery : lottery_row) (now : Z) (db : DB)
    (winner : participant_row) :
  prize_warehouse (assign_prize lottery now db winner)
  = match getNextAvailablePrize (warehouse_of lottery) db with
    | Some p => map (consume_row (pw_id p)) (prize_warehouse db)
    | None => prize_warehouse db
    end.
Proof.
  unfold assign_prize, getNextAvailablePrize.
  destruct (first_by_order _); reflexivity.
Qed.

(** * Draw: the shuffle *)

Section ShuffleFacts.
Context {A : Type}.

Lemma length_update (l : list A) :
  forall (i : nat) (x : A), length (update l i x) = length l.
Proof.
  induction l as [|a l IH]; intros [|i] x; simpl; auto.
Qed.

Lemma nth_error_update (l : list A) :
  forall (i n : nat) (x : A),
    nth_error (update l i x) n
    = if (n =? i)%nat
      then match nth_error l i with Some _ => Some x | None => None end
      else nth_error l n.
Proof.
  induction l as [|a l IH]; intros i n x.
  - simpl. destruct (n =? i)%nat, i, n; reflexivity.
  - destruct i as [|i], n as [|n]; simpl; try reflexivity. apply IH.
Qed.

Lemma swap_perm (l : list A) (i j : nat) : Permutation l (swap l i j).
Proof.
  unfold swap.
  destruct (nth_error l i) as [x|] eqn:Hi; [|apply Permutation_refl].
  destruct (nth_error l j) as [y|] eqn:Hj; [|apply Permutation_refl].
  apply Permutation_nth_error. split.
  - rewrite !length_update. reflexivity.
  - exists (fun n => if (n =? j)%nat then i else if (n =? i)%nat then j else n).
    split.
    + intros a b.
      destruct (Nat.eqb_spec a j), (Nat.eqb_spec a i),
               (Nat.eqb_spec b j), (Nat.eqb_spec b i); intros; subst; congruence.
    + intro n. rewrite !nth_error_update, Hi.
      destruct (Nat.eqb_spec n j) as [->|Hnj].
      * destruct (Nat.eqb_spec j i) as [->|Hji]; rewrite ?Hj; congruence.
      * destruct (Nat.eqb_spec n i) as [->|Hni]; congruence.
Qed.

Lemma shuffle_from_perm (random : nat -> nat) (i : nat) :
  forall l : list A, Permutation (shuffle_from random i l) l.
Proof.
  induction i as [|i IH]; intro l; simpl; [apply Permutation_refl|].
  eapply Permutation_trans; [apply IH|]. apply Permutation_sym, swap_perm.
Qed.

Lemma fisher_yates_perm (random : nat -> nat) (l : list A) :
  Permutation (fisher_yates random l) l.
Proof. apply shuffle_from_perm. Qed.

Lemma slice0_clamped (l : list A) (k : Z) :
  0 <= k ->
  slice0 l (Z.min k (Z.of_nat (length l)))
  = firstn (Z.to_nat (Z.min k (Z.of_nat (length l)))) l
  /\ length (slice0 l (Z.min k (Z.of_nat (length l))))
     = Z.to_nat (Z.min k (Z.of_nat (length l))).
Proof.
  intro Hk. unfold slice0.
  replace (Z.min k (Z.of_nat (length l)) <? 0) with false
    by (symmetry; apply Z.ltb_ge; lia).
  split; [reflexivity|]. rewrite length_firstn. lia.
Qed.
End ShuffleFacts.

Lemma insert_by_joined_at_perm (p : participant_row) (l : list participant_row) :
  Permutation (insert_by_joined_at p l) (p :: l).
Proof.
  induction l as [|q l IH]; simpl; [apply Permutation_refl|].
  destruct (joined_at p <=? joined_at q); [apply Permutation_refl|].
  eapply Permutation_trans; [apply perm_skip, IH|apply perm_swap].
Qed.

Lemma order_by_joined_at_perm (l : list participant_row) :
  Permutation (order_by_joined_at l) l.
Proof.
  induction l as [|p l IH]; simpl; [apply Permutation_refl|].
  eapply Permutation_trans; [apply insert_by_joined_at_perm|apply perm_skip, IH].
Qed.

Lemma getLotteryParticipants_ids (lotteryId : Z) (db : DB) :
  Permutation (map lp_user_id (getLotteryParticipants lotteryId db))
              (participant_ids lotteryId db).
Proof. apply Permutation_map, order_by_joined_at_perm. Qed.

Lemma getLotteryParticipants_count (lotteryId : Z) (db : DB) :
  Z.of_nat (length (getLotteryParticipants lotteryId db)) = count_participants lotteryId db.
Proof.
  unfold count_participants. f_equal.
  apply Permutation_length, order_by_joined_at_perm.
Qed.

(** * Draw: [distributePrizes] and [performLotteryDraw] *)

Lemma assign_prize_frame (lottery : lottery_row) (now : Z) (db : DB)
    (winner : participant_row) :
  lottery_config (assign_prize lottery now db winner) = lottery_config db
  /\ lottery_participants (assign_prize lottery now db winner) = lottery_participants db.
Proof.
  unfold assign_prize. destruct (getNextAvailablePrize _ _); split; reflexivity.
Qed.

Lemma distribute_transaction_rows (lottery : lottery_row) (now : Z)
    (winners : list participant_row) :
  forall db : DB,
    lottery_config (distribute_transaction lottery now winners db) = lottery_config db
    /\ lottery_participants (distribute_transaction lottery now winners db)
       = lottery_participants db
    /\ exists rows,
         lottery_winners (distribute_transaction lottery now winners db)
         = (lottery_winners db ++ rows)%list
         /\ map lw_user_id rows = map lp_user_id winners
         /\ Forall (fun r => lw_lottery_id r = lc_id lottery) rows.
Proof.
  induction winners as [|w winners IH]; intro db.
  - simpl. repeat split. exists []. rewrite app_nil_r. repeat split. constructor.
  - change (distribute_transaction lottery now (w :: winners) db)
      with (distribute_transaction lottery now winners (assign_prize lottery now db w)).
    destruct (IH (assign_prize lottery now db w)) as (Hc & Hp & rows & Hr & Hu & Hl).
    destruct (assign_prize_frame lottery now db w) as [Hc1 Hp1].
    rewrite Hc, Hp, Hc1, Hp1. repeat split.
    rewrite Hr, assign_prize_winners, <- app_assoc. simpl.
    eexists. split; [reflexivity|]. simpl. split; [f_equal; assumption|].
    constructor; [reflexivity|assumption].
Qed.

Lemma map_status_keys (f : winner_row -> winner_row) (t : list winner_row) :
  (forall w, lw_user_id (f w) = lw_user_id w /\ lw_lottery_id (f w) = lw_lottery_id w) ->
  map lw_user_id (map f t) = map lw_user_id t
  /\ map lw_lottery_id (map f t) = map lw_lottery_id t.
Proof.
  intro H. rewrite !map_map. split; apply map_ext; intro w; apply H.
Qed.

Lemma send_one_frame (client : Client) (lottery : lottery_row) (now : Z) (db : DB)
    (winner : participant_row) :
  lottery_config (send_one client lottery now db winner) = lottery_config db
  /\ lottery_participants (send_one client lottery now db winner) = lottery_participants db
  /\ prize_warehouse (send_one client lottery now db winner) = prize_warehouse db
  /\ map lw_user_id (lottery_winners (send_one client lottery now db winner))
     = map lw_user_id (lottery_winners db)
  /\ map lw_lottery_id (lottery_winners (send_one client lottery now db winner))
     = map lw_lottery_id (lottery_winners db).
Proof.
  unfold send_one, sendPrizeToWinner.
  destruct (existsb _ _); [|repeat split].
  destruct (direct_message_ok client (lp_user_id winner)); [|repeat split].
  simpl. repeat split; apply map_status_keys; intro w;
    destruct (winner_of (lc_id lottery) (lp_user_id winner) w); split; reflexivity.
Qed.

Lemma send_all_frame (client : Client) (lottery : lottery_row) (now : Z)
    (winners : list participant_row) :
  forall db : DB,
    let db' := fold_left (send_one client lottery now) winners db in
    lottery_config db' = lottery_config db
    /\ lottery_participants db' = lottery_participants db
    /\ prize_warehouse db' = prize_warehouse db
    /\ map lw_user_id (lottery_winners db') = map lw_user_id (lottery_winners db)
    /\ map lw_lottery_id (lottery_winners db') = map lw_lottery_id (lottery_winners db).
Proof.
  induction winners as [|w winners IH]; intro db; simpl; [repeat split|].
  destruct (IH (send_one client lottery now db w)) as (H1 & H2 & H3 & H4 & H5).
  destruct (send_one_frame client lottery now db w) as (G1 & G2 & G3 & G4 & G5).
  rewrite H1, H2, H3, H4, H5. repeat split; assumption.
Qed.

(** The rows [distributePrizes] appends: one per winner, in order, for this
    lottery; the lottery table is not written. *)
Lemma distributePrizes_rows (client : Client) (lottery : lottery_row) (now : Z)
    (winners : list participant_row) (db : DB) :
  let db' := distributePrizes client lottery now winners db in
  lottery_config db' = lottery_config db
  /\ length (lottery_winners db') = (length (lottery_winners db) + length winners)%nat
  /\ map lw_user_id (new_winners db db') = map lp_user_id winners
  /\ Forall (fun id => id = lc_id lottery) (map lw_lottery_id (new_winners db db')).
Proof.
  intro db'.
  destruct (distribute_transaction_rows lottery now winners db)
    as (Hc & _ & rows & Hr & Hu & Hl).
  assert (K : lottery_config db' = lottery_config db
              /\ map lw_user_id (lottery_winners db')
                 = map lw_user_id (lottery_winners db ++ rows)%list
              /\ map lw_lottery_id (lottery_winners db')
                 = map lw_lottery_id (lottery_winners db ++ rows)%list).
  { unfold db', distributePrizes.
    destruct (DistributionMode_eqb (distribution_mode lottery) AUTO_SEND).
    - destruct (send_all_frame client lottery now winners
                  (distribute_transaction lottery now winners db))
        as (S1 & _ & _ & S4 & S5).
      rewrite S1, S4, S5, Hc, Hr. repeat split.
    - rewrite Hc, Hr. repeat split. }
  destruct K as (K1 & K2 & K3).
  assert (Hlen : length rows = length winners).
  { rewrite <- (length_map lw_user_id rows), Hu. apply length_map. }
  split; [assumption|]. split; [|split].
  - rewrite <- (length_map lw_user_id (lottery_winners db')), K2, length_map, length_app.
    lia.
  - unfold new_winners. rewrite <- skipn_map, K2, map_app.
    rewrite <- (length_map lw_user_id (lottery_winners db)), skipn_app, skipn_all.
    rewrite Nat.sub_diag. simpl. assumption.
  - unfold new_winners. rewrite <- skipn_map, K3, map_app.
    rewrite <- (length_map lw_lottery_id (lottery_winners db)), skipn_app, skipn_all.
    rewrite Nat.sub_diag. simpl. apply Forall_map. assumption.
Qed.

Lemma mark_completed_status (lotteryId : Z) (db : DB) :
  find_lottery lotteryId db <> None ->
  lottery_status lotteryId (mark_completed lotteryId db) = Some completed.
Proof.
  unfold lottery_status, find_lottery, mark_completed. simpl.
  induction (lottery_config db) as [|l t IH]; simpl; [congruence|].
  destruct (lc_id l =? lotteryId) eqn:E; simpl; rewrite E; [reflexivity|].
  exact IH.
Qed.

Lemma find_lottery_config (lotteryId : Z) (db db' : DB) :
  lottery_config db' = lottery_config db ->
  find_lottery lotteryId db' = find_lottery lotteryId db.
Proof. unfold find_lottery. intros ->. reflexivity. Qed.

Lemma drawn_winners (random : nat -> nat) (lottery : lottery_row) (db : DB) :
  let participants := getLotteryParticipants (lc_id lottery) db in
  let k := Z.min (winner_count lottery) (Z.of_nat (length participants)) in
  let winners := slice0 (fisher_yates random participants) k in
  0 <= winner_count lottery ->
  NoDup (participant_ids (lc_id lottery) db) ->
  length winners = Z.to_nat k
  /\ NoDup (map lp_user_id winners)
  /\ forall uid, In uid (map lp_user_id winners) ->
                 In uid (participant_ids (lc_id lottery) db).
Proof.
  intros participants k winners Hwc Hnd.
  pose proof (fisher_yates_perm random participants) as Hperm.
  assert (Hlen : length (fisher_yates random participants) = length participants)
    by (apply Permutation_length, Hperm).
  assert (Hids : Permutation (map lp_user_id (fisher_yates random participants))
                             (participant_ids (lc_id lottery) db)).
  { eapply Permutation_trans; [apply Permutation_map, Hperm|].
    apply getLotteryParticipants_ids. }
  destruct (slice0_clamped (fisher_yates random participants) (winner_count lottery) Hwc)
    as [Hs Hl].
  rewrite Hlen in Hs, Hl. fold k in Hs, Hl. fold winners in Hs, Hl.
  split; [assumption|].
  assert (Hsplit : (map lp_user_id winners
                    ++ skipn (Z.to_nat k) (map lp_user_id (fisher_yates random participants)))%list
                   = map lp_user_id (fisher_yates random participants)).
  { rewrite Hs, <- firstn_map. apply firstn_skipn. }
  assert (Hall : NoDup (map lp_user_id (fisher_yates random participants))).
  { eapply Permutation_NoDup; [apply Permutation_sym, Hids|assumption]. }
  split.
  - rewrite <- Hsplit in Hall. eapply NoDup_app_remove_r. exact Hall.
  - intros uid Hin. eapply Permutation_in; [exact Hids|].
    rewrite <- Hsplit. apply in_or_app. left. assumption.
Qed.

(** What a draw writes, whether or not its result message is delivered:
    for a lottery whose [winner_count] is not negative and whose participants
    have distinct user ids, a draw over [n >= 1] participants appends exactly
    [min(winner_count, n)] winner records, all for this lottery and for
    pairwise distinct participants of it, and a draw over no participant
    appends none and leaves the inventory alone.  The lottery is marked
    completed only past the delivery of the result message. *)
Theorem draw_creates_min_winner_records (client : Client) (random : nat -> nat)
    (now : Z) (lottery : lottery_row) (db : DB) :
  let n := count_participants (lc_id lottery) db in
  let r := performLotteryDraw client random now lottery db in
  0 <= winner_count lottery ->
  NoDup (participant_ids (lc_id lottery) db) ->
  (1 <= n ->
     length (lottery_winners (snd r))
     = (length (lottery_winners db) + Z.to_nat (Z.min (winner_count lottery) n))%nat
     /\ length (new_winners db (snd r)) = Z.to_nat (Z.min (winner_count lottery) n)
     /\ NoDup (map lw_user_id (new_winners db (snd r)))
     /\ (forall w, In w (new_winners db (snd r)) ->
           lw_lottery_id w = lc_id lottery
           /\ In (lw_user_id w) (participant_ids (lc_id lottery) db))
     /\ (chat_message_ok client (chat_id lottery) = true ->
           fst r = WinnersAnnounced
           /\ (find_lottery (lc_id lottery) db <> None ->
               lottery_status (lc_id lottery) (snd r) = Some completed)))
  /\ (n = 0 ->
        lottery_winners (snd r) = lottery_winners db
        /\ prize_warehouse (snd r) = prize_warehouse db
        /\ (chat_message_ok client (chat_id lottery) = true ->
              fst r = NoParticipants
              /\ (find_lottery (lc_id lottery) db <> None ->
                  lottery_status (lc_id lottery) (snd r) = Some completed))).
Proof.
  intros n r Hwc Hnd.
  pose proof (getLotteryParticipants_count (lc_id lottery) db) as Hcount. fold n in Hcount.
  unfold r, performLotteryDraw.
  set (participants := getLotteryParticipants (lc_id lottery) db) in *.
  set (winners := slice0 (fisher_yates random participants)
                         (Z.min (winner_count lottery) (Z.of_nat (length participants)))).
  split.
  - intro Hn.
    replace (length participants =? 0)%nat with false
      by (symmetry; apply Nat.eqb_neq; lia).
    destruct (drawn_winners random lottery db Hwc Hnd) as (Hlen & Hdist & Hin).
    fold participants in Hlen, Hdist, Hin. fold winners in Hlen, Hdist, Hin.
    rewrite Hcount in Hlen.
    destruct (distributePrizes_rows client lottery now winners db)
      as (Dc & Dl & Du & Did).
    set (db1 := distributePrizes client lottery now winners db) in *.
    assert (Hnew : forall d, lottery_winners d = lottery_winners db1 ->
              length (lottery_winners d)
              = (length (lottery_winners db) + Z.to_nat (Z.min (winner_count lottery) n))%nat
              /\ length (new_winners db d) = Z.to_nat (Z.min (winner_count lottery) n)
              /\ NoDup (map lw_user_id (new_winners db d))
              /\ (forall w, In w (new_winners db d) ->
                    lw_lottery_id w = lc_id lottery
                    /\ In (lw_user_id w) (participant_ids (lc_id lottery) db))).
    { intros d Hd. unfold new_winners. rewrite Hd. fold (new_winners db db1).
      split; [rewrite Dl, Hlen; reflexivity|]. split; [|split].
      - rewrite <- (length_map lw_user_id), Du, length_map. assumption.
      - rewrite Du. assumption.
      - intros w Hw. split.
        + rewrite Forall_forall in Did. apply Did. apply in_map. assumption.
        + apply Hin. rewrite <- Du. apply in_map. assumption. }
    destruct (chat_message_ok client (chat_id lottery)); simpl.
    + destruct (Hnew (mark_completed (lc_id lottery) db1) eq_refl) as (N1 & N2 & N3 & N4).
      repeat split; try assumption; try apply N4; try assumption.
      intro Hfound. apply mark_completed_status.
      rewrite (find_lottery_config _ db db1 Dc). assumption.
    + destruct (Hnew db1 eq_refl) as (N1 & N2 & N3 & N4).
      repeat split; try assumption; try apply N4; try assumption; discriminate.
  - intro Hn.
    replace (length participants =? 0)%nat with true
      by (symmetry; apply Nat.eqb_eq; lia).
    destruct (chat_message_ok client (chat_id lottery)); simpl.
    + repeat split. apply mark_completed_status.
    + repeat split; discriminate.
Qed.

Lemma draw_creates_min_winner_records_witness :
  let db := join_all [(1, alice, 10); (1, bob, 11); (1, carol, 12)]
                      (example_db 3 2 AUTO_SEND 1) in
  let lottery := example_lottery 3 2 AUTO_SEND in
  let r := performLotteryDraw reliable_client (fun _ => 0%nat) 100 lottery db in
  count_participants 1 db = 3
  /\ length (new_winners db (snd r)) = 2%nat
  /\ NoDup (map lw_user_id (new_winners db (snd r)))
  /\ fst r = WinnersAnnounced
  /\ lottery_status 1 (snd r) = Some completed
  /\ map lw_user_id (lottery_winners (snd r)) = ["1002"; "1003"]
  /\ map lw_status (lottery_winners (snd r)) = [SENT; SENT].
Proof.
  intros db lottery r.
  assert (Hwc : 0 <= winner_count lottery) by (simpl; lia).
  assert (Hnd : NoDup (participant_ids (lc_id lottery) db)).
  { vm_compute. repeat (constructor; [simpl; intuition congruence|]). constructor. }
  destruct (draw_creates_min_winner_records reliable_client (fun _ => 0%nat) 100
              lottery db Hwc Hnd) as [Hsome _].
  assert (Hn : 1 <= count_participants (lc_id lottery) db) by (vm_compute; discriminate).
  destruct (Hsome Hn) as (_ & Hlen & Hdist & _ & Hdone).
  destruct (Hdone eq_refl) as [Hout Hst].
  split; [reflexivity|]. split; [unfold r; rewrite Hlen; reflexivity|]. split; [exact Hdist|].
  split; [exact Hout|]. split; [apply Hst; discriminate|].
  split; reflexivity.
Defined.

(** * The [draw] subcommand *)

Lemma latest_created_in (t : list lottery_row) (l : lottery_row) :
  latest_created t = Some l -> In l t.
Proof.
  revert l. induction t as [|a t IH]; intros l H; simpl in H; [discriminate|].
  destruct (latest_created t) as [b|].
  - destruct (created_at a <? created_at b); injection H as <-;
      [right; apply IH; reflexivity|left; reflexivity].
  - injection H as <-. left. reflexivity.
Qed.

Lemma LotteryStatus_eqb_eq (a b : LotteryStatus) :
  LotteryStatus_eqb a b = true <-> a = b.
Proof. destruct a, b; simpl; split; congruence. Qed.

Lemma getActiveLottery_some (chatId : string) (db : DB) (l : lottery_row) :
  getActiveLottery chatId db = Some l ->
  In l (lottery_config db) /\ chat_id l = chatId /\ lc_status l = active.
Proof.
  unfold getActiveLottery. intro H. apply latest_created_in, filter_In in H.
  destruct H as [Hin H]. apply andb_true_iff in H. destruct H as [H1 H2].
  apply String.eqb_eq in H1. apply LotteryStatus_eqb_eq in H2. tauto.
Qed.

Lemma in_config_found (l : lottery_row) (db : DB) :
  In l (lottery_config db) -> find_lottery (lc_id l) db <> None.
Proof.
  unfold find_lottery. intros Hin H.
  apply (find_none _ _ H) in Hin. rewrite Z.eqb_refl in Hin. discriminate.
Qed.

Lemma performLotteryDraw_config (client : Client) (random : nat -> nat) (now : Z)
    (lottery : lottery_row) (db : DB) :
  fst (performLotteryDraw client random now lottery db) <> DrawFailed ->
  lottery_config (snd (performLotteryDraw client random now lottery db))
  = lottery_config (mark_completed (lc_id lottery) db).
Proof.
  unfold performLotteryDraw.
  destruct (length (getLotteryParticipants (lc_id lottery) db) =? 0)%nat.
  - destruct (chat_message_ok client (chat_id lottery)); simpl; [reflexivity|congruence].
  - destruct (chat_message_ok client (chat_id lottery)); simpl; [|congruence].
    intros _. f_equal. apply distributePrizes_rows.
Qed.

Lemma no_active_after_completion (chatId : string) (lotteryId : Z) (db : DB) :
  only_active chatId lotteryId db ->
  getActiveLottery chatId (mark_completed lotteryId db) = None.
Proof.
  intro Honly. unfold getActiveLottery, mark_completed. simpl.
  replace (filter _ _) with (@nil lottery_row); [reflexivity|].
  symmetry. unfold only_active in Honly.
  induction (lottery_config db) as [|l t IH]; simpl; [reflexivity|].
  assert (Hl : (String.eqb
                  (chat_id (if lc_id l =? lotteryId then set_lottery_status l completed else l))
                  chatId
                && LotteryStatus_eqb
                     (lc_status (if lc_id l =? lotteryId
                                 then set_lottery_status l completed else l))
                     active) = false).
  { destruct (lc_id l =? lotteryId) eqn:E; simpl; [apply andb_false_r|].
    apply Z.eqb_neq in E. apply not_true_is_false. intro H.
    apply andb_true_iff in H. destruct H as [H1 H2].
    apply String.eqb_eq in H1. apply LotteryStatus_eqb_eq in H2.
    apply E, Honly; [left; reflexivity|assumption|assumption]. }
  rewrite Hl. apply IH. intros l' Hin. apply Honly. right. assumption.
Qed.

Lemma getActiveLottery_config (chatId : string) (db db' : DB) :
  lottery_config db' = lottery_config db ->
  getActiveLottery chatId db' = getActiveLottery chatId db.
Proof. unfold getActiveLottery. intros ->. reflexivity. Qed.

Lemma lottery_status_config (lotteryId : Z) (db db' : DB) :
  lottery_config db' = lottery_config db ->
  lottery_status lotteryId db' = lottery_status lotteryId db.
Proof. unfold lottery_status, find_lottery. intros ->. reflexivity. Qed.

(** The guard at the call site.  The [draw] subcommand looks the chat's
    active lottery up before it draws: with none it reports the failure and
    writes nothing; and after a draw that ran to its end, the chat having no
    other active lottery, the next [draw] subcommand finds none. *)
Theorem draw_command_guard (client client' : Client) (random random' : nat -> nat)
    (now now' : Z) (chatId : string) (db : DB) :
  (getActiveLottery chatId db = None ->
     lottery_draw client random now chatId db = (NoActiveLottery, db))
  /\ (forall l, getActiveLottery chatId db = Some l ->
        fst (performLotteryDraw client random now l db) <> DrawFailed ->
        let db' := snd (lottery_draw client random now chatId db) in
        fst (lottery_draw client random now chatId db)
        = Drew (fst (performLotteryDraw client random now l db))
        /\ lottery_status (lc_id l) db' = Some completed
        /\ (only_active chatId (lc_id l) db ->
            lottery_draw client' random' now' chatId db' = (NoActiveLottery, db'))).
Proof.
  split.
  - intro H. unfold lottery_draw. rewrite H. reflexivity.
  - intros l Hl Hok db'.
    assert (Hdb' : db' = snd (performLotteryDraw client random now l db)).
    { unfold db', lottery_draw. rewrite Hl.
      destruct (performLotteryDraw client random now l db). reflexivity. }
    pose proof (performLotteryDraw_config client random now l db Hok) as Hc.
    rewrite <- Hdb' in Hc.
    destruct (getActiveLottery_some chatId db l Hl) as (Hin & _ & _).
    split; [|split].
    + unfold lottery_draw. rewrite Hl.
      destruct (performLotteryDraw client random now l db). reflexivity.
    + rewrite (lottery_status_config _ _ _ Hc).
      apply mark_completed_status, in_config_found, Hin.
    + intro Honly. unfold lottery_draw.
      rewrite (getActiveLottery_config _ _ _ Hc).
      rewrite no_active_after_completion by assumption. reflexivity.
Qed.

Lemma draw_command_guard_witness :
  let db := join_all [(1, alice, 10); (1, bob, 11)] (example_db 5 1 CLAIM 5) in
  let db' := snd (lottery_draw reliable_client (fun _ => 0%nat) 100 "-100" db) in
  getActiveLottery "-100" db = Some (example_lottery 5 1 CLAIM)
  /\ lottery_status 1 db' = Some completed
  /\ length (lottery_winners db') = 1%nat
  /\ lottery_draw reliable_client (fun _ => 0%nat) 200 "-100" db' = (NoActiveLottery, db').
Proof.
  intros db db'.
  assert (Hl : getActiveLottery "-100" db = Some (example_lottery 5 1 CLAIM))
    by reflexivity.
  assert (Hok : fst (performLotteryDraw reliable_client (fun _ => 0%nat) 100
                       (example_lottery 5 1 CLAIM) db) <> DrawFailed)
    by (vm_compute; discriminate).
  assert (Honly : only_active "-100" (lc_id (example_lottery 5 1 CLAIM)) db).
  { intros l [<-|[]] _ _. reflexivity. }
  destruct (proj2 (draw_command_guard reliable_client reliable_client
                     (fun _ => 0%nat) (fun _ => 0%nat) 100 200 "-100" db)
                  _ Hl Hok) as (_ & Hst & Hnext).
  split; [exact Hl|]. split; [exact Hst|]. split; [reflexivity|]. exact (Hnext Honly).
Defined.

(** C1 fails on the code.  [performLotteryDraw] neither tests nor sets the
    status first; it writes ['completed'] as its last statement and works on
    the row its caller read earlier.  Here the lottery is full after the
    second join, so the join listener is about to draw with the row it read
    while the lottery was active; the [draw] subcommand gets in before it and
    runs to its end, leaving the lottery completed with one winner; the
    listener's draw then runs on the completed lottery, announces winners
    again, appends a second winner record and takes another unit from the
    inventory. *)
Lemma draw_on_completed_lottery_draws_again :
  let db := join_all [(1, alice, 10); (1, bob, 11)] (example_db 2 1 CLAIM 5) in
  let lottery := example_lottery 2 1 CLAIM in
  let r1 := lottery_draw reliable_client (fun _ => 0%nat) 100 "-100" db in
  let r2 := performLotteryDraw reliable_client (fun _ => 0%nat) 200 lottery (snd r1) in
  getActiveLottery "-100" db = Some lottery
  /\ count_participants 1 db = max_participants lottery
  /\ fst r1 = Drew WinnersAnnounced
  /\ lottery_status 1 (snd r1) = Some completed
  /\ length (lottery_winners (snd r1)) = 1%nat
  /\ total_stock (snd r1) = 4
  /\ fst r2 = WinnersAnnounced
  /\ lottery_status 1 (snd r2) = Some completed
  /\ map lw_user_id (lottery_winners (snd r2)) = ["1002"; "1002"]
  /\ total_stock (snd r2) = 3.
Proof. repeat split; reflexivity. Qed.

(** * The [create] subcommand *)

Lemma createLotteryConfig_row (config : config_obj) (now : Z) (db : DB) :
  exists row,
    lottery_config (snd (createLotteryConfig config now db))
    = (lottery_config db ++ [row])%list
    /\ lc_id row = fst (createLotteryConfig config now db)
    /\ mode row = c_mode config
    /\ distribution_mode row = c_distribution_mode config
    /\ claim_timeout row = c_claim_timeout config
    /\ require_avatar row = c_require_avatar config
    /\ require_username row = c_require_username config
    /\ required_channel row = or_null (c_required_channel config)
    /\ allow_bots row = c_allow_bots config
    /\ member_filter row = or_null (c_member_filter config)
    /\ max_participants row = c_max_participants config
    /\ winner_count row = c_winner_count config
    /\ lc_status row = active.
Proof.
  unfold createLotteryConfig. simpl. eexists. split; [reflexivity|]. simpl.
  destruct (c_require_avatar config), (c_require_username config), (c_allow_bots config);
    repeat split; reflexivity.
Qed.

(** C10.  Whatever its arguments, a [create] subcommand that creates a
    lottery appends one row to [lottery_config] with [distribution_mode]
    auto-send (never claim), [claim_timeout] 86400, [mode] manual, no avatar,
    username or channel requirement, no member filter, and bots not
    allowed. *)
Theorem create_command_fixed_settings (parseInt : string -> option Z)
    (toLowerCase : string -> string) (String_of : Z -> string)
    (args : list string) (chatId senderId : string) (now : Z) (db db' : DB)
    (lotteryId : Z) :
  lottery_create parseInt toLowerCase String_of args chatId senderId now db
  = (Created lotteryId, db') ->
  exists row,
    lottery_config db' = (lottery_config db ++ [row])%list
    /\ lc_id row = lotteryId
    /\ distribution_mode row = AUTO_SEND
    /\ distribution_mode row <> CLAIM
    /\ claim_timeout row = 86400
    /\ mode row = MANUAL
    /\ require_avatar row = false
    /\ require_username row = false
    /\ required_channel row = None
    /\ member_filter row = None
    /\ allow_bots row = false
    /\ lc_status row = active.
Proof.
  unfold lottery_create. intro H.
  repeat match type of H with
         | (if ?c then _ else _) = _ => destruct c; try discriminate
         | match ?c with Some _ => _ | None => _ end = _ => destruct c; try discriminate
         end.
  match type of H with
  | (let (_, _) := createLotteryConfig ?cfg now db in _) = _ =>
      destruct (createLotteryConfig_row cfg now db)
        as (row & Hc & Hid & Hm & Hd & Ht & Ha & Hu & Hr & Hb & Hf & _ & _ & Hs);
      destruct (createLotteryConfig cfg now db) as [i d] eqn:E
  end.
  injection H as <- <-. simpl in *.
  exists row. rewrite Hd. repeat split; try assumption. discriminate.
Qed.

Lemma create_command_fixed_settings_witness :
  let db := set_lottery_config (example_db 3 2 CLAIM 4) [] in
  let r := lottery_create parseInt_digits (fun s => s) (fun _ => "0")
                          ["create"; "T"; "join"; "10"; "2"; "w1"] "-100" "42" 7 db in
  fst r = Created 2
  /\ exists row,
       lottery_config (snd r) = (lottery_config db ++ [row])%list
       /\ lc_id row = 2
       /\ distribution_mode row = AUTO_SEND
       /\ distribution_mode row <> CLAIM
       /\ claim_timeout row = 86400
       /\ mode row = MANUAL
       /\ require_avatar row = false
       /\ require_username row = false
       /\ required_channel row = None
       /\ member_filter row = None
       /\ allow_bots row = false
       /\ lc_status row = active.
Proof.
  intros db r. split; [reflexivity|].
  apply (create_command_fixed_settings parseInt_digits (fun s => s) (fun _ => "0")
           ["create"; "T"; "join"; "10"; "2"; "w1"] "-100" "42" 7 db (snd r) 2).
  reflexivity.
Defined.

(** * Remarks on the edges of the statements above *)

(** When the result message cannot be delivered the draw ends in its [catch]
    with the winner records written and the lottery still active, so the
    [draw] subcommand can be run again on it. *)
Lemma undelivered_result_leaves_lottery_active :
  let db := join_all [(1, alice, 10); (1, bob, 11)] (example_db 5 1 CLAIM 5) in
  let muted := mk_client (fun _ => true) (fun _ => false) in
  let r := lottery_draw muted (fun _ => 0%nat) 100 "-100" db in
  fst r = Drew DrawFailed
  /\ length (lottery_winners (snd r)) = 1%nat
  /\ lottery_status 1 (snd r) = Some active
  /\ fst (lottery_draw reliable_client (fun _ => 0%nat) 200 "-100" (snd r))
     = Drew WinnersAnnounced.
Proof. repeat split; reflexivity. Qed.

(** [slice(0, k)] with a negative [k] drops from the end: a lottery stored
    with [winner_count = -1] and three participants gets two records.  The
    [create] subcommand only rejects [NaN] and [winnerCount > maxParticipants]. *)
Lemma negative_winner_count_slices_from_end :
  let db := join_all [(1, alice, 10); (1, bob, 11); (1, carol, 12)]
                     (example_db 3 (-1) CLAIM 5) in
  let r := performLotteryDraw reliable_client (fun _ => 0%nat) 100
                              (example_lottery 3 (-1) CLAIM) db in
  length (lottery_winners (snd r)) = 2%nat.
Proof. reflexivity. Qed.

(** In auto-send mode a record whose direct message fails stays pending. *)
Lemma failed_direct_message_stays_pending :
  let db := join_all [(1, alice, 10); (1, bob, 11)] (example_db 2 2 AUTO_SEND 5) in
  let client := mk_client (fun uid => String.eqb uid "1001") (fun _ => true) in
  let r := performLotteryDraw client (fun _ => 1%nat) 100
                              (example_lottery 2 2 AUTO_SEND) db in
  map (fun w => (lw_user_id w, lw_status w)) (lottery_winners (snd r))
  = [("1001", SENT); ("1002", PENDING)].
Proof. reflexivity. Qed.

(** * The distribution pass as a whole: [distributePrizes] *)

Lemma insert_by_assigned_at_in (w x : winner_row) (l : list winner_row) :
  In x (insert_by_assigned_at w l) <-> x = w \/ In x l.
Proof.
  induction l as [|v l IH]; simpl.
  - intuition.
  - destruct (assigned_at w <=? assigned_at v); simpl; [intuition|].
    rewrite IH. intuition.
Qed.

Lemma order_by_assigned_at_in (x : winner_row) (l : list winner_row) :
  In x (fold_right insert_by_assigned_at [] l) <-> In x l.
Proof.
  induction l as [|v l IH]; simpl; [tauto|].
  rewrite insert_by_assigned_at_in, IH. intuition.
Qed.

Lemma getLotteryWinners_has_user (lotteryId : Z) (uid : string) (db : DB) :
  existsb (fun w => String.eqb (lw_user_id w) uid) (getLotteryWinners lotteryId db) = false ->
  forall r, In r (lottery_winners db) -> winner_of lotteryId uid r = false.
Proof.
  intros H r Hin. destruct (winner_of lotteryId uid r) eqn:E; [|reflexivity].
  unfold winner_of in E. apply andb_true_iff in E. destruct E as [E1 E2].
  assert (Hex : existsb (fun w => String.eqb (lw_user_id w) uid)
                        (getLotteryWinners lotteryId db) = true).
  { apply existsb_exists. exists (with_participant_names db r). split; [|exact E2].
    unfold getLotteryWinners. apply order_by_assigned_at_in, in_map, filter_In.
    split; assumption. }
  congruence.
Qed.

Lemma send_one_rows (client : Client) (lottery : lottery_row) (now : Z) (db : DB)
    (winner : participant_row) :
  lottery_winners (send_one client lottery now db winner)
  = map (sent_row client lottery now winner) (lottery_winners db).
Proof.
  unfold send_one, sendPrizeToWinner, sent_row.
  destruct (existsb _ _) eqn:Ex.
  - destruct (direct_message_ok client (lp_user_id winner)); simpl.
    + apply map_ext. intro r. rewrite andb_true_r. reflexivity.
    + rewrite <- (map_id (lottery_winners db)) at 1. apply map_ext.
      intro r. rewrite andb_false_r. reflexivity.
  - rewrite <- (map_id (lottery_winners db)) at 1. apply map_ext_in.
    intros r Hin.
    rewrite (getLotteryWinners_has_user _ _ _ Ex r Hin). reflexivity.
Qed.

Lemma send_all_rows (client : Client) (lottery : lottery_row) (now : Z)
    (winners : list participant_row) :
  forall db : DB,
    lottery_winners (fold_left (send_one client lottery now) winners db)
    = map (sent_rows client lottery now winners) (lottery_winners db).
Proof.
  unfold sent_rows.
  induction winners as [|w winners IH]; intro db; simpl.
  - symmetry. apply map_id.
  - rewrite IH, send_one_rows, map_map. reflexivity.
Qed.

Lemma sent_row_keeps (client : Client) (lottery : lottery_row) (now : Z)
    (winner : participant_row) (r : winner_row) :
  lw_lottery_id (sent_row client lottery now winner r) = lw_lottery_id r
  /\ lw_user_id (sent_row client lottery now winner r) = lw_user_id r
  /\ lw_prize_text (sent_row client lottery now winner r) = lw_prize_text r
  /\ assigned_at (sent_row client lottery now winner r) = assigned_at r
  /\ expires_at (sent_row client lottery now winner r) = expires_at r.
Proof.
  unfold sent_row.
  destruct (winner_of _ _ r && direct_message_ok client _); simpl; tauto.
Qed.

Lemma sent_rows_keep (client : Client) (lottery : lottery_row) (now : Z)
    (winners : list participant_row) :
  forall r : winner_row,
    lw_lottery_id (sent_rows client lottery now winners r) = lw_lottery_id r
    /\ lw_user_id (sent_rows client lottery now winners r) = lw_user_id r
    /\ lw_prize_text (sent_rows client lottery now winners r) = lw_prize_text r
    /\ assigned_at (sent_rows client lottery now winners r) = assigned_at r
    /\ expires_at (sent_rows client lottery now winners r) = expires_at r.
Proof.
  unfold sent_rows.
  induction winners as [|w winners IH]; intro r; simpl; [tauto|].
  destruct (IH (sent_row client lottery now w r)) as (H1 & H2 & H3 & H4 & H5).
  destruct (sent_row_keeps client lottery now w r) as (G1 & G2 & G3 & G4 & G5).
  rewrite H1, H2, H3, H4, H5. tauto.
Qed.

Lemma sent_rows_undelivered (client : Client) (lottery : lottery_row) (now : Z)
    (winners : list participant_row) :
  forall r : winner_row,
    direct_message_ok client (lw_user_id r) = false ->
    sent_rows client lottery now winners r = r.
Proof.
  unfold sent_rows.
  induction winners as [|w winners IH]; intros r H; simpl; [reflexivity|].
  assert (E : sent_row client lottery now w r = r).
  { unfold sent_row, winner_of.
    destruct (String.eqb (lw_user_id r) (lp_user_id w)) eqn:Eu.
    - apply String.eqb_eq in Eu. rewrite <- Eu, H, andb_false_r. reflexivity.
    - rewrite andb_false_r. reflexivity. }
  rewrite E. apply IH, H.
Qed.

Lemma sent_rows_stays_sent (client : Client) (lottery : lottery_row) (now : Z)
    (winners : list participant_row) :
  forall r : winner_row,
    lw_status r = SENT -> claimed_at r = Some now ->
    lw_status (sent_rows client lottery now winners r) = SENT
    /\ claimed_at (sent_rows client lottery now winners r) = Some now.
Proof.
  unfold sent_rows.
  induction winners as [|w winners IH]; intros r Hs Hc; simpl; [tauto|].
  apply IH; unfold sent_row;
    destruct (winner_of _ _ r && direct_message_ok client _); simpl;
    first [reflexivity | assumption].
Qed.

Lemma sent_rows_delivered (client : Client) (lottery : lottery_row) (now : Z)
    (winners : list participant_row) :
  forall r : winner_row,
    lw_lottery_id r = lc_id lottery ->
    direct_message_ok client (lw_user_id r) = true ->
    (exists w, In w winners /\ lp_user_id w = lw_user_id r) ->
    lw_status (sent_rows client lottery now winners r) = SENT
    /\ claimed_at (sent_rows client lottery now winners r) = Some now.
Proof.
  induction winners as [|w winners IH]; intros r Hl Hd (x & Hin & Hx);
    [contradiction|].
  change (sent_rows client lottery now (w :: winners) r)
    with (sent_rows client lottery now winners (sent_row client lottery now w r)).
  destruct (String.eqb (lw_user_id r) (lp_user_id w)) eqn:Eu.
  - apply sent_rows_stays_sent; unfold sent_row, winner_of;
      rewrite Hl, Z.eqb_refl, Eu; apply String.eqb_eq in Eu; rewrite <- Eu, Hd;
      reflexivity.
  - assert (E : sent_row client lottery now w r = r).
    { unfold sent_row, winner_of. rewrite Eu, andb_false_r. reflexivity. }
    rewrite E. apply IH; try assumption.
    destruct Hin as [<-|Hin]; [|eauto].
    rewrite Hx, String.eqb_refl in Eu. discriminate.
Qed.

Lemma distribute_transaction_app (lottery : lottery_row) (now : Z)
    (l1 l2 : list participant_row) (db : DB) :
  distribute_transaction lottery now (l1 ++ l2) db
  = distribute_transaction lottery now l2 (distribute_transaction lottery now l1 db).
Proof. apply fold_left_app. Qed.

(** The rows the transaction appends, one per winner and in order, as the
    INSERT writes them. *)
Lemma distribute_transaction_fresh (lottery : lottery_row) (now : Z)
    (winners : list participant_row) :
  forall db : DB,
    exists rows,
      lottery_winners (distribute_transaction lottery now winners db)
      = (lottery_winners db ++ rows)%list
      /\ Forall2 (fun winner r =>
                    lw_lottery_id r = lc_id lottery
                    /\ lw_user_id r = lp_user_id winner
                    /\ assigned_at r = now
                    /\ expires_at r = Some (now + claim_timeout lottery * 1000)
                    /\ lw_status r = PENDING
                    /\ claimed_at r = None)
                 winners rows.
Proof.
  induction winners as [|w winners IH]; intro db.
  - exists []. simpl. rewrite app_nil_r. split; [reflexivity|constructor].
  - change (distribute_transaction lottery now (w :: winners) db)
      with (distribute_transaction lottery now winners (assign_prize lottery now db w)).
    destruct (IH (assign_prize lottery now db w)) as (rows & Hr & Hf).
    rewrite Hr, assign_prize_winners, <- app_assoc. simpl.
    eexists. split; [reflexivity|].
    constructor; [simpl; repeat split; reflexivity|assumption].
Qed.

(** The record of the winner at position [length before] carries the text of
    the item that is next when their turn comes. *)
Lemma distribute_transaction_turn (lottery : lottery_row) (now : Z)
    (before after : list participant_row) (winner : participant_row) (db : DB) :
  exists r,
    nth_error (new_winners db (distribute_transaction lottery now
                                 (before ++ winner :: after) db))
              (length before) = Some r
    /\ lw_prize_text r
       = match getNextAvailablePrize (warehouse_of lottery)
                 (distribute_transaction lottery now before db) with
         | Some p => pw_prize_text p
         | None => fallback_prize_text
         end.
Proof.
  rewrite distribute_transaction_app.
  change (distribute_transaction lottery now (winner :: after)
            (distribute_transaction lottery now before db))
    with (distribute_transaction lottery now after
            (assign_prize lottery now (distribute_transaction lottery now before db) winner)).
  destruct (distribute_transaction_fresh lottery now before db) as (r1 & H1 & F1).
  destruct (distribute_transaction_fresh lottery now after
              (assign_prize lottery now (distribute_transaction lottery now before db) winner))
    as (r2 & H2 & _).
  unfold new_winners. rewrite H2, assign_prize_winners, H1.
  rewrite <- !app_assoc, skipn_app, skipn_all, Nat.sub_diag. simpl.
  assert (Hlen : length r1 = length before)
    by (symmetry; eapply Forall2_length; exact F1).
  rewrite <- Hlen, nth_error_app2, Nat.sub_diag by lia. simpl.
  eexists. split; reflexivity.
Qed.

Lemma consume_row_one_unit (prizeId : Z) (q : prize_row) :
  one_unit_taken prizeId q (consume_row prizeId q).
Proof.
  unfold one_unit_taken, same_but_stock, consume_row.
  destruct (consumable prizeId q) eqn:E; simpl.
  - apply consumable_iff in E. split; [tauto|]. left. tauto.
  - split; [tauto|]. right. split; [|reflexivity].
    intro H. apply consumable_iff in H. congruence.
Qed.

(** One turn of the transaction, seen from the prize table. *)
Lemma assign_prize_turn (lottery : lottery_row) (now : Z) (db : DB)
    (winner : participant_row) :
  match getNextAvailablePrize (warehouse_of lottery) db with
  | Some p =>
      next_in_order (warehouse_of lottery) (prize_warehouse db) p
      /\ Forall2 (one_unit_taken (pw_id p)) (prize_warehouse db)
                 (prize_warehouse (assign_prize lottery now db winner))
      /\ (NoDup (map pw_id (prize_warehouse db)) ->
          total_stock (assign_prize lottery now db winner) = total_stock db - 1)
  | None =>
      out_of_stock (warehouse_of lottery) (prize_warehouse db)
      /\ prize_warehouse (assign_prize lottery now db winner) = prize_warehouse db
  end.
Proof.
  rewrite assign_prize_warehouse.
  destruct (getNextAvailablePrize (warehouse_of lottery) db) as [p|] eqn:E.
  - destruct (getNextAvailablePrize_some _ _ _ E) as (Hin & Hw & Hpos & Hmin).
    split; [repeat split; assumption|]. split.
    + apply Forall2_map_r, consume_row_one_unit.
    + intro Hnd. unfold total_stock. rewrite assign_prize_warehouse, E.
      apply consume_takes_one; assumption.
  - split; [|reflexivity]. intros q Hq Hw.
    eapply getNextAvailablePrize_none; eassumption.
Qed.

(** [distributePrizes] is the transaction followed, in auto-send mode, by
    the send loop, which rewrites statuses only. *)
Lemma distributePrizes_tables (client : Client) (lottery : lottery_row) (now : Z)
    (winners : list participant_row) (db : DB) :
  prize_warehouse (distributePrizes client lottery now winners db)
  = prize_warehouse (distribute_transaction lottery now winners db)
  /\ lottery_winners (distributePrizes client lottery now winners db)
     = if DistributionMode_eqb (distribution_mode lottery) AUTO_SEND
       then map (sent_rows client lottery now winners)
                (lottery_winners (distribute_transaction lottery now winners db))
       else lottery_winners (distribute_transaction lottery now winners db).
Proof.
  unfold distributePrizes.
  destruct (DistributionMode_eqb (distribution_mode lottery) AUTO_SEND).
  - split; [apply send_all_frame|apply send_all_rows].
  - split; reflexivity.
Qed.

Lemma getNextAvailablePrize_table (w : string) (db db' : DB) :
  prize_warehouse db' = prize_warehouse db ->
  getNextAvailablePrize w db' = getNextAvailablePrize w db.
Proof. unfold getNextAvailablePrize. intros ->. reflexivity. Qed.

Lemma total_stock_table (db db' : DB) :
  prize_warehouse db' = prize_warehouse db -> total_stock db' = total_stock db.
Proof. unfold total_stock. intros ->. reflexivity. Qed.

Lemma new_winners_of_pass (client : Client) (lottery : lottery_row) (now : Z)
    (winners : list participant_row) (db : DB) :
  new_winners db (distributePrizes client lottery now winners db)
  = if DistributionMode_eqb (distribution_mode lottery) AUTO_SEND
    then map (sent_rows client lottery now winners)
             (new_winners db (distribute_transaction lottery now winners db))
    else new_winners db (distribute_transaction lottery now winners db).
Proof.
  unfold new_winners. rewrite (proj2 (distributePrizes_tables _ _ _ _ _)).
  destruct (DistributionMode_eqb (distribution_mode lottery) AUTO_SEND);
    [apply skipn_map|reflexivity].
Qed.

Lemma Forall2_map_in {A B : Type} (R R' : A -> B -> Prop) (f : B -> B)
    (l : list A) (l' : list B) :
  (forall a b, In a l -> R a b -> R' a (f b)) ->
  Forall2 R l l' -> Forall2 R' l (map f l').
Proof.
  intros H F. induction F as [|a b l l' Hab F IH]; simpl; constructor.
  - apply H; [left; reflexivity|assumption].
  - apply IH. intros a' b' Hin. apply H. right. assumption.
Qed.

Lemma new_winners_of_transaction (lottery : lottery_row) (now : Z)
    (winners : list participant_row) (db : DB) (rows : list winner_row) :
  lottery_winners (distribute_transaction lottery now winners db)
  = (lottery_winners db ++ rows)%list ->
  new_winners db (distribute_transaction lottery now winners db) = rows.
Proof.
  intro H. unfold new_winners.
  rewrite H, skipn_app, skipn_all, Nat.sub_diag. reflexivity.
Qed.

(** Every winner gets a record, whatever the inventory holds. *)
Lemma distributePrizes_records (client : Client) (lottery : lottery_row) (now : Z)
    (winners : list participant_row) (db : DB) :
  Forall2 (record_of_pass client lottery now) winners
          (new_winners db (distributePrizes client lottery now winners db)).
Proof.
  destruct (distribute_transaction_fresh lottery now winners db) as (rows & Hr & Hf).
  rewrite new_winners_of_pass, (new_winners_of_transaction _ _ _ _ _ Hr).
  destruct (DistributionMode_eqb (distribution_mode lottery) AUTO_SEND) eqn:Em.
  - assert (Hauto : distribution_mode lottery = AUTO_SEND)
      by (destruct (distribution_mode lottery); [discriminate|reflexivity]).
    refine (Forall2_map_in _ _ _ _ _ _ Hf).
    intros a b Hin (H1 & H2 & H3 & H4 & H5 & H6).
    destruct (sent_rows_keep client lottery now winners b) as (K1 & K2 & K3 & K4 & K5).
    unfold record_of_pass. rewrite K1, K2, K4, K5.
    repeat (split; [assumption|]).
    destruct (direct_message_ok client (lp_user_id a)) eqn:Ed.
    + left. split; [assumption|]. split; [reflexivity|].
      apply sent_rows_delivered; [assumption|rewrite H2; assumption|].
      exists a. split; [assumption|symmetry; assumption].
    + right. split; [right; reflexivity|].
      rewrite sent_rows_undelivered by (rewrite H2; assumption). tauto.
  - assert (Hclaim : distribution_mode lottery = CLAIM)
      by (destruct (distribution_mode lottery); [reflexivity|discriminate]).
    revert Hf. apply Forall2_impl.
    intros a b (H1 & H2 & H3 & H4 & H5 & H6). unfold record_of_pass.
    repeat (split; [assumption|]). right. tauto.
Qed.

Lemma firstn_length_app {A : Type} (l1 l2 : list A) :
  firstn (length l1) (l1 ++ l2) = l1.
Proof.
  induction l1 as [|a l1 IH]; simpl; [destruct l2; reflexivity|].
  f_equal. exact IH.
Qed.

(** The winner at position [k] is served from the inventory as the first
    [k] turns left it. *)
Lemma distributePrizes_turn (client : Client) (lottery : lottery_row) (now : Z)
    (winners : list participant_row) (db : DB) (k : nat) (winner : participant_row) :
  nth_error winners k = Some winner ->
  let pass := fun ws => distributePrizes client lottery now ws db in
  exists r,
    nth_error (new_winners db (pass winners)) k = Some r
    /\ ((exists p,
           next_in_order (warehouse_of lottery)
                         (prize_warehouse (pass (firstn k winners))) p
           /\ lw_prize_text r = pw_prize_text p
           /\ Forall2 (one_unit_taken (pw_id p))
                      (prize_warehouse (pass (firstn k winners)))
                      (prize_warehouse (pass (firstn (S k) winners)))
           /\ (NoDup (map pw_id (prize_warehouse (pass (firstn k winners)))) ->
               total_stock (pass (firstn (S k) winners))
               = total_stock (pass (firstn k winners)) - 1))
        \/ (out_of_stock (warehouse_of lottery)
                         (prize_warehouse (pass (firstn k winners)))
            /\ lw_prize_text r = fallback_prize_text
            /\ prize_warehouse (pass (firstn (S k) winners))
               = prize_warehouse (pass (firstn k winners)))).
Proof.
  intros Hk pass.
  destruct (nth_error_split _ _ Hk) as (l1 & l2 & -> & Hlen). subst k.
  assert (F1 : firstn (length l1) (l1 ++ winner :: l2) = l1)
    by apply firstn_length_app.
  assert (F2 : firstn (S (length l1)) (l1 ++ winner :: l2) = (l1 ++ [winner])%list).
  { replace (S (length l1)) with (length (l1 ++ [winner]))
      by (rewrite length_app; simpl; lia).
    replace (l1 ++ winner :: l2)%list with ((l1 ++ [winner]) ++ l2)%list
      by (rewrite <- app_assoc; reflexivity).
    apply firstn_length_app. }
  rewrite F1, F2.
  set (d := distribute_transaction lottery now l1 db).
  assert (T1 : prize_warehouse (pass l1) = prize_warehouse d)
    by apply distributePrizes_tables.
  assert (T2 : prize_warehouse (pass (l1 ++ [winner])%list)
               = prize_warehouse (assign_prize lottery now d winner)).
  { unfold pass. rewrite (proj1 (distributePrizes_tables _ _ _ _ _)).
    rewrite distribute_transaction_app. reflexivity. }
  destruct (distribute_transaction_turn lottery now l1 l2 winner db) as (r & Hr & Ht).
  fold d in Ht.
  pose proof (assign_prize_turn lottery now d winner) as Hturn.
  assert (Hrow : exists r', nth_error (new_winners db (pass (l1 ++ winner :: l2)%list))
                                      (length l1) = Some r'
                            /\ lw_prize_text r' = lw_prize_text r).
  { unfold pass. rewrite new_winners_of_pass.
    destruct (DistributionMode_eqb (distribution_mode lottery) AUTO_SEND).
    - rewrite nth_error_map, Hr. simpl. eexists. split; [reflexivity|].
      apply sent_rows_keep.
    - eauto. }
  destruct Hrow as (r' & Hr' & Ht'). exists r'. split; [exact Hr'|].
  rewrite Ht', Ht, T1, T2, (total_stock_table _ _ T1), (total_stock_table _ _ T2).
  destruct (getNextAvailablePrize (warehouse_of lottery) d) as [p|].
  - left. exists p. tauto.
  - right. tauto.
Qed.

Lemma NoDup_map_In_inj {A B : Type} (f : A -> B) (l : list A) (a b : A) :
  NoDup (map f l) -> In a l -> In b l -> f a = f b -> a = b.
Proof.
  induction l as [|x l IH]; intros Hnd Ha Hb Hf; [contradiction|].
  simpl in Hnd. inversion Hnd as [|? ? Hx Hl]; subst.
  destruct Ha as [->|Ha], Hb as [->|Hb]; auto.
  - exfalso. apply Hx. rewrite Hf. apply in_map. assumption.
  - exfalso. apply Hx. rewrite <- Hf. apply in_map. assumption.
Qed.

Lemma filter_nothing {A : Type} (f : A -> bool) (l : list A) :
  (forall x, In x l -> f x = false) -> filter f l = [].
Proof.
  induction l as [|a l IH]; intro H; simpl; [reflexivity|].
  rewrite (H a) by (left; reflexivity). apply IH. intros x Hx. apply H. right. assumption.
Qed.

Lemma filter_only {A : Type} (f : A -> bool) (l : list A) (a : A) :
  NoDup l -> In a l -> f a = true -> (forall x, In x l -> f x = true -> x = a) ->
  filter f l = [a].
Proof.
  induction l as [|x l IH]; intros Hnd Hin Ha Honly; [contradiction|].
  inversion Hnd as [|? ? Hx Hl]; subst. simpl.
  destruct Hin as [->|Hin].
  - rewrite Ha. f_equal. apply filter_nothing. intros y Hy.
    destruct (f y) eqn:E; [|reflexivity].
    exfalso. apply Hx. rewrite <- (Honly y) by (try right; assumption). assumption.
  - destruct (f x) eqn:E.
    + exfalso. apply Hx. rewrite (Honly x) by (try left; auto). assumption.
    + apply IH; try assumption. intros y Hy. apply Honly. right. assumption.
Qed.

(** A warehouse whose only item in stock has one unit left, and two
    winners: the transaction gives the unit to the first and the
    placeholder to the second. *)
Lemma last_unit_transaction (lottery : lottery_row) (now : Z) (db : DB)
    (item : prize_row) (w1 w2 : participant_row) :
  In item (prize_warehouse db) ->
  NoDup (map pw_id (prize_warehouse db)) ->
  warehouse_name item = warehouse_of lottery ->
  stock_count item = 1 ->
  (forall q, In q (prize_warehouse db) -> warehouse_name q = warehouse_of lottery ->
             0 < stock_count q -> q = item) ->
  let db' := distribute_transaction lottery now [w1; w2] db in
  (exists r1 r2,
     new_winners db db' = [r1; r2]
     /\ lw_user_id r1 = lp_user_id w1 /\ lw_prize_text r1 = pw_prize_text item
     /\ lw_user_id r2 = lp_user_id w2 /\ lw_prize_text r2 = fallback_prize_text)
  /\ prize_warehouse db'
     = map (fun q => if pw_id q =? pw_id item then set_stock q 0 else q)
           (prize_warehouse db).
Proof.
  intros Hin Hnd Hw Hs Honly db'.
  set (w := warehouse_of lottery) in *.
  assert (Hitem : in_stock w item = true) by (apply in_stock_iff; split; [assumption|lia]).
  assert (N1 : getNextAvailablePrize w db = Some item).
  { unfold getNextAvailablePrize.
    rewrite (filter_only (in_stock w) (prize_warehouse db) item); try assumption.
    - reflexivity.
    - eapply NoDup_map_inv. exact Hnd.
    - intros q Hq Hq'. apply in_stock_iff in Hq'. apply Honly; tauto. }
  set (d1 := assign_prize lottery now db w1).
  assert (W1 : prize_warehouse d1
               = map (fun q => if pw_id q =? pw_id item then set_stock q 0 else q)
                     (prize_warehouse db)).
  { unfold d1. rewrite assign_prize_warehouse. fold w. rewrite N1.
    apply map_ext_in. intros q Hq. unfold consume_row, consumable.
    destruct (pw_id q =? pw_id item) eqn:E; [|reflexivity].
    apply Z.eqb_eq in E.
    rewrite (NoDup_map_In_inj pw_id _ q item Hnd Hq Hin E), Hs. reflexivity. }
  assert (N2 : getNextAvailablePrize w d1 = None).
  { unfold getNextAvailablePrize. rewrite W1, filter_nothing; [reflexivity|].
    intros q' Hq'. apply in_map_iff in Hq'. destruct Hq' as (q & <- & Hq).
    destruct (pw_id q =? pw_id item) eqn:E.
    - unfold in_stock. simpl. apply andb_false_r.
    - destruct (in_stock w q) eqn:Eq; [|reflexivity].
      apply in_stock_iff in Eq. rewrite (Honly q Hq) in E by tauto.
      rewrite Z.eqb_refl in E. discriminate. }
  change db' with (assign_prize lottery now d1 w2).
  split.
  - unfold new_winners. rewrite assign_prize_winners. fold w. rewrite N2.
    unfold d1 at 1 2. rewrite assign_prize_winners. fold w. rewrite N1.
    rewrite <- app_assoc, skipn_app, skipn_all, Nat.sub_diag. simpl.
    eexists. eexists. split; [reflexivity|]. simpl. repeat split; reflexivity.
  - rewrite assign_prize_warehouse. fold w. rewrite N2. exact W1.
Qed.

Lemma last_unit_pass (client : Client) (lottery : lottery_row) (now : Z) (db : DB)
    (item : prize_row) (w1 w2 : participant_row) :
  In item (prize_warehouse db) ->
  NoDup (map pw_id (prize_warehouse db)) ->
  warehouse_name item = warehouse_of lottery ->
  stock_count item = 1 ->
  (forall q, In q (prize_warehouse db) -> warehouse_name q = warehouse_of lottery ->
             0 < stock_count q -> q = item) ->
  let db' := distributePrizes client lottery now [w1; w2] db in
  exists r1 r2,
    new_winners db db' = [r1; r2]
    /\ lw_user_id r1 = lp_user_id w1 /\ lw_prize_text r1 = pw_prize_text item
    /\ lw_user_id r2 = lp_user_id w2 /\ lw_prize_text r2 = fallback_prize_text
    /\ Forall2 (fun q q' =>
                  same_but_stock q q'
                  /\ stock_count q' = if pw_id q =? pw_id item then 0 else stock_count q)
               (prize_warehouse db) (prize_warehouse db').
Proof.
  intros Hin Hnd Hw Hs Honly db'.
  destruct (last_unit_transaction lottery now db item w1 w2 Hin Hnd Hw Hs Honly)
    as ((r1 & r2 & Hn & U1 & T1 & U2 & T2) & Ht).
  unfold db'. rewrite new_winners_of_pass, (proj1 (distributePrizes_tables _ _ _ _ _)).
  rewrite Hn, Ht.
  assert (Hstock : Forall2 (fun q q' =>
                     same_but_stock q q'
                     /\ stock_count q' = if pw_id q =? pw_id item then 0 else stock_count q)
                     (prize_warehouse db)
                     (map (fun q => if pw_id q =? pw_id item then set_stock q 0 else q)
                          (prize_warehouse db))).
  { apply Forall2_map_r. intro q. unfold same_but_stock.
    destruct (pw_id q =? pw_id item); simpl; tauto. }
  destruct (DistributionMode_eqb (distribution_mode lottery) AUTO_SEND).
  - destruct (sent_rows_keep client lottery now [w1; w2] r1) as (_ & K1 & K2 & _).
    destruct (sent_rows_keep client lottery now [w1; w2] r2) as (_ & K3 & K4 & _).
    eexists. eexists. split; [reflexivity|].
    rewrite K1, K2, K3, K4. tauto.
  - exists r1, r2. tauto.
Qed.

(** C6.  [distributePrizes], in claim mode and in auto-send mode alike,
    leaves one record per winner, in the winners' order; each record is for
    this lottery and its winner, and it is sent when the mode is auto-send
    and the direct message went through, pending otherwise.  The winner at
    position [k] is served from the inventory as the first [k] winners left
    it: they get the text of an item of the lottery's warehouse that is in
    stock and has the least [order_index] among those, and exactly one unit
    of that item is taken; or, when the warehouse has nothing in stock, they
    get the placeholder text and the inventory is left alone, the pass going
    on either way.  In particular, when the only item in stock of the
    warehouse has one unit left and there are two winners, the first record
    carries the item's text, the second the placeholder, and the item ends
    with stock 0, every other row of the inventory being untouched. *)
Theorem distributePrizes_in_order (client : Client) (lottery : lottery_row) (now : Z)
    (winners : list participant_row) (db : DB)
    (item : prize_row) (w1 w2 : participant_row) :
  let pass := fun ws => distributePrizes client lottery now ws db in
  Forall2 (record_of_pass client lottery now) winners (new_winners db (pass winners))
  /\ (forall k winner, nth_error winners k = Some winner ->
      exists r,
        nth_error (new_winners db (pass winners)) k = Some r
        /\ ((exists p,
               next_in_order (warehouse_of lottery)
                             (prize_warehouse (pass (firstn k winners))) p
               /\ lw_prize_text r = pw_prize_text p
               /\ Forall2 (one_unit_taken (pw_id p))
                          (prize_warehouse (pass (firstn k winners)))
                          (prize_warehouse (pass (firstn (S k) winners)))
               /\ (NoDup (map pw_id (prize_warehouse (pass (firstn k winners)))) ->
                   total_stock (pass (firstn (S k) winners))
                   = total_stock (pass (firstn k winners)) - 1))
            \/ (out_of_stock (warehouse_of lottery)
                             (prize_warehouse (pass (firstn k winners)))
                /\ lw_prize_text r = fallback_prize_text
                /\ prize_warehouse (pass (firstn (S k) winners))
                   = prize_warehouse (pass (firstn k winners)))))
  /\ prize_warehouse (pass []) = prize_warehouse db
  /\ (In item (prize_warehouse db) ->
      NoDup (map pw_id (prize_warehouse db)) ->
      warehouse_name item = warehouse_of lottery ->
      stock_count item = 1 ->
      (forall q, In q (prize_warehouse db) -> warehouse_name q = warehouse_of lottery ->
                 0 < stock_count q -> q = item) ->
      exists r1 r2,
        new_winners db (pass [w1; w2]) = [r1; r2]
        /\ record_of_pass client lottery now w1 r1
        /\ record_of_pass client lottery now w2 r2
        /\ lw_prize_text r1 = pw_prize_text item
        /\ lw_prize_text r2 = fallback_prize_text
        /\ (pw_prize_text item <> fallback_prize_text ->
            lw_prize_text r2 <> pw_prize_text item)
        /\ Forall2 (fun q q' =>
                      same_but_stock q q'
                      /\ stock_count q'
                         = if pw_id q =? pw_id item then 0 else stock_count q)
                   (prize_warehouse db) (prize_warehouse (pass [w1; w2]))).
Proof.
  intro pass. split; [apply distributePrizes_records|].
  split; [intros k winner Hk; apply (distributePrizes_turn client lottery now winners db k winner Hk)|].
  split; [apply distributePrizes_tables|].
  intros Hin Hnd Hw Hs Honly.
  destruct (last_unit_pass client lottery now db item w1 w2 Hin Hnd Hw Hs Honly)
    as (r1 & r2 & Hn & U1 & T1 & U2 & T2 & Hstock).
  pose proof (distributePrizes_records client lottery now [w1; w2] db) as Hrec.
  fold (pass [w1; w2]) in Hn, Hstock, Hrec. rewrite Hn in Hrec.
  inversion Hrec as [|? ? ? ? R1 Hrec']; subst.
  inversion Hrec' as [|? ? ? ? R2 _]; subst.
  exists r1, r2. repeat (split; [assumption|]).
  split; [rewrite T2; congruence|assumption].
Qed.

Lemma distributePrizes_in_order_witness :
  let table := [mk_prize 1 "w1" "" 0 0 0; mk_prize 2 "w1" "gift card" 1 1 0;
                mk_prize 3 "w2" "sticker" 3 1 0] in
  let a := mk_participant 1 1 "1001" (Some "alice") None None 10 in
  let b := mk_participant 2 1 "1002" None (Some "Bob") None 11 in
  let after m client :=
    distributePrizes client (example_lottery 3 2 m) 100 [a; b]
                     (set_prize_warehouse (example_db 3 2 m 1) table) in
  let shown db := map (fun r => (lw_user_id r, lw_prize_text r, lw_status r))
                      (lottery_winners db) in
  let bob_only := mk_client (fun uid => String.eqb uid "1002") (fun _ => true) in
  shown (after CLAIM reliable_client)
  = [("1001", "gift card", PENDING); ("1002", "恭喜中奖！", PENDING)]
  /\ shown (after AUTO_SEND reliable_client)
     = [("1001", "gift card", SENT); ("1002", "恭喜中奖！", SENT)]
  /\ shown (after AUTO_SEND bob_only)
     = [("1001", "gift card", PENDING); ("1002", "恭喜中奖！", SENT)]
  /\ map stock_count (prize_warehouse (after AUTO_SEND reliable_client)) = [0; 0; 3]
  /\ exists r1 r2,
       new_winners (set_prize_warehouse (example_db 3 2 AUTO_SEND 1) table)
                   (after AUTO_SEND reliable_client) = [r1; r2]
       /\ record_of_pass reliable_client (example_lottery 3 2 AUTO_SEND) 100 a r1
       /\ record_of_pass reliable_client (example_lottery 3 2 AUTO_SEND) 100 b r2
       /\ lw_prize_text r1 = "gift card"
       /\ lw_prize_text r2 = fallback_prize_text
       /\ ("gift card" <> fallback_prize_text -> lw_prize_text r2 <> "gift card")
       /\ Forall2 (fun q q' =>
                     same_but_stock q q'
                     /\ stock_count q' = if pw_id q =? 2 then 0 else stock_count q)
                  table (prize_warehouse (after AUTO_SEND reliable_client)).
Proof.
  intros table a b after shown bob_only.
  split; [reflexivity|]. split; [reflexivity|]. split; [reflexivity|].
  split; [reflexivity|].
  apply (proj2 (proj2 (proj2
           (distributePrizes_in_order reliable_client (example_lottery 3 2 AUTO_SEND) 100
              [] (set_prize_warehouse (example_db 3 2 AUTO_SEND 1) table)
              (mk_prize 2 "w1" "gift card" 1 1 0) a b)))).
  - simpl. tauto.
  - vm_compute. repeat (constructor; [simpl; intuition congruence|]). constructor.
  - reflexivity.
  - reflexivity.
  - intros q [<-|[<-|[<-|[]]]]; simpl; intros Hw Hs;
      first [reflexivity | lia | discriminate].
Defined.

(** * A draw whose result message is not delivered *)

(** C7 fails on the code when the result message cannot be delivered.  The
    status is written after the awaited [sendMessage]; when that throws, the
    draw ends in its [catch]: it reports a failure, the lottery table is as
    it was, so the lottery keeps the status it had, and yet the winner
    records, [min(winner_count, n)] of them, are written. *)
Theorem undelivered_result_skips_completion (client : Client) (random : nat -> nat)
    (now : Z) (lottery : lottery_row) (db : DB) :
  chat_message_ok client (chat_id lottery) = false ->
  let r := performLotteryDraw client random now lottery db in
  fst r = DrawFailed
  /\ lottery_config (snd r) = lottery_config db
  /\ lottery_status (lc_id lottery) (snd r) = lottery_status (lc_id lottery) db
  /\ (0 <= winner_count lottery ->
      length (new_winners db (snd r))
      = Z.to_nat (Z.min (winner_count lottery) (count_participants (lc_id lottery) db))).
Proof.
  intros Hmsg r.
  pose proof (getLotteryParticipants_count (lc_id lottery) db) as Hcount.
  unfold r, performLotteryDraw. rewrite Hmsg.
  set (participants := getLotteryParticipants (lc_id lottery) db) in *.
  destruct (length participants =? 0)%nat eqn:En; simpl.
  - apply Nat.eqb_eq in En. repeat split.
    intros Hwc. unfold new_winners. rewrite skipn_all, <- Hcount, En.
    simpl. rewrite Z.min_r by lia. reflexivity.
  - set (winners := slice0 (fisher_yates random participants)
                           (Z.min (winner_count lottery) (Z.of_nat (length participants)))).
    destruct (distributePrizes_rows client lottery now winners db) as (Dc & _ & Du & _).
    split; [reflexivity|]. split; [exact Dc|].
    split; [apply lottery_status_config; exact Dc|].
    intro Hwc.
    rewrite <- (length_map lw_user_id), Du, length_map.
    pose proof (Permutation_length (fisher_yates_perm random participants)) as Hlen.
    destruct (slice0_clamped (fisher_yates random participants) (winner_count lottery) Hwc)
      as [_ Hs].
    rewrite Hlen in Hs. fold winners in Hs. rewrite Hs, Hcount. reflexivity.
Qed.

Lemma undelivered_result_skips_completion_witness :
  let muted := mk_client (fun _ => true) (fun _ => false) in
  let lottery := example_lottery 5 1 AUTO_SEND in
  let db := join_all [(1, alice, 10); (1, bob, 11)] (example_db 5 1 AUTO_SEND 5) in
  let r := performLotteryDraw muted (fun _ => 0%nat) 100 lottery db in
  let r0 := performLotteryDraw muted (fun _ => 0%nat) 100 lottery
                               (example_db 5 1 AUTO_SEND 5) in
  (fst r = DrawFailed
   /\ lottery_config (snd r) = lottery_config db
   /\ lottery_status 1 (snd r) = lottery_status 1 db
   /\ (0 <= winner_count lottery ->
       length (new_winners db (snd r))
       = Z.to_nat (Z.min (winner_count lottery) (count_participants 1 db))))
  /\ lottery_status 1 (snd r) = Some active
  /\ map (fun w => (lw_user_id w, lw_status w)) (lottery_winners (snd r)) = [("1002", SENT)]
  /\ total_stock (snd r) = 4
  /\ fst r0 = DrawFailed
  /\ lottery_status 1 (snd r0) = Some active.
Proof.
  intros muted lottery db r r0.
  split; [|repeat split; reflexivity].
  apply (undelivered_result_skips_completion muted (fun _ => 0%nat) 100 lottery db).
  reflexivity.
Defined.

(** * Text escaping: [htmlEscape] *)

Lemma string_app_assoc (a b c : string) :
  ((a ++ b) ++ c = a ++ (b ++ c))%string.
Proof. induction a as [|x a IH]; simpl; [reflexivity|]. rewrite IH. reflexivity. Qed.

Lemma replace_char_app (c : Ascii.ascii) (r a b : string) :
  replace_char c r (a ++ b) = (replace_char c r a ++ replace_char c r b)%string.
Proof.
  induction a as [|x a IH]; simpl; [reflexivity|].
  destruct (Ascii.eqb x c); simpl; rewrite IH; [|reflexivity].
  symmetry. apply string_app_assoc.
Qed.

Lemma replace_char_cons (c : Ascii.ascii) (r : string) (a : Ascii.ascii) (t : string) :
  replace_char c r (String a t)
  = if Ascii.eqb a c then (r ++ replace_char c r t)%string
    else String a (replace_char c r t).
Proof. reflexivity. Qed.

Lemma htmlEscape_cons (c : Ascii.ascii) (t : string) :
  htmlEscape (String c t) = (escape_char c ++ htmlEscape t)%string.
Proof.
  unfold htmlEscape, escape_char.
  rewrite (replace_char_cons "&"%char).
  destruct (Ascii.eqb c "&"%char); [rewrite !replace_char_app; reflexivity|].
  rewrite (replace_char_cons "<"%char).
  destruct (Ascii.eqb c "<"%char); [rewrite !replace_char_app; reflexivity|].
  rewrite (replace_char_cons ">"%char).
  destruct (Ascii.eqb c ">"%char); [rewrite !replace_char_app; reflexivity|].
  rewrite (replace_char_cons dquote).
  destruct (Ascii.eqb c dquote); [rewrite !replace_char_app; reflexivity|].
  rewrite (replace_char_cons "'"%char).
  destruct (Ascii.eqb c "'"%char); reflexivity.
Qed.

Lemma list_ascii_of_string_app (a b : string) :
  list_ascii_of_string (a ++ b) = (list_ascii_of_string a ++ list_ascii_of_string b)%list.
Proof. induction a as [|x a IH]; simpl; [reflexivity|]. rewrite IH. reflexivity. Qed.

Lemma escape_char_safe (c x : Ascii.ascii) :
  In x (list_ascii_of_string (escape_char c)) ->
  x <> "<"%char /\ x <> ">"%char /\ x <> dquote /\ x <> "'"%char.
Proof.
  unfold escape_char.
  destruct (Ascii.eqb_spec c "&"%char);
    [simpl; intuition (subst; discriminate)|].
  destruct (Ascii.eqb_spec c "<"%char);
    [simpl; intuition (subst; discriminate)|].
  destruct (Ascii.eqb_spec c ">"%char);
    [simpl; intuition (subst; discriminate)|].
  destruct (Ascii.eqb_spec c dquote);
    [simpl; intuition (subst; discriminate)|].
  destruct (Ascii.eqb_spec c "'"%char);
    [simpl; intuition (subst; discriminate)|].
  simpl. intros [<-|[]]. tauto.
Qed.

(** [htmlEscape] leaves no [<], [>], double quote or apostrophe in its
    output, and returns a text that has none of the five replaced characters
    as it is. *)
Theorem htmlEscape_safe (text : string) :
  (forall x, In x (list_ascii_of_string (htmlEscape text)) ->
             x <> "<"%char /\ x <> ">"%char /\ x <> dquote /\ x <> "'"%char)
  /\ ((forall x, In x (list_ascii_of_string text) -> markup_char x = false) ->
      htmlEscape text = text).
Proof.
  induction text as [|c t [IH1 IH2]].
  - split; [intros x []|reflexivity].
  - rewrite htmlEscape_cons. split.
    + intros x Hx. rewrite list_ascii_of_string_app in Hx.
      apply in_app_or in Hx. destruct Hx as [Hx|Hx];
        [eapply escape_char_safe; eassumption|apply IH1; assumption].
    + intro H. rewrite IH2 by (intros x Hx; apply H; right; assumption).
      assert (Hc : markup_char c = false) by (apply H; left; reflexivity).
      unfold markup_char in Hc. unfold escape_char.
      repeat (apply orb_false_iff in Hc; destruct Hc as [Hc ?]).
      repeat match goal with E : Ascii.eqb _ _ = false |- _ => rewrite E; clear E end.
      reflexivity.
Qed.

Lemma htmlEscape_safe_witness :
  htmlEscape "a<b> & 'c'" = "a&lt;b&gt; &amp; &#x27;c&#x27;"
  /\ htmlEscape "plain text" = "plain text".
Proof.
  split; [reflexivity|].
  apply (proj2 (htmlEscape_safe "plain text")).
  intros x Hx. simpl in Hx.
  repeat (destruct Hx as [<-|Hx]; [reflexivity|]). contradiction.
Defined.

(** [htmlEscape] never makes two different texts the same. *)
Theorem htmlEscape_injective (s1 s2 : string) :
  htmlEscape s1 = htmlEscape s2 -> s1 = s2.
Proof.
  revert s2. induction s1 as [|c1 t1 IH]; intros [|c2 t2] H.
  - reflexivity.
  - exfalso. rewrite htmlEscape_cons in H. unfold escape_char in H.
    change (htmlEscape "") with EmptyString in H.
    repeat match type of H with
           | context [Ascii.eqb ?c ?k] => destruct (Ascii.eqb c k)
           end; discriminate.
  - exfalso. rewrite htmlEscape_cons in H. unfold escape_char in H.
    change (htmlEscape "") with EmptyString in H.
    repeat match type of H with
           | context [Ascii.eqb ?c ?k] => destruct (Ascii.eqb c k)
           end; discriminate.
  - rewrite !htmlEscape_cons in H. unfold escape_char in H.
    repeat match type of H with
           | context [Ascii.eqb ?c ?k] => destruct (Ascii.eqb_spec c k)
           end;
      simpl in H; try discriminate H;
      injection H as H; subst;
      try congruence;
      try (f_equal; apply IH; assumption);
      try (repeat (injection H as ? H); congruence);
      try (repeat (injection H as ? H); f_equal; apply IH; assumption).
Qed.

Lemma htmlEscape_injective_witness :
  htmlEscape "<b>" = htmlEscape "<b>" /\ "<b>" = "<b>".
Proof.
  split; [reflexivity|]. apply htmlEscape_injective. reflexivity.
Defined.

(** * Prize warehouses: management *)

Lemma insert_name_in (s x : string) (l : list string) :
  In x (insert_name s l) <-> x = s \/ In x l.
Proof.
  induction l as [|t r IH]; simpl; [intuition|].
  destruct (String.eqb_spec s t) as [->|Hne]; simpl; [intuition|].
  destruct (String.ltb s t); simpl; [intuition|].
  rewrite IH. intuition.
Qed.

Lemma getPrizeWarehouses_in (x : string) (db : DB) :
  In x (getPrizeWarehouses db) <-> exists p, In p (prize_warehouse db) /\ warehouse_name p = x.
Proof.
  unfold getPrizeWarehouses.
  induction (prize_warehouse db) as [|p t IH]; simpl.
  - split; [intros []|intros (p & [] & _)].
  - rewrite insert_name_in, IH. split.
    + intros [->|(q & Hq & Hx)]; [exists p; auto|exists q; auto].
    + intros (q & [<-|Hq] & Hx); [left; auto|right; exists q; auto].
Qed.






Lemma first_by_order_app_last (l : list prize_row) (p row : prize_row) :
  first_by_order l = Some p ->
  (forall q, In q l -> order_index q < order_index row) ->
  first_by_order (l ++ [row]) = Some p.
Proof.
  revert p. induction l as [|a t IH]; intros p H Hlt; [discriminate|].
  simpl in H. simpl.
  destruct (first_by_order t) as [b|] eqn:E.
  - rewrite (IH b eq_refl) by (intros q Hq; apply Hlt; right; assumption).
    assumption.
  - apply first_by_order_none in E. subst t. simpl.
    injection H as <-.
    assert (order_index a < order_index row) by (apply Hlt; left; reflexivity).
    replace (order_index row <? order_index a) with false
      by (symmetry; apply Z.ltb_ge; lia).
    reflexivity.
Qed.

Lemma max_order_index_bound (name : string) (db : DB) (q : prize_row) :
  In q (prize_warehouse db) -> warehouse_name q = name ->
  exists m, max_order_index name db = Some m /\ order_index q <= m.
Proof.
  unfold max_order_index.
  induction (prize_warehouse db) as [|a t IH]; intros Hin Hw; [contradiction|].
  simpl. destruct Hin as [->|Hin].
  - apply String.eqb_eq in Hw. rewrite Hw.
    destruct (fold_right _ None t) as [m|]; eexists; split; try reflexivity; lia.
  - destruct (IH Hin Hw) as (m & Hm & Hle). rewrite Hm.
    destruct (String.eqb (warehouse_name a) name); eexists; split; try reflexivity; lia.
Qed.

Lemma next_order_index_after (name : string) (db : DB) (q : prize_row) :
  In q (prize_warehouse db) -> warehouse_name q = name ->
  order_index q < next_order_index name db.
Proof.
  intros Hin Hw. destruct (max_order_index_bound name db q Hin Hw) as (m & Hm & Hle).
  unfold next_order_index. rewrite Hm. cbv zeta.
  destruct (Z.eqb_spec (m + 1) 0); lia.
Qed.

Lemma restock_absent (e : prize_row) (stock : Z) (t : list prize_row) :
  ~ In (pw_id e) (map pw_id t) ->
  map (fun p => if pw_id p =? pw_id e then set_stock p (stock_count p + stock) else p) t = t.
Proof.
  induction t as [|a t IH]; intro H; [reflexivity|]. simpl in *.
  destruct (Z.eqb_spec (pw_id a) (pw_id e)) as [Heq|_]; [exfalso; apply H; left; assumption|].
  rewrite IH by tauto. reflexivity.
Qed.

Lemma restock_total (e : prize_row) (stock : Z) (t : list prize_row) :
  NoDup (map pw_id t) -> In e t ->
  fold_right Z.add 0
    (map stock_count
       (map (fun p => if pw_id p =? pw_id e then set_stock p (stock_count p + stock) else p) t))
  = fold_right Z.add 0 (map stock_count t) + stock.
Proof.
  induction t as [|a t IH]; intros Hnd Hin; [contradiction|].
  simpl in Hnd. inversion Hnd as [|x l Hnotin Hnd']; subst. simpl.
  destruct Hin as [->|Hin].
  - rewrite Z.eqb_refl. rewrite restock_absent by assumption. simpl. lia.
  - destruct (Z.eqb_spec (pw_id a) (pw_id e)) as [Heq|_].
    + exfalso. apply Hnotin. rewrite Heq. apply in_map. assumption.
    + rewrite IH by assumption. lia.
Qed.

Lemma restock_rows (e : prize_row) (stock : Z) (t : list prize_row) :
  Forall2 (fun q q' => same_but_stock q q'
                       /\ stock_count q' = if pw_id q =? pw_id e
                                           then stock_count q + stock else stock_count q)
          t (map (fun p => if pw_id p =? pw_id e
                           then set_stock p (stock_count p + stock) else p) t).
Proof.
  induction t as [|a t IH]; simpl; constructor; [|assumption].
  unfold same_but_stock. destruct (pw_id a =? pw_id e); simpl; repeat split; reflexivity.
Qed.

(** [addPrizeToWarehouse] adds exactly [stock] units to the table.  When a
    row of the warehouse already carries the text, that row's stock grows
    and nothing else changes: no row is added, and the prize keeps its
    place in the order.  Otherwise one row is appended with the given
    stock, ordered after every row of the warehouse, so that the prize
    handed out next stays the same as long as the warehouse had one; the
    other warehouses hand out what they did. *)
Theorem addPrizeToWarehouse_stock (warehouseName prizeText : string) (stock now : Z)
    (db : DB) :
  NoDup (map pw_id (prize_warehouse db)) ->
  let db' := addPrizeToWarehouse warehouseName prizeText stock now db in
  total_stock db' = total_stock db + stock
  /\ ((exists e, In e (prize_warehouse db) /\ warehouse_name e = warehouseName
                 /\ pw_prize_text e = prizeText
                 /\ Forall2 (fun q q' =>
                               same_but_stock q q'
                               /\ stock_count q' = if pw_id q =? pw_id e
                                                   then stock_count q + stock
                                                   else stock_count q)
                            (prize_warehouse db) (prize_warehouse db'))
      \/ ((forall q, In q (prize_warehouse db) -> warehouse_name q = warehouseName ->
                     pw_prize_text q <> prizeText)
          /\ exists row,
               prize_warehouse db' = (prize_warehouse db ++ [row])%list
               /\ warehouse_name row = warehouseName /\ pw_prize_text row = prizeText
               /\ stock_count row = stock /\ pw_id row = seq_prizes db + 1
               /\ (forall q, In q (prize_warehouse db) -> warehouse_name q = warehouseName ->
                             order_index q < order_index row)
               /\ (forall p, getNextAvailablePrize warehouseName db = Some p ->
                             getNextAvailablePrize warehouseName db' = Some p)
               /\ (forall other, other <> warehouseName ->
                                 getNextAvailablePrize other db'
                                 = getNextAvailablePrize other db))).
Proof.
  intros Hnd db'. unfold db', addPrizeToWarehouse.
  destruct (find _ (prize_warehouse db)) as [e|] eqn:E.
  - pose proof (find_some _ _ E) as [Hin Hm].
    apply andb_true_iff in Hm. destruct Hm as [Hw Ht].
    apply String.eqb_eq in Hw, Ht.
    split.
    + unfold total_stock. simpl. apply restock_total; assumption.
    + left. exists e. repeat split; try assumption. simpl. apply restock_rows.
  - assert (Hnone : forall q, In q (prize_warehouse db) -> warehouse_name q = warehouseName ->
                              pw_prize_text q <> prizeText).
    { intros q Hq Hw Ht. pose proof (find_none _ _ E q Hq) as Hf. simpl in Hf.
      apply String.eqb_eq in Hw, Ht. rewrite Hw, Ht in Hf. discriminate. }
    split.
    + unfold total_stock. simpl. rewrite map_app, fold_right_app. simpl.
      generalize (map stock_count (prize_warehouse db)) as l.
      induction l as [|x l IH]; simpl; lia.
    + right. split; [assumption|].
      eexists. split; [reflexivity|]. simpl.
      repeat split.
      * intros q Hq Hw. apply next_order_index_after; assumption.
      * intros p Hp. unfold getNextAvailablePrize in *. simpl.
        rewrite filter_app. simpl.
        destruct (in_stock warehouseName _).
        -- apply first_by_order_app_last; [assumption|].
           intros q Hq. apply filter_In in Hq. destruct Hq as [Hq Hs].
           apply in_stock_iff in Hs. simpl.
           apply next_order_index_after; tauto.
        -- rewrite app_nil_r. assumption.
      * intros other Hne. unfold getNextAvailablePrize. simpl.
        rewrite filter_app. simpl. unfold in_stock at 2. simpl.
        replace (String.eqb warehouseName other) with false
          by (symmetry; apply String.eqb_neq; congruence).
        simpl. rewrite app_nil_r. reflexivity.
Qed.

Lemma addPrizeToWarehouse_stock_witness :
  let db := set_prize_warehouse (example_db 2 1 CLAIM 5)
              [mk_prize 1 "w1" "" 0 0 0; mk_prize 2 "w1" "gift card" 2 1 0] in
  total_stock (addPrizeToWarehouse "w1" "gift card" 3 9 db) = 5
  /\ map stock_count (prize_warehouse (addPrizeToWarehouse "w1" "gift card" 3 9 db)) = [0; 5]
  /\ total_stock (addPrizeToWarehouse "w1" "sticker" 3 9 db) = 5
  /\ map order_index (prize_warehouse (addPrizeToWarehouse "w1" "sticker" 3 9 db)) = [0; 1; 2]
  /\ option_map pw_prize_text
       (getNextAvailablePrize "w1" (addPrizeToWarehouse "w1" "sticker" 3 9 db))
     = Some "gift card".
Proof.
  pose proof (addPrizeToWarehouse_stock "w1" "gift card" 3 9
                (set_prize_warehouse (example_db 2 1 CLAIM 5)
                   [mk_prize 1 "w1" "" 0 0 0; mk_prize 2 "w1" "gift card" 2 1 0])) as H1.
  pose proof (addPrizeToWarehouse_stock "w1" "sticker" 3 9
                (set_prize_warehouse (example_db 2 1 CLAIM 5)
                   [mk_prize 1 "w1" "" 0 0 0; mk_prize 2 "w1" "gift card" 2 1 0])) as H2.
  assert (Hnd : NoDup (map pw_id [mk_prize 1 "w1" "" 0 0 0; mk_prize 2 "w1" "gift card" 2 1 0])).
  { simpl. repeat constructor; simpl; intuition lia. }
  specialize (H1 Hnd). specialize (H2 Hnd).
  cbv zeta in *. destruct H1 as [H1 _]. destruct H2 as [H2 _].
  repeat split; try exact H1; try exact H2; reflexivity.
Defined.

Lemma filter_filter_implied {A : Type} (f g : A -> bool) (l : list A) :
  (forall x, In x l -> f x = true -> g x = true) ->
  filter f (filter g l) = filter f l.
Proof.
  induction l as [|a t IH]; intro H; [reflexivity|]. simpl.
  assert (Ht : forall x, In x t -> f x = true -> g x = true)
    by (intros x Hx; apply H; right; assumption).
  destruct (g a) eqn:G; simpl.
  - rewrite IH by assumption. reflexivity.
  - destruct (f a) eqn:F.
    + rewrite (H a (or_introl eq_refl) F) in G. discriminate.
    + apply IH. assumption.
Qed.

Lemma filter_filter_excluded {A : Type} (f g : A -> bool) (l : list A) :
  (forall x, In x l -> f x = true -> g x = false) ->
  filter f (filter g l) = [].
Proof.
  intro H. apply filter_nothing. intros x Hx.
  apply filter_In in Hx. destruct Hx as [Hx G].
  destruct (f x) eqn:F; [|reflexivity].
  rewrite (H x Hx F) in G. discriminate.
Qed.

Lemma find_filter_implied {A : Type} (f g : A -> bool) (l : list A) :
  (forall x, In x l -> f x = true -> g x = true) ->
  find f (filter g l) = find f l.
Proof.
  induction l as [|a t IH]; intro H; [reflexivity|]. simpl.
  assert (Ht : forall x, In x t -> f x = true -> g x = true)
    by (intros x Hx; apply H; right; assumption).
  destruct (g a) eqn:G; simpl.
  - rewrite IH by assumption. reflexivity.
  - destruct (f a) eqn:F.
    + rewrite (H a (or_introl eq_refl) F) in G. discriminate.
    + apply IH. assumption.
Qed.

(** [clearWarehouse] removes the rows of the named warehouse and no other:
    the warehouse is gone from the list of warehouses and has no prize to
    hand out, every other warehouse lists and hands out what it did, and
    the number returned is the number of rows removed, zero exactly when
    the warehouse did not exist. *)
Theorem clearWarehouse_only_named (warehouseName : string) (db : DB) :
  let r := clearWarehouse warehouseName db in
  (forall p, In p (prize_warehouse (snd r))
             <-> In p (prize_warehouse db) /\ warehouse_name p <> warehouseName)
  /\ ~ In warehouseName (getPrizeWarehouses (snd r))
  /\ getNextAvailablePrize warehouseName (snd r) = None
  /\ getWarehousePrizes warehouseName (snd r) = []
  /\ (forall other, other <> warehouseName ->
        getNextAvailablePrize other (snd r) = getNextAvailablePrize other db
        /\ getWarehousePrizes other (snd r) = getWarehousePrizes other db
        /\ (In other (getPrizeWarehouses (snd r)) <-> In other (getPrizeWarehouses db)))
  /\ Z.of_nat (length (prize_warehouse (snd r)))
     = Z.of_nat (length (prize_warehouse db)) - fst r
  /\ (fst r = 0 <-> ~ In warehouseName (getPrizeWarehouses db))
  /\ lottery_config (snd r) = lottery_config db
  /\ lottery_winners (snd r) = lottery_winners db.
Proof.
  intro r. unfold r, clearWarehouse. simpl.
  assert (Hin : forall p, In p (filter (fun p => negb (String.eqb (warehouse_name p) warehouseName))
                                       (prize_warehouse db))
                          <-> In p (prize_warehouse db) /\ warehouse_name p <> warehouseName).
  { intro p. rewrite filter_In, negb_true_iff, String.eqb_neq. tauto. }
  assert (Hgone : filter (in_stock warehouseName)
                    (filter (fun p => negb (String.eqb (warehouse_name p) warehouseName))
                            (prize_warehouse db)) = []).
  { apply filter_filter_excluded. intros x _ Hx. apply in_stock_iff in Hx.
    apply negb_false_iff, String.eqb_eq. tauto. }
  assert (Hkept : forall other, other <> warehouseName ->
            filter (in_stock other)
              (filter (fun p => negb (String.eqb (warehouse_name p) warehouseName))
                      (prize_warehouse db))
            = filter (in_stock other) (prize_warehouse db)).
  { intros other Hne. apply filter_filter_implied. intros x _ Hx. apply in_stock_iff in Hx.
    apply negb_true_iff, String.eqb_neq. destruct Hx as [Hx _]. congruence. }
  split; [exact Hin|].
  split.
  { rewrite getPrizeWarehouses_in. simpl. intros (p & Hp & Hw). apply Hin in Hp. tauto. }
  split; [unfold getNextAvailablePrize; simpl; rewrite Hgone; reflexivity|].
  split; [unfold getWarehousePrizes; simpl; rewrite Hgone; reflexivity|].
  split.
  { intros other Hne. unfold getNextAvailablePrize, getWarehousePrizes. simpl.
    rewrite (Hkept other Hne). repeat split.
    - rewrite getPrizeWarehouses_in. simpl. intros (p & Hp & Hw).
      apply getPrizeWarehouses_in. exists p. apply Hin in Hp. tauto.
    - rewrite getPrizeWarehouses_in. intros (p & Hp & Hw).
      apply getPrizeWarehouses_in. simpl. exists p. split; [|assumption].
      apply Hin. split; [assumption|congruence]. }
  split.
  { assert (Hlen : forall t : list prize_row,
              (length (filter (fun p => negb (String.eqb (warehouse_name p) warehouseName)) t)
               + length (filter (fun p => String.eqb (warehouse_name p) warehouseName) t)
               = length t)%nat).
    { induction t as [|a t IH]; [reflexivity|]. cbn [filter].
      destruct (String.eqb (warehouse_name a) warehouseName); cbn [negb length]; lia. }
    specialize (Hlen (prize_warehouse db)). lia. }
  split; [|split; reflexivity].
  rewrite getPrizeWarehouses_in. split.
  - intros H (p & Hp & Hw).
    assert (Hf : In p (filter (fun p => String.eqb (warehouse_name p) warehouseName)
                              (prize_warehouse db))).
    { apply filter_In. split; [assumption|]. apply String.eqb_eq. assumption. }
    assert (H0 : length (filter (fun p => String.eqb (warehouse_name p) warehouseName)
                                (prize_warehouse db)) = 0%nat) by lia.
    apply length_zero_iff_nil in H0. rewrite H0 in Hf. contradiction.
  - intro H.
    destruct (filter (fun p => String.eqb (warehouse_name p) warehouseName)
                     (prize_warehouse db)) as [|p l] eqn:E; [reflexivity|].
    exfalso. apply H. exists p.
    assert (Hp : In p (filter (fun p => String.eqb (warehouse_name p) warehouseName)
                              (prize_warehouse db))) by (rewrite E; left; reflexivity).
    apply filter_In in Hp. destruct Hp as [Hp Hw]. apply String.eqb_eq in Hw. tauto.
Qed.

Lemma clearWarehouse_only_named_witness :
  let db := set_prize_warehouse (example_db 2 1 CLAIM 5)
              [mk_prize 1 "w1" "" 0 0 0; mk_prize 2 "w1" "gift card" 2 1 0;
               mk_prize 3 "w2" "sticker" 3 1 0] in
  fst (clearWarehouse "w1" db) = 2
  /\ getPrizeWarehouses (snd (clearWarehouse "w1" db)) = ["w2"]
  /\ getNextAvailablePrize "w1" (snd (clearWarehouse "w1" db)) = None
  /\ getNextAvailablePrize "w2" (snd (clearWarehouse "w1" db))
     = getNextAvailablePrize "w2" db
  /\ option_map pw_prize_text (getNextAvailablePrize "w2" db) = Some "sticker".
Proof.
  intro db.
  destruct (clearWarehouse_only_named "w1" db) as (_ & _ & Hn & _ & Ho & _).
  assert (Hne : "w2" <> "w1") by discriminate.
  destruct (Ho "w2" Hne) as (Hk & _).
  split; [reflexivity|]. split; [reflexivity|]. split; [exact Hn|].
  split; [exact Hk|reflexivity].
Defined.


Lemma with_participant_names_other (lotteryId : Z) (db : DB) (w : winner_row) :
  lw_lottery_id w <> lotteryId ->
  with_participant_names (snd (deleteLotteryActivity lotteryId db)) w
  = with_participant_names db w.
Proof.
  intro Hne. unfold with_participant_names. simpl.
  rewrite find_filter_implied; [reflexivity|].
  intros p _ Hp. apply andb_true_iff in Hp. destruct Hp as [_ Hp].
  apply Z.eqb_eq in Hp. apply negb_true_iff, Z.eqb_neq. congruence.
Qed.

Lemma deleteLotteryActivity_cascade_rows (lotteryId : Z) (db : DB) :
  let r := deleteLotteryActivity lotteryId db in
  find_lottery lotteryId (snd r) = None
  /\ getLotteryParticipants lotteryId (snd r) = []
  /\ getLotteryWinners lotteryId (snd r) = []
  /\ prize_warehouse (snd r) = prize_warehouse db
  /\ forall other, other <> lotteryId ->
       find_lottery other (snd r) = find_lottery other db
       /\ getLotteryParticipants other (snd r) = getLotteryParticipants other db
       /\ getLotteryWinners other (snd r) = getLotteryWinners other db.
Proof.
  intro r. unfold r.
  assert (Hp0 : filter (fun p => lp_lottery_id p =? lotteryId)
                  (filter (fun p => negb (lp_lottery_id p =? lotteryId))
                          (lottery_participants db)) = []).
  { apply filter_filter_excluded. intros x _ Hx. rewrite Hx. reflexivity. }
  assert (Hw0 : filter (fun w => lw_lottery_id w =? lotteryId)
                  (filter (fun w => negb (lw_lottery_id w =? lotteryId))
                          (lottery_winners db)) = []).
  { apply filter_filter_excluded. intros x _ Hx. rewrite Hx. reflexivity. }
  split.
  { unfold find_lottery. simpl.
    destruct (find _ (filter _ (lottery_config db))) as [l|] eqn:E; [|reflexivity].
    apply find_some in E. destruct E as [Hin Hid].
    apply filter_In in Hin. destruct Hin as [_ Hn]. rewrite Hid in Hn. discriminate. }
  split; [unfold getLotteryParticipants; simpl; rewrite Hp0; reflexivity|].
  split; [unfold getLotteryWinners; simpl; rewrite Hw0; reflexivity|].
  split; [reflexivity|].
  intros other Hne.
  assert (Hp : filter (fun p => lp_lottery_id p =? other)
                 (filter (fun p => negb (lp_lottery_id p =? lotteryId))
                         (lottery_participants db))
               = filter (fun p => lp_lottery_id p =? other) (lottery_participants db)).
  { apply filter_filter_implied. intros x _ Hx. apply Z.eqb_eq in Hx.
    apply negb_true_iff, Z.eqb_neq. congruence. }
  assert (Hw : filter (fun w => lw_lottery_id w =? other)
                 (filter (fun w => negb (lw_lottery_id w =? lotteryId))
                         (lottery_winners db))
               = filter (fun w => lw_lottery_id w =? other) (lottery_winners db)).
  { apply filter_filter_implied. intros x _ Hx. apply Z.eqb_eq in Hx.
    apply negb_true_iff, Z.eqb_neq. congruence. }
  split.
  { unfold find_lottery. simpl. apply find_filter_implied.
    intros x _ Hx. apply Z.eqb_eq in Hx. apply negb_true_iff, Z.eqb_neq. congruence. }
  split; [unfold getLotteryParticipants; simpl; rewrite Hp; reflexivity|].
  unfold getLotteryWinners.
  change (lottery_winners (snd (deleteLotteryActivity lotteryId db)))
    with (filter (fun w => negb (lw_lottery_id w =? lotteryId)) (lottery_winners db)).
  rewrite Hw. f_equal. apply map_ext_in.
  intros w Hin. apply filter_In in Hin. destruct Hin as [_ Hid]. apply Z.eqb_eq in Hid.
  apply with_participant_names_other. congruence.
Qed.

(** [deleteLotteryActivity] removes the lottery with its participants and
    its winner records, and nothing of any other lottery; the prize table
    is not touched, so the units the deleted lottery's draws took out of
    stock stay out. *)
Theorem deleteLotteryActivity_cascade (lotteryId : Z) (db : DB) :
  let r := deleteLotteryActivity lotteryId db in
  fst r = true
  /\ find_lottery lotteryId (snd r) = None
  /\ count_participants lotteryId (snd r) = 0
  /\ getLotteryParticipants lotteryId (snd r) = []
  /\ getLotteryWinners lotteryId (snd r) = []
  /\ (forall w, In w (lottery_winners (snd r))
                <-> In w (lottery_winners db) /\ lw_lottery_id w <> lotteryId)
  /\ (forall other, other <> lotteryId ->
        find_lottery other (snd r) = find_lottery other db
        /\ count_participants other (snd r) = count_participants other db
        /\ getLotteryParticipants other (snd r) = getLotteryParticipants other db
        /\ getLotteryWinners other (snd r) = getLotteryWinners other db)
  /\ prize_warehouse (snd r) = prize_warehouse db.
Proof.
  intro r. unfold r.
  destruct (deleteLotteryActivity_cascade_rows lotteryId db) as (Hf & Hp & Hw & Ht & Ho).
  split; [reflexivity|].
  split; [exact Hf|].
  split.
  { unfold count_participants. simpl.
    rewrite filter_filter_excluded; [reflexivity|].
    intros x _ Hx. rewrite Hx. reflexivity. }
  split; [exact Hp|].
  split; [exact Hw|].
  split.
  { intro w. simpl. rewrite filter_In, negb_true_iff, Z.eqb_neq. tauto. }
  split; [|exact Ht].
  intros other Hne. destruct (Ho other Hne) as (H1 & H2 & H3).
  split; [exact H1|]. split; [|split; assumption].
  unfold count_participants. simpl. f_equal. f_equal.
  apply filter_filter_implied. intros x _ Hx. apply Z.eqb_eq in Hx.
  apply negb_true_iff, Z.eqb_neq. congruence.
Qed.

Lemma deleteLotteryActivity_cascade_witness :
  let db := join_all [(1, alice, 10); (1, bob, 11)] (example_db 2 1 CLAIM 5) in
  let db' := snd (performLotteryDraw reliable_client (fun _ => 0%nat) 100
                    (example_lottery 2 1 CLAIM) db) in
  count_participants 1 db' = 2
  /\ length (lottery_winners db') = 1%nat
  /\ total_stock db' = 4
  /\ find_lottery 1 (snd (deleteLotteryActivity 1 db')) = None
  /\ count_participants 1 (snd (deleteLotteryActivity 1 db')) = 0
  /\ lottery_winners (snd (deleteLotteryActivity 1 db')) = []
  /\ total_stock (snd (deleteLotteryActivity 1 db')) = 4
  /\ getLotteryWinners 1 (snd (deleteLotteryActivity 2 db')) = getLotteryWinners 1 db'.
Proof.
  intros db db'.
  destruct (deleteLotteryActivity_cascade 1 db') as (_ & Hf & Hc & _).
  destruct (deleteLotteryActivity_cascade 2 db') as (_ & _ & _ & _ & _ & _ & Ho & _).
  assert (Hne : 1 <> 2) by lia.
  destruct (Ho 1 Hne) as (_ & _ & _ & Hw).
  split; [reflexivity|]. split; [reflexivity|]. split; [reflexivity|].
  split; [exact Hf|]. split; [exact Hc|]. split; [reflexivity|].
  split; [reflexivity|exact Hw].
Defined.


(** * Eligibility: [validateUserConditions] *)

(** [validateUserConditions] treats the two lookups differently.  A bot is
    turned away first when the lottery does not allow bots.  Past that, an
    avatar lookup that throws makes the user valid at once, whatever the
    user-name and channel conditions say, while a channel lookup that
    fails makes the user invalid.  So a user found valid either went
    through a failed avatar lookup, or meets every condition the lottery
    sets; and a user who meets every condition is found valid. *)
Theorem validateUserConditions_lookups (resolver : Resolver) (user : Sender)
    (lottery : lottery_row) :
  let v := validateUserConditions resolver user lottery in
  (allow_bots lottery = false -> sender_bot user = true -> v = Some BotsNotAllowed)
  /\ (allow_bots lottery = true \/ sender_bot user = false ->
      require_avatar lottery = true ->
      avatar_of resolver (sender_id user) = AvatarLookupThrows ->
      v = None)
  /\ (v = None ->
      (allow_bots lottery = true \/ sender_bot user = false)
      /\ ((require_avatar lottery = true
           /\ avatar_of resolver (sender_id user) = AvatarLookupThrows)
          \/ ((require_avatar lottery = true ->
               avatar_of resolver (sender_id user) = AvatarPresent)
              /\ (require_username lottery = true ->
                  exists u, sender_username user = Some u /\ u <> "")
              /\ (forall channel, required_channel lottery = Some channel ->
                                  channel <> "" ->
                                  channel_member resolver channel (sender_id user) = true))))
  /\ (allow_bots lottery = true \/ sender_bot user = false ->
      (require_avatar lottery = true ->
       avatar_of resolver (sender_id user) = AvatarPresent) ->
      (require_username lottery = true ->
       exists u, sender_username user = Some u /\ u <> "") ->
      (forall channel, required_channel lottery = Some channel -> channel <> "" ->
                       channel_member resolver channel (sender_id user) = true) ->
      v = None).
Proof.
  intro v. unfold v, validateUserConditions.
  split; [intros -> ->; reflexivity|].
  split.
  { intros Hb -> ->.
    destruct Hb as [-> | ->]; [reflexivity|]. rewrite andb_false_r. reflexivity. }
  apply and_comm. split.
  { intros Hb Ha Hu Hc.
    replace (negb (allow_bots lottery) && sender_bot user) with false
      by (destruct Hb as [-> | ->]; [reflexivity|rewrite andb_false_r; reflexivity]).
    destruct (require_avatar lottery); [rewrite (Ha eq_refl)|];
      (destruct (require_username lottery);
       [destruct (Hu eq_refl) as (u & -> & Hne); simpl;
        destruct (String.eqb_spec u ""); [contradiction|]|]; simpl;
       (destruct (required_channel lottery) as [channel|]; [|reflexivity]; simpl;
        destruct (String.eqb_spec channel ""); [reflexivity|];
        rewrite (Hc channel eq_refl) by assumption; reflexivity)). }
  destruct (allow_bots lottery) eqn:Ea, (sender_bot user) eqn:Eb; simpl;
    try discriminate.
  all: destruct (require_avatar lottery) eqn:Er;
    [destruct (avatar_of resolver (sender_id user)) eqn:Eav|]; try discriminate.
  all: intro H; split; [auto|].
  all: try (left; split; reflexivity).
  all: right; split; [congruence|].
  all: destruct (require_username lottery) eqn:Eu; simpl in H.
  all: unfold or_null in H.
  all: destruct (sender_username user) as [u|] eqn:Un; try discriminate.
  all: try (destruct (String.eqb_spec u "") as [Hu|Hu]; try discriminate).
  all: split; [try discriminate; try (intros _; exists u; split; [reflexivity|assumption])|].
  all: intros channel Hc Hne; rewrite Hc in H.
  all: destruct (String.eqb_spec channel "") as [Hce|_]; [contradiction|].
  all: destruct (channel_member resolver channel (sender_id user)); [reflexivity|discriminate].
Qed.

Lemma validateUserConditions_lookups_witness :
  validateUserConditions unreachable_resolver anonymous strict_lottery = None
  /\ validateUserConditions obliging_resolver anonymous strict_lottery
     = Some UsernameRequired
  /\ validateUserConditions (mk_resolver (fun _ => AvatarPresent) (fun _ _ => false))
                            dave strict_lottery
     = Some ChannelRequired.
Proof.
  split; [|split; reflexivity].
  apply (proj1 (proj2 (validateUserConditions_lookups unreachable_resolver anonymous
                         strict_lottery))).
  - right. reflexivity.
  - reflexivity.
  - reflexivity.
Defined.

(** * The join listener: [handleEnhancedLotteryJoin] *)

Lemma is_participant_ordered (lotteryId : Z) (userId : string) (db : DB) :
  existsb (fun p => String.eqb (lp_user_id p) userId) (getLotteryParticipants lotteryId db)
  = is_participant lotteryId userId db.
Proof.
  apply eq_true_iff_eq. rewrite is_participant_iff.
  rewrite existsb_exists. split.
  - intros (p & Hp & Hu). apply String.eqb_eq in Hu. subst userId.
    eapply Permutation_in; [apply getLotteryParticipants_ids|].
    apply in_map. assumption.
  - intro Hin.
    eapply Permutation_in in Hin; [|apply Permutation_sym, getLotteryParticipants_ids].
    apply in_map_iff in Hin. destruct Hin as (p & Hu & Hp).
    exists p. split; [assumption|]. apply String.eqb_eq. assumption.
Qed.

(** What a message can do through the listener.  Whatever is not a
    successful join leaves the database as it was.  A successful join
    answers a message whose trimmed text is the keyword of the chat's
    active lottery, from a sender who is not a bot, was not taking part
    and passed [validateUserConditions]; it adds that sender to this
    lottery, the count it reports is the old count plus one and is within
    the capacity, and the draw runs at once, on the lottery with the new
    participant in, exactly when that count reaches the capacity. *)
Theorem join_listener_effects (trim : string -> string) (client : Client)
    (resolver : Resolver) (random : nat -> nat) (now : Z) (msg : JoinMessage) (db : DB) :
  let r := handleEnhancedLotteryJoin trim client resolver random now msg db in
  match fst r with
  | Joined currentCount draw =>
      exists chatId lottery sender db1,
        jm_chat_id msg = Some chatId
        /\ getActiveLottery chatId db = Some lottery
        /\ trim (jm_message msg) = keyword lottery
        /\ jm_sender msg = Some sender
        /\ sender_bot sender = false
        /\ validateUserConditions resolver sender lottery = None
        /\ is_participant (lc_id lottery) (sender_id sender) db = false
        /\ addParticipantToLottery (lc_id lottery)
             (mk_user (sender_id sender) (or_null (sender_username sender))
                      (or_null (sender_firstName sender))
                      (or_null (sender_lastName sender))) now db = (true, db1)
        /\ is_participant (lc_id lottery) (sender_id sender) db1 = true
        /\ currentCount = count_participants (lc_id lottery) db + 1
        /\ currentCount = count_participants (lc_id lottery) db1
        /\ (exists stored, find_lottery (lc_id lottery) db = Some stored
                           /\ currentCount <= max_participants stored)
        /\ match draw with
           | None => currentCount < max_participants lottery /\ snd r = db1
           | Some outcome =>
               max_participants lottery <= currentCount
               /\ (outcome, snd r) = performLotteryDraw client random now lottery db1
           end
  | _ => snd r = db
  end.
Proof.
  intro r. unfold r, handleEnhancedLotteryJoin.
  destruct (String.eqb (jm_message msg) "" || negb (jm_has_sender_id msg)
            || negb (jm_has_client msg)); [reflexivity|].
  destruct (jm_chat_id msg) as [chatId|]; [|reflexivity].
  destruct (getActiveLottery chatId db) as [lottery|] eqn:Ea; [|reflexivity].
  destruct (String.eqb_spec (trim (jm_message msg)) (keyword lottery)) as [Hk|_];
    [|reflexivity].
  cbn [negb].
  destruct (jm_sender msg) as [sender|]; [|reflexivity].
  destruct (sender_bot sender) eqn:Eb; [reflexivity|].
  rewrite is_participant_ordered.
  destruct (is_participant (lc_id lottery) (sender_id sender) db) eqn:Ep; [reflexivity|].
  destruct (validateUserConditions resolver sender lottery) eqn:Ev; [reflexivity|].
  set (userInfo := mk_user (sender_id sender) (or_null (sender_username sender))
                           (or_null (sender_firstName sender))
                           (or_null (sender_lastName sender))).
  destruct (admission_result (lc_id lottery) userInfo now db)
    as [(e & _ & H)|(_ & H & _ & stored & Hs & Hlt)]; rewrite H; [reflexivity|].
  cbn [negb].
  rewrite getLotteryParticipants_count.
  assert (Hc : count_participants (lc_id lottery) (insert_participant (lc_id lottery) userInfo now db)
               = count_participants (lc_id lottery) db + 1).
  { rewrite count_insert, Z.eqb_refl. reflexivity. }
  assert (Hin : is_participant (lc_id lottery) (sender_id sender)
                  (insert_participant (lc_id lottery) userInfo now db) = true).
  { unfold is_participant, insert_participant. simpl.
    rewrite existsb_app. simpl. rewrite Z.eqb_refl, String.eqb_refl. simpl.
    apply orb_true_r. }
  destruct (max_participants lottery
            <=? count_participants (lc_id lottery)
                  (insert_participant (lc_id lottery) userInfo now db)) eqn:Em.
  - destruct (performLotteryDraw client random now lottery
                (insert_participant (lc_id lottery) userInfo now db)) as [outcome db2] eqn:Ed.
    cbn [fst snd].
    exists chatId, lottery, sender, (insert_participant (lc_id lottery) userInfo now db).
    apply Z.leb_le in Em.
    repeat split; try assumption; try reflexivity.
    + exists stored. split; [assumption|lia].
    + symmetry. assumption.
  - cbn [fst snd].
    exists chatId, lottery, sender, (insert_participant (lc_id lottery) userInfo now db).
    apply Z.leb_gt in Em.
    repeat split; try assumption; try reflexivity.
    exists stored. split; [assumption|lia].
Qed.

Lemma join_listener_effects_witness :
  let db1 := snd (handleEnhancedLotteryJoin no_trim reliable_client obliging_resolver
                    (fun _ => 0%nat) 10 (join_from dave "join") strict_db) in
  let r := handleEnhancedLotteryJoin no_trim reliable_client obliging_resolver
             (fun _ => 0%nat) 11 (join_from erin "join") db1 in
  count_participants 1 db1 = 1
  /\ fst r = Joined 2 (Some WinnersAnnounced)
  /\ lottery_status 1 (snd r) = Some completed
  /\ map lw_user_id (lottery_winners (snd r)) = ["1005"]
  /\ handleEnhancedLotteryJoin no_trim reliable_client obliging_resolver
       (fun _ => 0%nat) 12 (join_from dave "join") db1 = (AlreadyJoined, db1)
  /\ handleEnhancedLotteryJoin no_trim reliable_client obliging_resolver
       (fun _ => 0%nat) 12 (join_from erin "hello") db1 = (NotForLottery, db1)
  /\ snd (handleEnhancedLotteryJoin no_trim reliable_client obliging_resolver
            (fun _ => 0%nat) 12 (join_from anonymous "join") db1) = db1.
Proof.
  intros db1 r.
  pose proof (join_listener_effects no_trim reliable_client obliging_resolver
                (fun _ => 0%nat) 12 (join_from anonymous "join") db1) as H.
  split; [reflexivity|]. split; [reflexivity|]. split; [reflexivity|].
  split; [reflexivity|]. split; [reflexivity|]. split; [reflexivity|].
  exact H.
Defined.




(** A sender flagged as a bot never joins through the listener, also when
    the lottery was set to allow bots: the message is dropped before the
    lottery's conditions are looked at, and nothing is written. *)
Theorem join_listener_drops_bots (trim : string -> string) (client : Client)
    (resolver : Resolver) (random : nat -> nat) (now : Z) (msg : JoinMessage) (db : DB)
    (sender : Sender) :
  jm_sender msg = Some sender -> sender_bot sender = true ->
  handleEnhancedLotteryJoin trim client resolver random now msg db = (NotForLottery, db).
Proof.
  intros Hs Hb. unfold handleEnhancedLotteryJoin.
  destruct (String.eqb (jm_message msg) "" || negb (jm_has_sender_id msg)
            || negb (jm_has_client msg)); [reflexivity|].
  destruct (jm_chat_id msg) as [chatId|]; [|reflexivity].
  destruct (getActiveLottery chatId db) as [lottery|]; [|reflexivity].
  destruct (negb (String.eqb (trim (jm_message msg)) (keyword lottery))); [reflexivity|].
  rewrite Hs, Hb. reflexivity.
Qed.

Lemma join_listener_drops_bots_witness :
  allow_bots strict_lottery = true
  /\ getActiveLottery "-100" strict_db = Some strict_lottery
  /\ handleEnhancedLotteryJoin no_trim reliable_client obliging_resolver (fun _ => 0%nat) 10
       (join_from robot "join") strict_db = (NotForLottery, strict_db)
  /\ fst (handleEnhancedLotteryJoin no_trim reliable_client obliging_resolver
            (fun _ => 0%nat) 10 (join_from dave "join") strict_db) = Joined 1 None.
Proof.
  split; [reflexivity|]. split; [reflexivity|]. split; [|reflexivity].
  apply (join_listener_drops_bots no_trim reliable_client obliging_resolver
           (fun _ => 0%nat) 10 (join_from robot "join") strict_db robot); reflexivity.
Defined.

(** * The [create] subcommand: what it asks for *)

Lemma latest_created_none (t : list lottery_row) :
  latest_created t = None -> t = [].
Proof.
  destruct t as [|a t]; [reflexivity|]. simpl.
  destruct (latest_created t) as [b|]; [|discriminate].
  destruct (created_at a <? created_at b); discriminate.
Qed.

Lemma getActiveLottery_none (chatId : string) (db : DB) (l : lottery_row) :
  getActiveLottery chatId db = None ->
  In l (lottery_config db) -> chat_id l = chatId -> lc_status l <> active.
Proof.
  unfold getActiveLottery. intros H Hin Hc Hs. apply latest_created_none in H.
  assert (Hf : In l (filter (fun l => String.eqb (chat_id l) chatId
                                      && LotteryStatus_eqb (lc_status l) active)
                            (lottery_config db))).
  { apply filter_In. split; [assumption|].
    apply andb_true_iff. split; [apply String.eqb_eq; assumption|].
    apply LotteryStatus_eqb_eq. assumption. }
  rewrite H in Hf. contradiction.
Qed.

Lemma insert_by_order_index_length (p : prize_row) (l : list prize_row) :
  length (insert_by_order_index p l) = S (length l).
Proof.
  induction l as [|q t IH]; [reflexivity|]. simpl.
  destruct (order_index p <=? order_index q); simpl; [reflexivity|].
  rewrite IH. reflexivity.
Qed.

Lemma getWarehousePrizes_length (w : string) (db : DB) :
  length (getWarehousePrizes w db)
  = length (filter (in_stock w) (prize_warehouse db)).
Proof.
  unfold getWarehousePrizes.
  induction (filter (in_stock w) (prize_warehouse db)) as [|p t IH]; [reflexivity|].
  simpl. rewrite insert_by_order_index_length, IH. reflexivity.
Qed.

Lemma getWarehouseByNameOrIndex_in (parseInt : string -> option Z) (identifier : string)
    (warehouses : list string) (selected : string) :
  getWarehouseByNameOrIndex parseInt identifier warehouses = Some selected ->
  In selected warehouses.
Proof.
  unfold getWarehouseByNameOrIndex.
  assert (Hname : (if existsb (String.eqb identifier) warehouses
                   then Some identifier else None) = Some selected ->
                  In selected warehouses).
  { destruct (existsb (String.eqb identifier) warehouses) eqn:E; [|discriminate].
    intro H. injection H as <-. apply existsb_exists in E.
    destruct E as (x & Hx & He). apply String.eqb_eq in He. subst x. assumption. }
  destruct (parseInt identifier) as [index|]; [|exact Hname].
  destruct ((1 <=? index) && (index <=? Z.of_nat (length warehouses))); [|exact Hname].
  apply nth_error_In.
Qed.

(** A [create] subcommand that does not create a lottery writes nothing.
    One that does was sent outside the sender's saved messages, to a chat
    without an active lottery, with a winner count no greater than the
    number of participants, and named (or numbered) an existing warehouse
    that has a prize in stock; the new lottery is the chat's active lottery
    afterwards, belongs to the sender, and no chat gets a second active
    lottery through it. *)
Theorem create_command_requirements (parseInt : string -> option Z)
    (toLowerCase : string -> string) (String_of : Z -> string)
    (args : list string) (chatId senderId : string) (now : Z) (db : DB) :
  let r := lottery_create parseInt toLowerCase String_of args chatId senderId now db in
  match fst r with
  | Created lotteryId =>
      chatId <> senderId
      /\ getActiveLottery chatId db = None
      /\ (exists row selected,
            lottery_config (snd r) = (lottery_config db ++ [row])%list
            /\ lc_id row = lotteryId
            /\ chat_id row = chatId
            /\ creator_id row = senderId
            /\ winner_count row <= max_participants row
            /\ In selected (getPrizeWarehouses db)
            /\ getNextAvailablePrize selected db <> None
            /\ lc_prize_warehouse row = (if String.eqb selected "" then "default" else selected)
            /\ getActiveLottery chatId (snd r) = Some row)
      /\ (one_active_per_chat db -> one_active_per_chat (snd r))
      /\ lottery_participants (snd r) = lottery_participants db
      /\ lottery_winners (snd r) = lottery_winners db
      /\ prize_warehouse (snd r) = prize_warehouse db
  | _ => snd r = db
  end.
Proof.
  intro r. unfold r, lottery_create. cbv zeta.
  destruct (String.eqb chatId senderId
            && negb ((length args =? 1)%nat
                     || (length args =? 2)%nat
                        && String.eqb (toLowerCase (arg args 1)) "list")) eqn:E1;
    [reflexivity|].
  destruct (length args <? 2)%nat; [reflexivity|].
  destruct ((length args =? 1)%nat
            || (length args =? 2)%nat && String.eqb (toLowerCase (arg args 1)) "list");
    [reflexivity|].
  rewrite andb_true_r in E1. apply String.eqb_neq in E1.
  destruct (length args <? 5)%nat; [reflexivity|].
  destruct (parseInt (arg args 3)) as [maxParticipants|]; [|reflexivity].
  destruct (parseInt (arg args 4)) as [winnerCount|]; [|reflexivity].
  destruct (maxParticipants <? winnerCount) eqn:E2; [reflexivity|].
  apply Z.ltb_ge in E2.
  destruct (getWarehouseByNameOrIndex parseInt _ (getPrizeWarehouses db))
    as [selected|] eqn:Ew; [|reflexivity].
  apply getWarehouseByNameOrIndex_in in Ew.
  destruct (length (getWarehousePrizes selected db) =? 0)%nat eqn:E3; [reflexivity|].
  apply Nat.eqb_neq in E3. rewrite getWarehousePrizes_length in E3.
  destruct (getActiveLottery chatId db) as [existing|] eqn:Ea; [reflexivity|].
  unfold createLotteryConfig. cbn [fst snd c_chat_id c_creator_id c_winner_count
    c_max_participants c_prize_warehouse lottery_config lottery_participants
    lottery_winners prize_warehouse].
  split; [assumption|]. split; [reflexivity|].
  assert (Hnone : filter (fun l => String.eqb (chat_id l) chatId
                                   && LotteryStatus_eqb (lc_status l) active)
                         (lottery_config db) = []).
  { apply latest_created_none. exact Ea. }
  split.
  { eexists. exists selected. split; [reflexivity|].
    cbn [lc_id chat_id creator_id winner_count max_participants lc_prize_warehouse].
    repeat split; try assumption; try reflexivity.
    - unfold getNextAvailablePrize. intro H. apply first_by_order_none in H.
      rewrite H in E3. apply E3. reflexivity.
    - unfold getActiveLottery. cbn [lottery_config]. rewrite filter_app, Hnone.
      cbn [filter chat_id lc_status app]. rewrite String.eqb_refl. reflexivity. }
  split; [|repeat split; reflexivity].
  intros Hone l1 l2 H1 H2 Hs1 Hs2 Hc.
  cbn [lottery_config] in H1, H2.
  apply in_app_or in H1. apply in_app_or in H2.
  destruct H1 as [H1|[<-|[]]], H2 as [H2|[<-|[]]].
  - apply Hone; assumption.
  - cbn [chat_id] in Hc. exfalso.
    apply (getActiveLottery_none chatId db l1 Ea H1 Hc Hs1).
  - cbn [chat_id] in Hc. exfalso.
    apply (getActiveLottery_none chatId db l2 Ea H2 (eq_sym Hc) Hs2).
  - reflexivity.
Qed.



Lemma create_command_requirements_witness :
  let db := set_lottery_config (example_db 3 2 CLAIM 4) [] in
  let r := lottery_create parseInt_digits (fun s => s) (fun _ => "0")
                          ["create"; "T"; "join"; "10"; "2"; "w1"] "-100" "42" 7 db in
  fst r = Created 2
  /\ one_active_per_chat (snd r)
  /\ fst (lottery_create parseInt_digits (fun s => s) (fun _ => "0")
            ["create"; "U"; "go"; "10"; "2"; "w1"] "-100" "42" 8 (snd r)) = AlreadyActive
  /\ fst (lottery_create parseInt_digits (fun s => s) (fun _ => "0")
            ["create"; "T"; "join"; "2"; "10"; "w1"] "-100" "42" 7 db) = BadNumbers
  /\ fst (lottery_create parseInt_digits (fun s => s) (fun _ => "0")
            ["create"; "T"; "join"; "10"; "2"; "w1"] "42" "42" 7 db) = NotInSavedMessages.
Proof.
  intros db r.
  pose proof (create_command_requirements parseInt_digits (fun s => s) (fun _ => "0")
                ["create"; "T"; "join"; "10"; "2"; "w1"] "-100" "42" 7 db) as H.
  assert (Hone : one_active_per_chat db) by (intros l1 l2 []).
  split; [reflexivity|].
  split; [|repeat split; reflexivity].
  assert (Hf : fst r = Created 2) by reflexivity.
  cbv zeta in H. fold r in H. rewrite Hf in H.
  exact (proj1 (proj2 (proj2 (proj2 H))) Hone).
Defined.


(** * The [delete], [winners], [claim] and [expire] subcommands *)

(** The [delete] subcommand deletes the chat's active lottery exactly when
    the sender is its creator, with its participants and winner records
    and nothing of another lottery; for anybody else, and when the chat
    has no active lottery, it writes nothing. *)
Theorem delete_command_creator_only (chatId senderId : string) (db : DB) :
  let r := lottery_delete chatId senderId db in
  (fst r = Deleted
   <-> exists l, getActiveLottery chatId db = Some l /\ creator_id l = senderId)
  /\ (fst r <> Deleted -> snd r = db)
  /\ fst r <> DeleteFailed
  /\ (forall l, getActiveLottery chatId db = Some l -> creator_id l = senderId ->
        find_lottery (lc_id l) (snd r) = None
        /\ getLotteryParticipants (lc_id l) (snd r) = []
        /\ getLotteryWinners (lc_id l) (snd r) = []
        /\ prize_warehouse (snd r) = prize_warehouse db
        /\ forall other, other <> lc_id l ->
             find_lottery other (snd r) = find_lottery other db
             /\ getLotteryParticipants other (snd r) = getLotteryParticipants other db
             /\ getLotteryWinners other (snd r) = getLotteryWinners other db).
Proof.
  intro r. unfold r, lottery_delete.
  destruct (getActiveLottery chatId db) as [l|] eqn:Ea.
  - destruct (String.eqb_spec senderId (creator_id l)) as [Hc|Hc]; cbn [negb].
    + cbn [deleteLotteryActivity fst snd].
      split; [split; [intros _; exists l; split; [reflexivity|congruence]|reflexivity]|].
      split; [intro H; exfalso; apply H; reflexivity|].
      split; [discriminate|].
      intros l' Hl' _. injection Hl' as <-.
      pose proof (deleteLotteryActivity_cascade_rows (lc_id l) db) as H.
      exact H.
    + cbn [fst snd].
      split; [split; [discriminate|intros (l' & Hl' & Hc'); congruence]|].
      split; [reflexivity|]. split; [discriminate|].
      intros l' Hl' Hc'. congruence.
  - cbn [fst snd].
    split; [split; [discriminate|intros (l' & Hl' & _); discriminate]|].
    split; [reflexivity|]. split; [discriminate|].
    intros l' Hl'. discriminate.
Qed.

Lemma delete_command_creator_only_witness :
  let db := join_all [(1, alice, 10)] (example_db 2 1 CLAIM 5) in
  fst (lottery_delete "-100" "7" db) = DeleteNotCreator
  /\ snd (lottery_delete "-100" "7" db) = db
  /\ fst (lottery_delete "-100" "42" db) = Deleted
  /\ find_lottery 1 (snd (lottery_delete "-100" "42" db)) = None
  /\ getLotteryParticipants 1 (snd (lottery_delete "-100" "42" db)) = [].
Proof.
  intro db.
  destruct (delete_command_creator_only "-100" "7" db) as (_ & H7 & _).
  destruct (delete_command_creator_only "-100" "42" db) as (_ & _ & _ & H42).
  destruct (H42 (example_lottery 2 1 CLAIM) eq_refl eq_refl) as (Hf & Hp & _).
  split; [reflexivity|].
  split; [apply H7; discriminate|].
  split; [reflexivity|].
  split; assumption.
Defined.

Lemma draw_ends_activity (client : Client) (random : nat -> nat) (now : Z)
    (lottery : lottery_row) (db : DB) :
  only_active (chat_id lottery) (lc_id lottery) db ->
  fst (performLotteryDraw client random now lottery db) <> DrawFailed ->
  getActiveLottery (chat_id lottery) (snd (performLotteryDraw client random now lottery db))
  = None.
Proof.
  intros Honly Hok.
  rewrite (getActiveLottery_config (chat_id lottery)
             (mark_completed (lc_id lottery) db)
             (snd (performLotteryDraw client random now lottery db))).
  - apply no_active_after_completion. assumption.
  - apply performLotteryDraw_config. assumption.
Qed.

(** The [winners], [claim] and [expire] subcommands all start from the
    chat's active lottery.  So once a draw has run to its end on the only
    active lottery of a chat, none of them reaches the winner records that
    draw wrote: the list is not shown, no record is marked as sent, and the
    expiry sweep is not run, from that chat. *)
Theorem completed_lottery_out_of_reach (client : Client) (random : nat -> nat)
    (now now' : Z) (lottery : lottery_row) (db : DB) (args : list string) :
  only_active (chat_id lottery) (lc_id lottery) db ->
  fst (performLotteryDraw client random now lottery db) <> DrawFailed ->
  let db' := snd (performLotteryDraw client random now lottery db) in
  lottery_winners_command (chat_id lottery) now' db' = (None, db')
  /\ snd (lottery_claim args (chat_id lottery) now' db') = db'
  /\ fst (lottery_claim args (chat_id lottery) now' db') <> ClaimMarked
  /\ lottery_expire (chat_id lottery) now' db' = (false, db').
Proof.
  intros Honly Hok db'.
  pose proof (draw_ends_activity client random now lottery db Honly Hok) as Hnone.
  fold db' in Hnone.
  unfold lottery_winners_command, lottery_claim, lottery_expire. rewrite Hnone.
  split; [reflexivity|].
  destruct (length args <? 2)%nat; repeat split; try reflexivity; discriminate.
Qed.

Lemma completed_lottery_out_of_reach_witness :
  let db := join_all [(1, alice, 10); (1, bob, 11)] (example_db 2 1 CLAIM 5) in
  let db' := snd (performLotteryDraw reliable_client (fun _ => 0%nat) 100
                    (example_lottery 2 1 CLAIM) db) in
  map (fun w => (lw_user_id w, lw_status w)) (lottery_winners db') = [("1002", PENDING)]
  /\ lottery_winners_command "-100" 200 db' = (None, db')
  /\ lottery_claim ["claim"; "1002"] "-100" 200 db' = (ClaimNoActiveLottery, db')
  /\ lottery_expire "-100" (100 + 3600 * 1000 + 1) db' = (false, db').
Proof.
  intros db db'.
  assert (Honly : only_active "-100" 1 db).
  { intros l [<-|[]] _ _. reflexivity. }
  assert (Hok : fst (performLotteryDraw reliable_client (fun _ => 0%nat) 100
                       (example_lottery 2 1 CLAIM) db) <> DrawFailed)
    by (vm_compute; discriminate).
  destruct (completed_lottery_out_of_reach reliable_client (fun _ => 0%nat) 100 200
              (example_lottery 2 1 CLAIM) db ["claim"; "1002"] Honly Hok)
    as (Hw & _ & _ & _).
  destruct (completed_lottery_out_of_reach reliable_client (fun _ => 0%nat) 100
              (100 + 3600 * 1000 + 1) (example_lottery 2 1 CLAIM) db ["expire"] Honly Hok)
    as (_ & _ & _ & He).
  split; [reflexivity|]. split; [exact Hw|]. split; [reflexivity|exact He].
Defined.

Lemma insert_by_assigned_at_mem (w x : winner_row) (l : list winner_row) :
  In x (insert_by_assigned_at w l) <-> x = w \/ In x l.
Proof.
  induction l as [|v t IH]; simpl; [intuition|].
  destruct (assigned_at w <=? assigned_at v); simpl; [intuition|].
  rewrite IH. intuition.
Qed.

Lemma getLotteryWinners_lists (lotteryId : Z) (db : DB) (w : winner_row) :
  In w (lottery_winners db) -> lw_lottery_id w = lotteryId ->
  exists v, In v (getLotteryWinners lotteryId db)
            /\ lw_id v = lw_id w /\ lw_user_id v = lw_user_id w
            /\ lw_status v = lw_status w /\ expires_at v = expires_at w.
Proof.
  intros Hin Hid. exists (with_participant_names db w).
  split; [|repeat split; reflexivity].
  unfold getLotteryWinners.
  assert (Hf : In (with_participant_names db w)
                  (map (with_participant_names db)
                       (filter (fun w => lw_lottery_id w =? lotteryId) (lottery_winners db)))).
  { apply in_map, filter_In. split; [assumption|]. apply Z.eqb_eq. assumption. }
  revert Hf.
  generalize (map (with_participant_names db)
                  (filter (fun w => lw_lottery_id w =? lotteryId) (lottery_winners db))).
  intros l Hf. induction l as [|a t IH]; [contradiction|]. simpl.
  apply insert_by_assigned_at_mem. destruct Hf as [->|Hf]; [left; reflexivity|].
  right. apply IH. assumption.
Qed.

(** The [winners] subcommand reads the list, then runs the expiry sweep,
    then shows what it read: a record that was pending and overdue when
    the command was given is shown as pending, and is expired in the table
    once the command is through. *)
Theorem winners_command_shows_state_before_sweep (chatId : string) (now : Z) (db : DB)
    (lottery : lottery_row) (w : winner_row) :
  getActiveLottery chatId db = Some lottery ->
  In w (lottery_winners db) -> lw_lottery_id w = lc_id lottery ->
  overdue now w ->
  let r := lottery_winners_command chatId now db in
  (exists shown v, fst r = Some shown /\ In v shown
                   /\ lw_id v = lw_id w /\ lw_status v = PENDING)
  /\ (exists w', In w' (lottery_winners (snd r)) /\ same_but_status w w'
                 /\ lw_status w' = EXPIRED).
Proof.
  intros Ha Hin Hid Hover r. unfold r, lottery_winners_command. rewrite Ha.
  destruct (getLotteryWinners_lists (lc_id lottery) db w Hin Hid)
    as (v & Hv & Hvid & _ & Hvs & _).
  destruct (length (getLotteryWinners (lc_id lottery) db) =? 0)%nat eqn:E.
  - apply Nat.eqb_eq, length_zero_iff_nil in E. rewrite E in Hv. contradiction.
  - cbn [fst snd]. split.
    + exists (getLotteryWinners (lc_id lottery) db), v.
      repeat split; try assumption.
      rewrite Hvs. apply claim_expired_iff in Hover.
      unfold claim_expired in Hover. apply andb_true_iff in Hover.
      destruct Hover as [Hs _]. destruct (lw_status w); try discriminate. reflexivity.
    + exists (set_winner_status w EXPIRED). split.
      * unfold expireOldClaims. cbn [lottery_winners set_lottery_winners].
        apply in_map_iff. exists w. split; [|assumption].
        apply claim_expired_iff in Hover. rewrite Hover. reflexivity.
      * split; [unfold same_but_status; repeat split; reflexivity|reflexivity].
Qed.

Lemma winners_command_shows_state_before_sweep_witness :
  let muted := mk_client (fun _ => true) (fun _ => false) in
  let db := snd (performLotteryDraw muted (fun _ => 0%nat) 100 (example_lottery 5 1 CLAIM)
                   (join_all [(1, alice, 10); (1, bob, 11)] (example_db 5 1 CLAIM 5))) in
  let r := lottery_winners_command "-100" 3600101 db in
  option_map (map lw_status) (fst r) = Some [PENDING]
  /\ map lw_status (lottery_winners (snd r)) = [EXPIRED]
  /\ (exists shown v, fst r = Some shown /\ In v shown /\ lw_id v = 1 /\ lw_status v = PENDING).
Proof.
  intros muted db r.
  split; [reflexivity|]. split; [reflexivity|].
  apply (winners_command_shows_state_before_sweep "-100" 3600101 db
           (example_lottery 5 1 CLAIM)
           (mk_winner 1 1 "1002" None (Some "Bob") None None "gift card" PENDING 100 None
                      (Some 3600100))).
  - reflexivity.
  - left. reflexivity.
  - reflexivity.
  - split; [reflexivity|]. exists 3600100. split; [reflexivity|lia].
Defined.

(** * The shuffle: who can win *)

Section ShuffleReach.
Context {A : Type}.

Lemma update_same (l : list A) :
  forall (i : nat) (x : A), nth_error l i = Some x -> update l i x = l.
Proof.
  induction l as [|a l IH]; intros [|i] x H; simpl in *; try discriminate.
  - injection H as <-. reflexivity.
  - rewrite (IH i x H). reflexivity.
Qed.

Lemma swap_same (l : list A) (i : nat) : swap l i i = l.
Proof.
  unfold swap. destruct (nth_error l i) as [x|] eqn:E; [|reflexivity].
  rewrite (update_same l i x E). apply update_same. assumption.
Qed.

Lemma shuffle_from_step (random : nat -> nat) (i : nat) (l : list A) :
  shuffle_from random (S i) l
  = shuffle_from random i (swap l (S i) (random (S i) mod (S i + 1))).
Proof. reflexivity. Qed.

Lemma shuffle_from_fixed (random : nat -> nat) (i : nat) :
  forall l : list A,
    (forall j, (1 <= j <= i)%nat -> random j = j) ->
    shuffle_from random i l = l.
Proof.
  induction i as [|i IH]; intros l H; [reflexivity|].
  rewrite shuffle_from_step, (H (S i)) by lia.
  rewrite Nat.mod_small by lia. rewrite swap_same.
  apply IH. intros j Hj. apply H. lia.
Qed.

Lemma shuffle_from_pick (k i : nat) :
  forall l : list A,
    (1 <= k <= i)%nat ->
    shuffle_from (fun j => if (j =? k)%nat then 0%nat else j) i l = swap l k 0.
Proof.
  induction i as [|i IH]; intros l H; [lia|].
  rewrite shuffle_from_step.
  destruct (Nat.eqb_spec (S i) k) as [He|Hne].
  - rewrite Nat.Div0.mod_0_l. rewrite He.
    apply shuffle_from_fixed. intros j Hj.
    destruct (Nat.eqb_spec j k); [lia|reflexivity].
  - rewrite Nat.mod_small by lia. rewrite swap_same. apply IH. lia.
Qed.

Lemma hd_swap (l : list A) (k : nat) (x : A) :
  (1 <= k)%nat -> nth_error l k = Some x -> hd_error (swap l k 0) = Some x.
Proof.
  intros Hk H. destruct l as [|a t]; [destruct k; discriminate|].
  destruct k as [|k]; [lia|]. unfold swap. rewrite H. reflexivity.
Qed.

Lemma fisher_yates_can_put_first (l : list A) (k : nat) (x : A) :
  nth_error l k = Some x ->
  exists random, hd_error (fisher_yates random l) = Some x.
Proof.
  intro H. destruct k as [|k].
  - exists (fun j => j). unfold fisher_yates.
    rewrite shuffle_from_fixed by reflexivity.
    destruct l; [discriminate|exact H].
  - exists (fun j => if (j =? S k)%nat then 0%nat else j). unfold fisher_yates.
    assert (Hlt : (S k < length l)%nat) by (apply nth_error_Some; congruence).
    rewrite shuffle_from_pick by lia.
    apply hd_swap; [lia|assumption].
Qed.
End ShuffleReach.

(** Every participant can win.  For each participant of a lottery with at
    least one winner to draw there are random choices with which the draw
    writes a winner record for that participant; and whatever the random
    choices are, the shuffle only reorders the participants. *)
Theorem every_participant_can_win (client : Client) (now : Z) (lottery : lottery_row)
    (db : DB) (p : participant_row) :
  In p (getLotteryParticipants (lc_id lottery) db) ->
  1 <= winner_count lottery ->
  (exists random r,
     In r (new_winners db (snd (performLotteryDraw client random now lottery db)))
     /\ lw_lottery_id r = lc_id lottery /\ lw_user_id r = lp_user_id p)
  /\ (forall random,
        Permutation (fisher_yates random (getLotteryParticipants (lc_id lottery) db))
                    (getLotteryParticipants (lc_id lottery) db)).
Proof.
  intros Hin Hwc. split; [|intro random; apply fisher_yates_perm].
  destruct (In_nth_error _ _ Hin) as (k & Hk).
  destruct (fisher_yates_can_put_first _ k p Hk) as (random & Hhd).
  exists random.
  assert (Hn : (length (getLotteryParticipants (lc_id lottery) db) =? 0)%nat = false).
  { apply Nat.eqb_neq. intro H0. apply length_zero_iff_nil in H0.
    rewrite H0 in Hin. contradiction. }
  assert (Hnew : new_winners db (snd (performLotteryDraw client random now lottery db))
                 = new_winners db
                     (distributePrizes client lottery now
                        (slice0 (fisher_yates random (getLotteryParticipants (lc_id lottery) db))
                                (Z.min (winner_count lottery)
                                   (Z.of_nat (length (getLotteryParticipants
                                                        (lc_id lottery) db)))))
                        db)).
  { unfold performLotteryDraw. rewrite Hn.
    destruct (chat_message_ok client (chat_id lottery)); reflexivity. }
  rewrite Hnew.
  pose proof (distributePrizes_records client lottery now
    (slice0 (fisher_yates random (getLotteryParticipants (lc_id lottery) db))
            (Z.min (winner_count lottery)
               (Z.of_nat (length (getLotteryParticipants (lc_id lottery) db)))))
    db) as F.
  assert (Hlen : (1 <= length (getLotteryParticipants (lc_id lottery) db))%nat).
  { apply Nat.eqb_neq in Hn. lia. }
  destruct (fisher_yates random (getLotteryParticipants (lc_id lottery) db))
    as [|x rest] eqn:Es; [discriminate|].
  injection Hhd as ->.
  unfold slice0 in F |- *.
  replace (Z.min (winner_count lottery)
             (Z.of_nat (length (getLotteryParticipants (lc_id lottery) db))) <? 0)
    with false in F |- * by (symmetry; apply Z.ltb_ge; lia).
  destruct (Z.to_nat (Z.min (winner_count lottery)
                        (Z.of_nat (length (getLotteryParticipants (lc_id lottery) db)))))
    as [|m] eqn:Em; [lia|].
  cbn [firstn] in F |- *. inversion F as [|a r l l' Hr _ Ha Hl]; subst.
  exists r. split; [left; reflexivity|].
  destruct Hr as (H1 & H2 & _). split; assumption.
Qed.

Lemma every_participant_can_win_witness :
  let db := join_all [(1, alice, 10); (1, bob, 11); (1, carol, 12)]
              (example_db 5 1 CLAIM 5) in
  map lp_user_id (getLotteryParticipants 1 db) = ["1001"; "1002"; "1003"]
  /\ map lw_user_id
       (lottery_winners (snd (performLotteryDraw reliable_client (fun j => j) 100
                                (example_lottery 5 1 CLAIM) db))) = ["1001"]
  /\ map lw_user_id
       (lottery_winners (snd (performLotteryDraw reliable_client
                                (fun j => if (j =? 1)%nat then 0%nat else j) 100
                                (example_lottery 5 1 CLAIM) db))) = ["1002"]
  /\ (exists random r,
        In r (new_winners db (snd (performLotteryDraw reliable_client random 100
                                     (example_lottery 5 1 CLAIM) db)))
        /\ lw_lottery_id r = 1 /\ lw_user_id r = "1003").
Proof.
  intro db. split; [reflexivity|]. split; [reflexivity|]. split; [reflexivity|].
  assert (Hin : In (mk_participant 3 1 "1003" (Some "carol") None None 12)
                   (getLotteryParticipants (lc_id (example_lottery 5 1 CLAIM)) db))
    by (simpl; right; right; left; reflexivity).
  assert (Hwc : 1 <= winner_count (example_lottery 5 1 CLAIM)) by (simpl; lia).
  exact (proj1 (every_participant_can_win reliable_client 100 (example_lottery 5 1 CLAIM) db
                  (mk_participant 3 1 "1003" (Some "carol") None None 12) Hin Hwc)).
Defined.

Lemma winner_of_iff (lotteryId : Z) (userId : string) (w : winner_row) :
  winner_of lotteryId userId w = true
  <-> lw_lottery_id w = lotteryId /\ lw_user_id w = userId.
Proof.
  unfold winner_of. rewrite andb_true_iff, Z.eqb_eq, String.eqb_eq. tauto.
Qed.

Lemma mark_rows (lotteryId : Z) (userId : string) (now : Z) (t : list winner_row) :
  Forall2 (marked_sent lotteryId userId now) t
          (map (fun w => if winner_of lotteryId userId w
                         then set_winner_status_claimed w SENT (Some now) else w) t).
Proof.
  induction t as [|w t IH]; simpl; constructor; [|assumption].
  destruct (winner_of lotteryId userId w) eqn:E.
  - apply winner_of_iff in E. left. destruct E. repeat split; assumption || reflexivity.
  - right. split; [|reflexivity]. intro H. apply winner_of_iff in H. congruence.
Qed.

(** The [claim] subcommand on a chat with an active lottery.  Given a user
    id, it answers that the user is marked exactly when the lottery has a
    winner record for that id, and then every such record, whatever its
    status was, has status sent and the time of the command as
    [claimed_at], all other rows and tables being kept.  Given an [@name]
    that no winner of the lottery carries, it writes nothing. *)
Theorem claim_command_marks_sent (args : list string) (chatId target : string) (now : Z)
    (db : DB) (lottery : lottery_row) :
  getActiveLottery chatId db = Some lottery ->
  nth_error args 1 = Some target ->
  let r := lottery_claim args chatId now db in
  (starts_with_at target = false ->
     (fst r = ClaimMarked
      <-> exists w, In w (lottery_winners db)
                    /\ lw_lottery_id w = lc_id lottery /\ lw_user_id w = target)
     /\ (fst r = ClaimMarked \/ fst r = ClaimNotFound)
     /\ Forall2 (marked_sent (lc_id lottery) target now)
                (lottery_winners db) (lottery_winners (snd r))
     /\ lottery_config (snd r) = lottery_config db
     /\ lottery_participants (snd r) = lottery_participants db
     /\ prize_warehouse (snd r) = prize_warehouse db)
  /\ (starts_with_at target = true ->
      (forall v, In v (getLotteryWinners (lc_id lottery) db) ->
                 lw_username v <> Some (substring1 target)) ->
      r = (ClaimUnknownUsername, db)).
Proof.
  intros Ha Harg r.
  assert (Hlen : (length args <? 2)%nat = false).
  { apply Nat.ltb_ge. assert (H : (1 < length args)%nat)
      by (apply nth_error_Some; congruence). lia. }
  assert (Hnth : nth 1 args "" = target) by (apply nth_error_nth; assumption).
  unfold r, lottery_claim. rewrite Hlen, Ha, Hnth. split.
  - intros ->. unfold updateWinnerStatusByUser. cbn [or_nullZ].
    destruct (0 <? length (filter (winner_of (lc_id lottery) target) (lottery_winners db)))%nat
      eqn:E; cbn [fst snd lottery_winners set_lottery_winners lottery_config
                  lottery_participants prize_warehouse].
    + split.
      { split; [intros _|reflexivity].
        destruct (filter (winner_of (lc_id lottery) target) (lottery_winners db))
          as [|w l] eqn:F; [discriminate|].
        assert (Hw : In w (filter (winner_of (lc_id lottery) target) (lottery_winners db)))
          by (rewrite F; left; reflexivity).
        apply filter_In in Hw. destruct Hw as [Hin Hw]. apply winner_of_iff in Hw.
        exists w. tauto. }
      split; [left; reflexivity|]. split; [apply mark_rows|repeat split].
    + split.
      { split; [discriminate|]. intros (w & Hin & Hl & Hu). exfalso.
        assert (Hw : In w (filter (winner_of (lc_id lottery) target) (lottery_winners db))).
        { apply filter_In. split; [assumption|]. apply winner_of_iff. tauto. }
        destruct (filter (winner_of (lc_id lottery) target) (lottery_winners db));
          [contradiction|discriminate]. }
      split; [right; reflexivity|]. split; [apply mark_rows|repeat split].
  - intros -> Hno.
    destruct (find _ (getLotteryWinners (lc_id lottery) db)) as [v|] eqn:F; [|reflexivity].
    apply find_some in F. destruct F as [Hin Hname]. exfalso. apply (Hno v Hin).
    destruct (lw_username v) as [u|]; [|discriminate].
    apply String.eqb_eq in Hname. congruence.
Qed.

Lemma claim_command_marks_sent_witness :
  let muted := mk_client (fun _ => true) (fun _ => false) in
  let db := snd (performLotteryDraw muted (fun _ => 0%nat) 100 (example_lottery 5 1 CLAIM)
                   (join_all [(1, alice, 10); (1, bob, 11)] (example_db 5 1 CLAIM 5))) in
  map (fun w => (lw_user_id w, lw_status w, claimed_at w)) (lottery_winners db)
  = [("1002", PENDING, None)]
  /\ fst (lottery_claim ["claim"; "1002"] "-100" 200 db) = ClaimMarked
  /\ map (fun w => (lw_user_id w, lw_status w, claimed_at w))
         (lottery_winners (snd (lottery_claim ["claim"; "1002"] "-100" 200 db)))
     = [("1002", SENT, Some 200)]
  /\ fst (lottery_claim ["claim"; "1001"] "-100" 200 db) = ClaimNotFound
  /\ lottery_claim ["claim"; "@alice"] "-100" 200 db = (ClaimUnknownUsername, db)
  /\ Forall2 (marked_sent 1 "1002" 200) (lottery_winners db)
             (lottery_winners (snd (lottery_claim ["claim"; "1002"] "-100" 200 db))).
Proof.
  intros muted db.
  destruct (claim_command_marks_sent ["claim"; "1002"] "-100" "1002" 200 db
              (example_lottery 5 1 CLAIM) eq_refl eq_refl) as (Hid & _).
  destruct (claim_command_marks_sent ["claim"; "@alice"] "-100" "@alice" 200 db
              (example_lottery 5 1 CLAIM) eq_refl eq_refl) as (_ & Hname).
  split; [reflexivity|]. split; [reflexivity|]. split; [reflexivity|].
  split; [reflexivity|]. split.
  - apply Hname; [reflexivity|]. intros v [<-|[]]. discriminate.
  - exact (proj1 (proj2 (proj2 (Hid eq_refl)))).
Defined.

(** The [expire] subcommand runs the sweep exactly when the chat it is
    given in has an active lottery, and the sweep it runs is over the whole
    table: an overdue pending record is expired whichever lottery, of
    whichever chat, it belongs to. *)
Theorem expire_command_sweeps_every_lottery (chatId : string) (now : Z) (db : DB) :
  let r := lottery_expire chatId now db in
  (fst r = true <-> getActiveLottery chatId db <> None)
  /\ (fst r = false -> snd r = db)
  /\ (fst r = true ->
      Forall2 (swept now) (lottery_winners db) (lottery_winners (snd r))
      /\ lottery_config (snd r) = lottery_config db
      /\ lottery_participants (snd r) = lottery_participants db
      /\ prize_warehouse (snd r) = prize_warehouse db
      /\ forall w, In w (lottery_winners db) -> overdue now w ->
           exists w', In w' (lottery_winners (snd r))
                      /\ lw_status w' = EXPIRED /\ same_but_status w w').
Proof.
  intro r. unfold r, lottery_expire.
  destruct (getActiveLottery chatId db) as [l|]; cbn [fst snd].
  - split; [split; [discriminate|reflexivity]|].
    split; [discriminate|]. intros _.
    split; [apply Forall2_map_r, sweep_row|].
    split; [reflexivity|]. split; [reflexivity|]. split; [reflexivity|].
    intros w Hin Hover.
    exists (if claim_expired now w then set_winner_status w EXPIRED else w).
    split; [apply (in_map (fun w => if claim_expired now w
                                    then set_winner_status w EXPIRED else w)); assumption|].
    destruct (sweep_row now w) as [(_ & Hs & Hsame)|(Hno & _)]; [|contradiction].
    split; assumption.
  - split; [split; [discriminate|intro H; exfalso; apply H; reflexivity]|].
    split; [reflexivity|discriminate].
Qed.

Lemma expire_command_sweeps_every_lottery_witness :
  let other := mk_winner 1 9 "2001" None None None None "sticker" PENDING 0 None (Some 50) in
  let db := set_lottery_winners (example_db 3 2 CLAIM 4) [other] in
  fst (lottery_expire "-100" 60 db) = true
  /\ map (fun w => (lw_lottery_id w, lw_status w))
         (lottery_winners (snd (lottery_expire "-100" 60 db))) = [(9, EXPIRED)]
  /\ lottery_expire "-200" 60 db = (false, db)
  /\ exists w', In w' (lottery_winners (snd (lottery_expire "-100" 60 db)))
                /\ lw_status w' = EXPIRED /\ same_but_status other w'.
Proof.
  intros other db.
  destruct (expire_command_sweeps_every_lottery "-100" 60 db) as (_ & _ & H).
  destruct (H eq_refl) as (_ & _ & _ & _ & Hw).
  split; [reflexivity|]. split; [reflexivity|]. split; [reflexivity|].
  apply (Hw other); [left; reflexivity|].
  split; [reflexivity|]. exists 50. split; [reflexivity|lia].
Defined.

(** * The forwarding plugin: the rule cache *)

Lemma getShiftRule_coherent (now sourceId : Z) (st : ShiftState) :
  cache_coherent st ->
  fst (getShiftRule now sourceId st) = shift_rules st sourceId
  /\ shift_rules (snd (getShiftRule now sourceId st)) = shift_rules st
  /\ cache_coherent (snd (getShiftRule now sourceId st)).
Proof.
  intro Hc. unfold getShiftRule.
  assert (Hread : cache_coherent
                    (mk_shift (shift_rules st)
                       (set_key (ruleCache st) sourceId
                                (Some (shift_rules st sourceId, now))))).
  { intros id rule t. unfold set_key. simpl.
    destruct (Z.eqb_spec id sourceId) as [->|_]; [|apply Hc].
    intro H. injection H as <- _. reflexivity. }
  destruct (ruleCache st sourceId) as [[rule timestamp]|] eqn:E.
  - destruct (now - timestamp <? RULE_CACHE_TTL); simpl.
    + split; [apply (Hc sourceId rule timestamp E)|]. split; [reflexivity|assumption].
    + split; [reflexivity|]. split; [reflexivity|assumption].
  - simpl. split; [reflexivity|]. split; [reflexivity|assumption].
Qed.

Lemma run_rule_op_coherent (op : RuleOp) (st : ShiftState) :
  cache_coherent st -> cache_coherent (run_rule_op op st).
Proof.
  intro Hc. destruct op as [now sourceId|now sourceId rule|sourceId]; simpl.
  - apply getShiftRule_coherent. assumption.
  - intros id r t. unfold set_key. simpl.
    destruct (Z.eqb_spec id sourceId) as [->|_]; [|apply Hc].
    intro H. injection H as <- _. reflexivity.
  - intros id r t. unfold set_key. simpl.
    destruct (Z.eqb_spec id sourceId) as [->|_]; [discriminate|apply Hc].
Qed.

Lemma run_rule_ops_coherent (ops : list RuleOp) :
  forall st, cache_coherent st -> cache_coherent (run_rule_ops ops st).
Proof.
  unfold run_rule_ops.
  induction ops as [|op ops IH]; intros st Hc; simpl; [assumption|].
  apply IH, run_rule_op_coherent. assumption.
Qed.

(** The rule cache never serves a stale rule.  Starting from an empty
    cache, after any sequence of rule look-ups, saves and deletions, at any
    times, [getShiftRule] answers what the table holds for the source, be
    the cache entry fresh or expired, and leaves the table as it is; in
    particular a rule is read back right after it was saved, and no rule
    right after it was deleted. *)
Theorem rule_cache_never_stale (ops : list RuleOp) (rules : Z -> option ShiftRule)
    (now now' sourceId : Z) (rule : ShiftRule) :
  let st := run_rule_ops ops (fresh_process rules) in
  fst (getShiftRule now sourceId st) = shift_rules st sourceId
  /\ shift_rules (snd (getShiftRule now sourceId st)) = shift_rules st
  /\ fst (getShiftRule now' sourceId (snd (saveShiftRule now sourceId rule st))) = Some rule
  /\ fst (getShiftRule now' sourceId (snd (deleteShiftRule sourceId st))) = None
  /\ (forall other, other <> sourceId ->
        fst (getShiftRule now' other (snd (saveShiftRule now sourceId rule st)))
        = shift_rules st other
        /\ fst (getShiftRule now' other (snd (deleteShiftRule sourceId st)))
           = shift_rules st other).
Proof.
  intro st.
  assert (Hc : cache_coherent st).
  { apply run_rule_ops_coherent. intros id r t H. discriminate. }
  assert (Hs : cache_coherent (snd (saveShiftRule now sourceId rule st)))
    by (apply (run_rule_op_coherent (SaveRule now sourceId rule)); assumption).
  assert (Hd : cache_coherent (snd (deleteShiftRule sourceId st)))
    by (apply (run_rule_op_coherent (DeleteRule sourceId)); assumption).
  destruct (getShiftRule_coherent now sourceId st Hc) as (H1 & H2 & _).
  split; [assumption|]. split; [assumption|].
  split.
  { rewrite (proj1 (getShiftRule_coherent now' sourceId _ Hs)).
    simpl. unfold set_key. rewrite Z.eqb_refl. reflexivity. }
  split.
  { rewrite (proj1 (getShiftRule_coherent now' sourceId _ Hd)).
    simpl. unfold set_key. rewrite Z.eqb_refl. reflexivity. }
  intros other Hne.
  rewrite (proj1 (getShiftRule_coherent now' other _ Hs)).
  rewrite (proj1 (getShiftRule_coherent now' other _ Hd)).
  simpl. unfold set_key.
  replace (other =? sourceId) with false by (symmetry; apply Z.eqb_neq; assumption).
  split; reflexivity.
Qed.

Lemma rule_cache_never_stale_witness :
  let rule := mk_rule 2 [] "chat" false "" [] in
  let st := run_rule_ops [GetRule 0 1; SaveRule 10 1 rule; GetRule 20 1; DeleteRule 1]
              (fresh_process (fun _ => None)) in
  ruleCache (run_rule_ops [GetRule 0 1] (fresh_process (fun _ => None))) 1
  = Some (None, 0)
  /\ fst (getShiftRule 20 1
            (run_rule_ops [GetRule 0 1; SaveRule 10 1 rule] (fresh_process (fun _ => None))))
     = Some rule
  /\ fst (getShiftRule 30 1 st) = None
  /\ fst (getShiftRule 30 7 (snd (saveShiftRule 25 1 rule st))) = shift_rules st 7.
Proof.
  intros rule st.
  destruct (rule_cache_never_stale
              [GetRule 0 1; SaveRule 10 1 rule; GetRule 20 1; DeleteRule 1]
              (fun _ => None) 25 30 1 rule) as (_ & _ & _ & _ & Ho).
  assert (Hne : 7 <> 1) by lia.
  split; [reflexivity|]. split; [reflexivity|]. split; [reflexivity|].
  exact (proj1 (Ho 7 Hne)).
Defined.


(** * The forwarding plugin: [isCircularForward] *)

Lemma follow_stops (rules : Z -> option ShiftRule) (target : Z) (i : nat) :
  follow rules i target = None ->
  forall n, (i <= n)%nat -> follow rules n target = None.
Proof.
  intros H n Hle. induction Hle as [|n Hle IH]; [assumption|].
  simpl. rewrite IH. reflexivity.
Qed.

Lemma visited_iff (currentId : Z) (visited : list Z) :
  existsb (Z.eqb currentId) visited = true <-> In currentId visited.
Proof.
  rewrite existsb_exists. split.
  - intros (x & Hx & He). apply Z.eqb_eq in He. subst x. assumption.
  - intro H. exists currentId. split; [assumption|apply Z.eqb_refl].
Qed.

Lemma circular_loop_spec (clock : nat -> Z) (rules : Z -> option ShiftRule)
    (source target : Z) (k : nat) :
  forall (i : nat) (visited : list Z) (current : Z) (st : ShiftState),
    cache_coherent st -> shift_rules st = rules ->
    follow rules i target = Some current ->
    (forall x, In x visited
               <-> x = source \/ exists m, (m < i)%nat /\ follow rules m target = Some x) ->
    (forall m, (m < i)%nat -> follow rules m target <> Some source) ->
    let r := circular_loop clock k i visited current st in
    cache_coherent (snd r) /\ shift_rules (snd r) = rules
    /\ fst r <> SelfForward
    /\ (fst r = NotCircular ->
        forall n, (n < i + k)%nat -> follow rules n target <> Some source)
    /\ (forall id, fst r = IndirectCycle id ->
        exists n, (n < i + k)%nat /\ follow rules n target = Some id
                  /\ (id = source
                      \/ exists m, (m < n)%nat /\ follow rules m target = Some id)).
Proof.
  induction k as [|k IH]; intros i visited current st Hc Hr Hi Hv Hs; simpl.
  - split; [assumption|]. split; [assumption|]. split; [discriminate|].
    split; [|discriminate]. intros _ n Hn. apply Hs. lia.
  - destruct (existsb (Z.eqb current) visited) eqn:E.
    + simpl. split; [assumption|]. split; [assumption|]. split; [discriminate|].
      split; [discriminate|]. intros id H. injection H as <-.
      exists i. split; [lia|]. split; [assumption|].
      apply visited_iff, Hv in E. exact E.
    + assert (Hnot : ~ In current visited).
      { intro H. apply visited_iff in H. congruence. }
      assert (Hne : current <> source).
      { intro H. apply Hnot, Hv. left. assumption. }
      destruct (getShiftRule_coherent (clock i) current st Hc) as (G1 & G2 & G3).
      destruct (getShiftRule (clock i) current st) as [rule st'] eqn:G.
      simpl in G1, G2, G3. rewrite Hr in G1, G2.
      assert (Hstop : hop rules current = None ->
                forall n, (n < i + S k)%nat -> follow rules n target <> Some source).
      { intros Hh n Hn.
        destruct (Nat.lt_ge_cases n i) as [Hlt|Hge]; [apply Hs; assumption|].
        destruct (Nat.eq_dec n i) as [->|Hni]; [rewrite Hi; congruence|].
        rewrite (follow_stops rules target (S i)); [discriminate| |lia].
        simpl. rewrite Hi. assumption. }
      destruct rule as [r|].
      * destruct (target_id r =? -1) eqn:T.
        -- simpl. split; [assumption|]. split; [assumption|]. split; [discriminate|].
           split; [|discriminate]. intros _. apply Hstop.
           unfold hop. rewrite <- G1, T. reflexivity.
        -- assert (Hhop : hop rules current = Some (target_id r))
             by (unfold hop; rewrite <- G1, T; reflexivity).
           assert (Hnext : follow rules (S i) target = Some (target_id r))
             by (simpl; rewrite Hi; assumption).
           destruct (IH (S i) (current :: visited) (target_id r) st' G3 G2 Hnext)
             as (R1 & R2 & R3 & R4 & R5).
           { intro x. simpl. rewrite Hv. split.
             - intros [<-|[->|(m & Hm & Hf)]].
               + right. exists i. split; [lia|assumption].
               + left. reflexivity.
               + right. exists m. split; [lia|assumption].
             - intros [->|(m & Hm & Hf)]; [right; left; reflexivity|].
               destruct (Nat.eq_dec m i) as [->|Hmi].
               + left. congruence.
               + right. right. exists m. split; [lia|assumption]. }
           { intros m Hm. destruct (Nat.eq_dec m i) as [->|Hmi].
             - rewrite Hi. congruence.
             - apply Hs. lia. }
           split; [assumption|]. split; [assumption|]. split; [assumption|].
           split.
           ++ intros H n Hn. apply (R4 H). lia.
           ++ intros id H. destruct (R5 id H) as (n & Hn & Hf & Hrep).
              exists n. split; [lia|]. split; assumption.
      * simpl. split; [assumption|]. split; [assumption|]. split; [discriminate|].
        split; [|discriminate]. intros _. apply Hstop.
        unfold hop. rewrite <- G1. reflexivity.
Qed.

(** What [isCircularForward] checks.  It answers "self" exactly when
    source and target are the same chat.  When it answers "not circular",
    none of the first twenty chats reached from the target along the rules
    is the source, so the new rule closes no loop of up to twenty rules
    through the source.  When it reports an indirect cycle at a chat, that
    chat is reached from the target within twenty hops and is the source
    or was reached before.  The look-ups leave the rules as they are. *)
Theorem isCircularForward_sound (clock : nat -> Z) (sourceId targetId : Z)
    (st : ShiftState) :
  cache_coherent st ->
  let r := isCircularForward clock sourceId targetId st in
  (fst r = SelfForward <-> sourceId = targetId)
  /\ (fst r = NotCircular ->
      forall n, (n < 20)%nat -> follow (shift_rules st) n targetId <> Some sourceId)
  /\ (forall id, fst r = IndirectCycle id ->
      exists n, (n < 20)%nat /\ follow (shift_rules st) n targetId = Some id
                /\ (id = sourceId
                    \/ exists m, (m < n)%nat /\ follow (shift_rules st) m targetId = Some id))
  /\ cache_coherent (snd r)
  /\ shift_rules (snd r) = shift_rules st.
Proof.
  intros Hc r. unfold r, isCircularForward.
  destruct (Z.eqb_spec sourceId targetId) as [He|Hne].
  - simpl. split; [tauto|]. split; [discriminate|]. split; [discriminate|].
    split; [assumption|reflexivity].
  - destruct (circular_loop_spec clock (shift_rules st) sourceId targetId 20 0 [sourceId]
                targetId st Hc eq_refl eq_refl) as (R1 & R2 & R3 & R4 & R5).
    { intro x. simpl. split.
      - intros [<-|[]]. left. reflexivity.
      - intros [->|(m & Hm & _)]; [left; reflexivity|lia]. }
    { intros m Hm. lia. }
    split; [split; [intro H; contradiction|intro H; contradiction]|].
    split; [exact R4|]. split; [exact R5|]. split; assumption.
Qed.

Lemma isCircularForward_sound_witness :
  fst (isCircularForward (fun _ => 0) 1 2 (fresh_process ping_pong)) = IndirectCycle 1
  /\ fst (isCircularForward (fun _ => 0) 3 1 (fresh_process ping_pong)) = IndirectCycle 1
  /\ fst (isCircularForward (fun _ => 0) 3 3 (fresh_process ping_pong)) = SelfForward
  /\ fst (isCircularForward (fun _ => 0) 1 3 (fresh_process ping_pong)) = NotCircular
  /\ (forall n, (n < 20)%nat -> follow ping_pong n 3 <> Some 1).
Proof.
  split; [reflexivity|]. split; [reflexivity|]. split; [reflexivity|].
  split; [reflexivity|].
  assert (Hc : cache_coherent (fresh_process ping_pong))
    by (intros id r t H; discriminate).
  exact (proj1 (proj2 (isCircularForward_sound (fun _ => 0) 1 3 (fresh_process ping_pong) Hc))
           eq_refl).
Defined.

(** * The forwarding plugin: [shiftForwardMessage] *)

Lemma forward_levels_spec (clock : Z -> Z) (forward_ok : Z -> Z -> bool)
    (rules : Z -> option ShiftRule) (fuel : nat) :
  forall (fromChatId toChatId depth : Z) (st : ShiftState),
    cache_coherent st -> shift_rules st = rules ->
    let r := forward_levels fuel clock forward_ok fromChatId toChatId depth st in
    (length (forwards (fst r)) <= fuel)%nat
    /\ (length (forwards (fst r)) <= Z.to_nat (6 - depth))%nat
    /\ chained rules (forwards (fst r))
    /\ (forall f, hd_error (forwards (fst r)) = Some f -> f = (fromChatId, toChatId))
    /\ (forall a b, In (a, b) (forwards (fst r)) -> forward_ok a b = true)
    /\ cache_coherent (snd r) /\ shift_rules (snd r) = rules.
Proof.
  assert (Hnone : forall (n : nat) (d : Z) (x : Z * Z) (st : ShiftState),
            cache_coherent st -> shift_rules st = rules ->
            let r := (mk_forwarding [] false, st) in
            (length (forwards (fst r)) <= n)%nat
            /\ (length (forwards (fst r)) <= Z.to_nat (6 - d))%nat
            /\ chained rules (forwards (fst r))
            /\ (forall f, hd_error (forwards (fst r)) = Some f -> f = x)
            /\ (forall a b, In (a, b) (forwards (fst r)) -> forward_ok a b = true)
            /\ cache_coherent (snd r) /\ shift_rules (snd r) = rules).
  { intros n d x st Hc Hr. cbn [fst snd forwards length chained hd_error In].
    split; [lia|]. split; [lia|]. split; [exact I|]. split; [discriminate|].
    split; [intros a b []|]. split; assumption. }
  induction fuel as [|fuel IH]; intros fromChatId toChatId depth st Hc Hr;
    cbn [forward_levels].
  - apply Hnone; assumption.
  - destruct (5 <? depth) eqn:D; [apply Hnone; assumption|].
    apply Z.ltb_ge in D.
    destruct (forward_ok fromChatId toChatId) eqn:F; cbn [negb];
      [|apply Hnone; assumption].
    destruct (getShiftRule_coherent (clock depth) toChatId st Hc) as (G1 & G2 & G3).
    destruct (getShiftRule (clock depth) toChatId st) as [nextRule st'] eqn:G.
    cbn [fst snd] in G1, G2, G3. rewrite Hr in G1, G2.
    assert (Hone : (1 <= Z.to_nat (6 - depth))%nat) by lia.
    assert (Hstop :
      let r := (mk_forwarding [(fromChatId, toChatId)] false, st') in
      (length (forwards (fst r)) <= S fuel)%nat
      /\ (length (forwards (fst r)) <= Z.to_nat (6 - depth))%nat
      /\ chained rules (forwards (fst r))
      /\ (forall f, hd_error (forwards (fst r)) = Some f -> f = (fromChatId, toChatId))
      /\ (forall a b, In (a, b) (forwards (fst r)) -> forward_ok a b = true)
      /\ cache_coherent (snd r) /\ shift_rules (snd r) = rules).
    { cbn [fst snd forwards length chained hd_error In].
      split; [lia|]. split; [lia|]. split; [exact I|].
      split; [intros f H; injection H as <-; reflexivity|].
      split; [|split; assumption].
      intros a b [H|[]]. injection H as <- <-. assumption. }
    destruct nextRule as [r|]; [|exact Hstop].
    destruct (negb (paused r) && negb (target_id r =? 0)) eqn:N; [|exact Hstop].
    apply andb_true_iff in N. destruct N as [Np _]. apply negb_true_iff in Np.
    destruct (IH toChatId (target_id r) (depth + 1) st' G3 G2)
      as (I1 & I2 & I3 & I4 & I5 & I6 & I7).
    destruct (forward_levels fuel clock forward_ok toChatId (target_id r) (depth + 1) st')
      as [rest st''] eqn:R.
    cbn [fst snd forwards length hd_error In] in *.
    split; [lia|]. split; [lia|].
    split.
    { destruct (forwards rest) as [|[b' c] more] eqn:Er; [exact I|].
      specialize (I4 (b', c) eq_refl). injection I4 as -> ->.
      split; [reflexivity|]. split; [|assumption].
      exists r. repeat split; try assumption. symmetry. assumption. }
    split; [intros f H; injection H as <-; reflexivity|].
    split; [|split; assumption].
    intros a b [H|H]; [injection H as <- <-; assumption|apply I5; assumption].
Qed.

Lemma forward_levels_enough (clock : Z -> Z) (forward_ok : Z -> Z -> bool) (fuel : nat) :
  forall (fromChatId toChatId depth : Z) (st : ShiftState),
    (Z.to_nat (6 - depth) <= fuel)%nat ->
    forward_levels fuel clock forward_ok fromChatId toChatId depth st
    = forward_levels (Z.to_nat (6 - depth)) clock forward_ok fromChatId toChatId depth st.
Proof.
  induction fuel as [|fuel IH]; intros fromChatId toChatId depth st Hle.
  - replace (Z.to_nat (6 - depth)) with 0%nat by lia. reflexivity.
  - destruct (Z.ltb_spec 5 depth) as [Hd|Hd].
    + replace (Z.to_nat (6 - depth)) with 0%nat by lia. cbn [forward_levels].
      replace (5 <? depth) with true by (symmetry; apply Z.ltb_lt; assumption).
      reflexivity.
    + replace (Z.to_nat (6 - depth)) with (S (Z.to_nat (6 - (depth + 1)))) by lia.
      cbn [forward_levels].
      destruct (5 <? depth); [reflexivity|].
      destruct (negb (forward_ok fromChatId toChatId)); [reflexivity|].
      destruct (getShiftRule (clock depth) toChatId st) as [[rule|] st']; [|reflexivity].
      destruct (negb (paused rule) && negb (target_id rule =? 0)); [|reflexivity].
      rewrite (IH toChatId (target_id rule) (depth + 1) st') by lia. reflexivity.
Qed.

(** One message is forwarded at most six times, whatever the rules are,
    loops included.  [shiftForwardMessage] started at depth 0 makes at most
    six forwards: the first is the one asked for, each next one leaves from
    where the last arrived, along a rule that is not paused, and every
    forward listed went through.  More levels of recursion than the depth
    allows change nothing, and the look-ups leave the rules as they are. *)
Theorem shiftForwardMessage_bounded (clock : Z -> Z) (forward_ok : Z -> Z -> bool)
    (fromChatId toChatId depth : Z) (st : ShiftState) :
  cache_coherent st ->
  let r := shiftForwardMessage clock forward_ok fromChatId toChatId depth st in
  (length (forwards (fst r)) <= Z.to_nat (6 - depth))%nat
  /\ (0 <= depth -> (length (forwards (fst r)) <= 6)%nat)
  /\ chained (shift_rules st) (forwards (fst r))
  /\ (forall f, hd_error (forwards (fst r)) = Some f -> f = (fromChatId, toChatId))
  /\ (forall a b, In (a, b) (forwards (fst r)) -> forward_ok a b = true)
  /\ (depth <= 5 -> forward_ok fromChatId toChatId = true ->
      hd_error (forwards (fst r)) = Some (fromChatId, toChatId))
  /\ (forward_ok fromChatId toChatId = false -> forwards (fst r) = [])
  /\ (forall fuel, (Z.to_nat (6 - depth) <= fuel)%nat ->
        forward_levels fuel clock forward_ok fromChatId toChatId depth st = r)
  /\ shift_rules (snd r) = shift_rules st.
Proof.
  intros Hc r. unfold r, shiftForwardMessage.
  destruct (forward_levels_spec clock forward_ok (shift_rules st) (Z.to_nat (6 - depth))
              fromChatId toChatId depth st Hc eq_refl) as (_ & H2 & H3 & H4 & H5 & _ & H7).
  split; [assumption|]. split; [intro Hd; lia|]. split; [assumption|].
  split; [assumption|]. split; [assumption|].
  split.
  { intros Hd Hok.
    replace (Z.to_nat (6 - depth)) with (S (Z.to_nat (6 - (depth + 1)))) by lia.
    cbn [forward_levels].
    replace (5 <? depth) with false by (symmetry; apply Z.ltb_ge; assumption).
    rewrite Hok. cbn [negb].
    destruct (getShiftRule (clock depth) toChatId st) as [[rule|] st']; [|reflexivity].
    destruct (negb (paused rule) && negb (target_id rule =? 0)); [|reflexivity].
    destruct (forward_levels _ clock forward_ok toChatId (target_id rule) (depth + 1) st').
    reflexivity. }
  split.
  { intro Hno. destruct (Z.to_nat (6 - depth)); [reflexivity|]. cbn [forward_levels].
    destruct (5 <? depth); [reflexivity|]. rewrite Hno. reflexivity. }
  split; [|assumption].
  intros fuel Hle. apply forward_levels_enough. assumption.
Qed.

Lemma shiftForwardMessage_bounded_witness :
  let r := shiftForwardMessage (fun _ => 0) (fun _ _ => true) 1 2 0
             (fresh_process ping_pong) in
  forwards (fst r) = [(1, 2); (2, 1); (1, 2); (2, 1); (1, 2); (2, 1)]
  /\ threw (fst r) = false
  /\ (length (forwards (fst r)) <= 6)%nat
  /\ forwards (fst (shiftForwardMessage (fun _ => 0) (fun a _ => a =? 1) 1 2 0
                      (fresh_process ping_pong))) = [(1, 2)]
  /\ threw (fst (shiftForwardMessage (fun _ => 0) (fun a _ => a =? 1) 1 2 0
                   (fresh_process ping_pong))) = true.
Proof.
  intro r.
  assert (Hc : cache_coherent (fresh_process ping_pong))
    by (intros id x t H; discriminate).
  destruct (shiftForwardMessage_bounded (fun _ => 0) (fun _ _ => true) 1 2 0
              (fresh_process ping_pong) Hc) as (_ & H & _).
  split; [reflexivity|]. split; [reflexivity|].
  split; [apply H; lia|]. split; reflexivity.
Defined.

(** * The warehouse list of [create] and selection by number *)

Lemma listed_warehouses_in (db : DB) (name : string) :
  In name (map ws_warehouse_name (getAllWarehousesWithPrizes db))
  <-> exists p, In p (prize_warehouse db) /\ warehouse_name p = name /\ 0 < stock_count p.
Proof.
  unfold getAllWarehousesWithPrizes. cbv zeta. rewrite map_map. cbn [ws_warehouse_name].
  rewrite map_id.
  assert (H : forall l : list prize_row,
            In name (fold_right insert_name [] (map warehouse_name l))
            <-> exists p, In p l /\ warehouse_name p = name).
  { induction l as [|a t IH]; simpl.
    - split; [intros []|intros (p & [] & _)].
    - rewrite insert_name_in, IH. split.
      + intros [->|(q & Hq & Hx)]; [exists a; auto|exists q; auto].
      + intros (q & [<-|Hq] & Hx); [left; auto|right; exists q; auto]. }
  rewrite H. split.
  - intros (p & Hp & Hn). apply filter_In in Hp. destruct Hp as [Hp Hs].
    apply Z.ltb_lt in Hs. exists p. tauto.
  - intros (p & Hp & Hn & Hs). exists p. split; [|assumption].
    apply filter_In. split; [assumption|]. apply Z.ltb_lt. assumption.
Qed.

(** The numbers [create] accepts count every warehouse, the numbers its
    list shows count only the warehouses with a prize in stock.  A number
    within the range selects the warehouse at that place among all
    warehouses in name order, also when some warehouse is named by that
    very number; the list shows exactly the warehouses with a prize in
    stock; so a number can select a warehouse that the list does not show,
    and that warehouse then has no prize to offer. *)
Theorem warehouse_number_counts_every_warehouse (parseInt : string -> option Z)
    (identifier : string) (i : nat) (w : string) (db : DB) :
  nth_error (getPrizeWarehouses db) i = Some w ->
  parseInt identifier = Some (Z.of_nat i + 1) ->
  getWarehouseByNameOrIndex parseInt identifier (getPrizeWarehouses db) = Some w
  /\ (forall name,
        In name (map ws_warehouse_name (getAllWarehousesWithPrizes db))
        <-> exists p, In p (prize_warehouse db) /\ warehouse_name p = name
                      /\ 0 < stock_count p)
  /\ (out_of_stock w (prize_warehouse db) ->
      ~ In w (map ws_warehouse_name (getAllWarehousesWithPrizes db))
      /\ getWarehousePrizes w db = []
      /\ getNextAvailablePrize w db = None).
Proof.
  intros Hnth Hparse.
  assert (Hlt : (i < length (getPrizeWarehouses db))%nat)
    by (apply nth_error_Some; congruence).
  split.
  { unfold getWarehouseByNameOrIndex. rewrite Hparse.
    replace (1 <=? Z.of_nat i + 1) with true by (symmetry; apply Z.leb_le; lia).
    replace (Z.of_nat i + 1 <=? Z.of_nat (length (getPrizeWarehouses db))) with true
      by (symmetry; apply Z.leb_le; lia).
    cbn [andb]. replace (Z.to_nat (Z.of_nat i + 1 - 1)) with i by lia. assumption. }
  split; [intro name; apply listed_warehouses_in|].
  intro Hout.
  assert (Hnone : filter (in_stock w) (prize_warehouse db) = []).
  { apply filter_nothing. intros p Hp.
    destruct (in_stock w p) eqn:E; [|reflexivity].
    apply in_stock_iff in E. destruct E as [Hw Hs].
    specialize (Hout p Hp Hw). lia. }
  split.
  { rewrite listed_warehouses_in. intros (p & Hp & Hw & Hs).
    specialize (Hout p Hp Hw). lia. }
  unfold getWarehousePrizes, getNextAvailablePrize. rewrite Hnone. split; reflexivity.
Qed.

Lemma warehouse_number_counts_every_warehouse_witness :
  let db := set_lottery_config
              (set_prize_warehouse (example_db 2 1 CLAIM 5)
                 [mk_prize 1 "a" "" 0 0 0; mk_prize 2 "b" "" 0 0 0;
                  mk_prize 3 "b" "gift card" 2 1 0]) [] in
  getPrizeWarehouses db = ["a"; "b"]
  /\ map ws_warehouse_name (getAllWarehousesWithPrizes db) = ["b"]
  /\ getWarehouseByNameOrIndex parseInt_digits "1" (getPrizeWarehouses db) = Some "a"
  /\ fst (lottery_create parseInt_digits (fun s => s) (fun _ => "0")
            ["create"; "T"; "join"; "10"; "2"; "1"] "-100" "42" 7 db) = EmptyWarehouse
  /\ fst (lottery_create parseInt_digits (fun s => s) (fun _ => "0")
            ["create"; "T"; "join"; "10"; "2"; "2"] "-100" "42" 7 db) = Created 2.
Proof.
  intro db.
  destruct (warehouse_number_counts_every_warehouse parseInt_digits "1" 0 "a" db
              eq_refl eq_refl) as (H & _).
  split; [reflexivity|]. split; [reflexivity|]. split; [exact H|].
  split; reflexivity.
Defined.
